(** * Ride-hailing dispatch and pricing: a shallow embedding

    The Go packages [matching], [pricing], [config], [driver] and the
    [CreateRide] handler are embedded below, one Rocq module per Go package.

    Conventions of the embedding.
    - [float64] is IEEE binary64.  The code that computes with floats (the
      radius sequence, the fares, the surge curve, the cached surge) is
      embedded in module [binary64] on Rocq's primitive floats, with
      rounding, NaN and the infinities as the processor has them; every
      operation is rounded on its own, as on amd64 (Go lets a compiler
      fuse x * y + z on other targets).
      Coordinates, distances and the radii given to the server are only
      passed on and compared; they are the rationals [Q] the doubles
      denote.  Modules [matching] and [pricing] give the radius sequence
      and the surge curve once more over [Q], products and quotients
      taken exact, for [CreateRide] (whose radii 5, 10, 20, 50 are computed
      without rounding) and for the order of the surge values.
    - Go's [int] and [int64] are [Z].
    - The Redis server is an explicit state ([redis.Redis]) threaded through
      every call.  A command that the server cannot be reached for fails
      without being executed; which calls fail is fixed in advance by the
      [outages] schedule carried in the state, so that the error branches of
      the Go code are reachable in the model.
    - Every command sent is appended, with its reply, to [redis.log]; the
      log is how "a store call was made" is observed.
    - Third-party functions (the GEORADIUS implementation of the server,
      [uuid.Parse], [UUID.String], [strconv.ParseFloat]) are operations of
      the class [Platform]; [uuid.New] is an explicit argument holding the
      value the call would produce.
    - Logging, latency measurement and WebSocket notifications have no
      effect on the stores and are left out. *)

From Stdlib Require Import ZArith QArith Qminmax Lqa Ascii String List Sorted.
From Stdlib Require Import Floats Uint63.
From stdpp Require Import gmap strings list.

(** ** Go-style float comparisons on [Q] *)

Definition Qltb (x y : Q) : bool := negb (Qle_bool y x).
Definition Qgtb (x y : Q) : bool := Qltb y x.

(** ** The Redis client and server state *)

Module redis.

(** [time.Duration]: nanoseconds. *)
Definition Duration : Type := Z.
Definition Second : Duration := 1000000000%Z.

(** go-redis [GeoLocation]. *)
Record GeoLocation : Type := mkGeoLocation {
  Name : string;
  Longitude : Q;
  Latitude : Q;
  Dist : Q;
  GeoHash : Z
}.

(** go-redis [GeoRadiusQuery] (the fields the repository sets). *)
Record GeoRadiusQuery : Type := mkGeoRadiusQuery {
  Radius : Q;
  Unit : string;
  WithCoord : bool;
  WithDist : bool;
  Count : Z;
  Sort : string
}.

(** What a key holds: a string with its expiry (0: none), a set, or a
    geo index (member to longitude and latitude). *)
Inductive Value : Type :=
| VString (v : string) (ttl : Duration)
| VSet (members : gset string)
| VGeo (points : gmap string (Q * Q)).

(** The outcome of [cmd.Result()]: a value with a nil error, the
    [redis.Nil] error of a missing key, or any other error. *)
Inductive reply (A : Type) : Type :=
| Reply (a : A)
| Nil
| Failure.
Arguments Reply {A} a.
Arguments Nil {A}.
Arguments Failure {A}.

Inductive Command : Type :=
| GET (key : string) (r : reply string)
| SET (key value : string) (expiration : Duration) (r : reply unit)
| SREM (key member : string) (r : reply Z)
| GEORADIUS (key : string) (longitude latitude : Q)
            (query : GeoRadiusQuery) (r : reply (list GeoLocation)).

Record Redis : Type := mkRedis {
  db : gmap string Value;
  outages : list bool;
  log : list Command
}.

(** State-passing computations over the store. *)
Definition M (A : Type) : Type := Redis -> A * Redis.
Definition ret {A : Type} (a : A) : M A := fun s => (a, s).
Definition bind {A B : Type} (m : M A) (k : A -> M B) : M B :=
  fun s => let (a, s') := m s in k a s'.

(** One round trip to the server: it fails if the schedule says so,
    otherwise [exec] runs on the keyspace; either way the command and its
    reply are logged. *)
Definition roundtrip {A : Type} (cmd : reply A -> Command)
    (exec : gmap string Value -> reply A * gmap string Value) : M (reply A) :=
  fun s =>
    match outages s with
    | true :: rest =>
        (Failure,
         {| db := db s; outages := rest; log := log s ++ [cmd Failure] |})
    | _ =>
        let (r, d) := exec (db s) in
        (r, {| db := d; outages := tail (outages s); log := log s ++ [cmd r] |})
    end.

Definition Get (key : string) : M (reply string) :=
  roundtrip (GET key)
    (fun d => (match d !! key with
               | Some (VString v _) => Reply v
               | None => Nil
               | Some _ => Failure
               end, d)).

Definition Set_ (key value : string) (expiration : Duration) : M (reply unit) :=
  roundtrip (SET key value expiration)
    (fun d => (Reply tt, <[key := VString value expiration]> d)).

(** SREM of one member: 1 if it was removed, 0 if it was not there; a
    set that becomes empty is deleted. *)
Definition srem (key member : string) (d : gmap string Value)
    : reply Z * gmap string Value :=
  match d !! key with
  | Some (VSet members) =>
      if decide (member ∈ members)
      then (Reply 1%Z,
            if decide (members ∖ {[member]} = ∅)
            then delete key d
            else <[key := VSet (members ∖ {[member]})]> d)
      else (Reply 0%Z, d)
  | None => (Reply 0%Z, d)
  | Some _ => (Failure, d)
  end.

Definition SRem (key member : string) : M (reply Z) :=
  roundtrip (SREM key member) (srem key member).

(** The members of a set key (none if the key is missing). *)
Definition smembers (d : gmap string Value) (key : string) : gset string :=
  match d !! key with
  | Some (VSet members) => members
  | _ => ∅
  end.

End redis.

Notation "x <- m ;; k" := (redis.bind m (fun x => k))
  (at level 100, m at next level, right associativity, only parsing).

(** ** Third-party operations *)

Class Platform : Type := {
  (** [uuid.UUID] with [uuid.Parse] and [UUID.String]. *)
  UUID : Type;
  uuid_Parse : string -> option UUID;
  uuid_String : UUID -> string;
  (** GEORADIUS as the server evaluates it on a geo index. *)
  georadius : gmap string (Q * Q) -> Q -> Q -> redis.GeoRadiusQuery ->
              redis.reply (list redis.GeoLocation);
  (** [strconv.ParseFloat (s, 64)]: [None] when it returns an error;
      NaN and the infinities are numbers to it. *)
  strconv_ParseFloat : string -> option float
}.

(** ** Results of Go functions returning [(T, error)], which may panic *)

Inductive error : Type :=
| ErrDriverNotAvailable
| ErrSearchFailed.   (* "failed to search nearby drivers: %w" *)

Inductive outcome (A : Type) : Type :=
| Return (a : A)
| Fail (e : error)
| Panic.
Arguments Return {A} a.
Arguments Fail {A} e.
Arguments Panic {A}.

(** ** package driver *)

Module driver.

Definition Status : Type := string.
Definition StatusOnline : Status := "online".
Definition StatusOffline : Status := "offline".
Definition StatusBusy : Status := "busy".

Definition VehicleType : Type := string.
Definition VehicleEconomy : VehicleType := "economy".
Definition VehiclePremium : VehicleType := "premium".
Definition VehicleLuxury : VehicleType := "luxury".

Record Driver `{Platform} : Type := mkDriver {
  ID : UUID;
  Name : string;
  Email : string;
  Phone : string;
  Status_ : Status;
  VehicleType_ : VehicleType;
  CurrentLatitude : option Q;
  CurrentLongitude : option Q;
  Rating : Q;
  TotalRides : Z
}.

(** [VehicleType.IsValid]. *)
Definition IsValid (v : VehicleType) : bool :=
  String.eqb v VehicleEconomy || String.eqb v VehiclePremium
  || String.eqb v VehicleLuxury.

End driver.

(** ** package matching *)

Module matching.
Import redis.

Record Config : Type := mkConfig {
  MaxRadiusKM : Q;          (* initial search radius *)
  MaxExpandedRadius : Q;    (* maximum expanded radius *)
  MaxTimeout : Duration;
  MaxCandidates : Z
}.

(** [maxRadius] of [FindNearestDriver]: 50 km unless configured. *)
Definition maxRadius (config : Config) : Q :=
  if Qeq_bool (MaxExpandedRadius config) 0 then 50%Q
  else MaxExpandedRadius config.

Definition expandedRadii (config : Config) : list Q :=
  [ (MaxRadiusKM config * 2)%Q;
    (MaxRadiusKM config * 4)%Q;
    (MaxRadiusKM config * 10)%Q ].

(** [searchRadii] of [FindNearestDriver]. *)
Definition searchRadii (config : Config) : list Q :=
  [MaxRadiusKM config]
  ++ List.filter (fun r => Qle_bool r (maxRadius config)) (expandedRadii config).

(** The [redis.GeoRadiusQuery] literal of [searchDriversInRadius]. *)
Definition geoRadiusQuery (config : Config) (radius : Q) : GeoRadiusQuery :=
  {| Radius := radius; Unit := "km"; WithCoord := true; WithDist := true;
     Count := MaxCandidates config; Sort := "ASC" |}.

Definition currentRideKey (driverID : string) : string :=
  "driver:" +:+ driverID +:+ ":current_ride".

Section WithPlatform.
Context `{Platform}.

(** The driver object built for a claimed candidate; [driverID[:8]]
    panics on an id shorter than 8 bytes. *)
Definition foundDriver (uuid_New : UUID) (vehicleType : driver.VehicleType)
    (result : GeoLocation) : outcome driver.Driver :=
  let driverID := Name result in
  let driverUUID :=
    match uuid_Parse driverID with
    | Some u => u
    | None => uuid_New
    end in
  if (String.length driverID <? 8)%nat then Panic
  else Return {|
    driver.ID := driverUUID;
    driver.Name := "Driver " +:+ substring 0 8 driverID;
    driver.Email := "";
    driver.Phone := "";
    driver.Status_ := driver.StatusOnline;
    driver.VehicleType_ := vehicleType;
    driver.CurrentLatitude := Some (Latitude result);
    driver.CurrentLongitude := Some (Longitude result);
    driver.Rating := 4.8%Q;
    driver.TotalRides := 0%Z
  |}.

(** The [for _, result := range results] loop of
    [searchDriversInRadius]. *)
Fixpoint claimCandidates (uuid_New : UUID) (vehicleType : driver.VehicleType)
    (results : list GeoLocation) : M (outcome driver.Driver) :=
  match results with
  | [] => ret (Fail ErrDriverNotAvailable)
  | result :: rest =>
      let driverID := Name result in
      currentRide <- Get (currentRideKey driverID) ;;
      match currentRide with
      | Reply (String _ _) => claimCandidates uuid_New vehicleType rest
      | _ =>
          removed <- SRem "drivers:available" driverID ;;
          match removed with
          | Reply n =>
              if (n =? 0)%Z then claimCandidates uuid_New vehicleType rest
              else
                _ <- Set_ (currentRideKey driverID) "claiming" (30 * Second)%Z ;;
                ret (foundDriver uuid_New vehicleType result)
          | _ => claimCandidates uuid_New vehicleType rest
          end
      end
  end.

Definition searchDriversInRadius (config : Config) (uuid_New : UUID)
    (key : string) (pickupLat pickupLng radius : Q)
    (vehicleType : driver.VehicleType) : M (outcome driver.Driver) :=
  results <- roundtrip
    (GEORADIUS key pickupLng pickupLat (geoRadiusQuery config radius))
    (fun d => (match d !! key with
               | Some (VGeo points) =>
                   georadius points pickupLng pickupLat
                     (geoRadiusQuery config radius)
               | None => Reply []
               | Some _ => Failure
               end, d)) ;;
  match results with
  | Reply [] => ret (Fail ErrDriverNotAvailable)
  | Reply results => claimCandidates uuid_New vehicleType results
  | _ => ret (Fail ErrSearchFailed)
  end.

(** The [for _, radius := range searchRadii] loop of
    [FindNearestDriver]. *)
Fixpoint tryRadii (config : Config) (uuid_New : UUID)
    (pickupLat pickupLng : Q) (vehicleType : driver.VehicleType)
    (radii : list Q) : M (outcome driver.Driver) :=
  match radii with
  | [] => ret (Fail ErrDriverNotAvailable)
  | radius :: rest =>
      found <- searchDriversInRadius config uuid_New "drivers:locations"
                 pickupLat pickupLng radius vehicleType ;;
      match found with
      | Return d => ret (Return d)
      | Panic => ret Panic
      | Fail _ => tryRadii config uuid_New pickupLat pickupLng vehicleType rest
      end
  end.

Definition FindNearestDriver (config : Config) (uuid_New : UUID)
    (pickupLat pickupLng : Q) (vehicleType : driver.VehicleType)
    : M (outcome driver.Driver) :=
  tryRadii config uuid_New pickupLat pickupLng vehicleType (searchRadii config).

End WithPlatform.
End matching.

(** ** package pricing: the surge curve in exact arithmetic *)

Module pricing.

Record Config : Type := mkConfig {
  BaseFare : gmap string Q;
  PerKMRate : gmap string Q;
  PerMinuteRate : gmap string Q;
  MaxSurgeMultiplier : Q;
  MinSurgeMultiplier : Q
}.

(** [CalculateSurgeBasedOnDemand], the quotient and the products taken
    exact. *)
Definition CalculateSurgeBasedOnDemand (config : Config)
    (activeRides availableDrivers : Z) : Q :=
  if (availableDrivers =? 0)%Z then MaxSurgeMultiplier config
  else
    let ratio := (inject_Z activeRides / inject_Z availableDrivers)%Q in
    if Qltb ratio 0.5 then 1.0%Q
    else if Qltb ratio 1.0 then (1.0 + (ratio * 0.5))%Q
    else if Qltb ratio 2.0 then (1.5 + ((ratio - 1.0) * 1.0))%Q
    else
      let multiplier := (2.5 + ((ratio - 2.0) * 0.25))%Q in
      if Qgtb multiplier (MaxSurgeMultiplier config)
      then MaxSurgeMultiplier config
      else multiplier.

(** [getTestConfig] of the package's tests. *)
Definition getTestConfig : Config :=
  {| BaseFare := {[ driver.VehicleEconomy := 50.0%Q;
                    driver.VehiclePremium := 100.0%Q;
                    driver.VehicleLuxury := 200.0%Q ]};
     PerKMRate := {[ driver.VehicleEconomy := 10.0%Q;
                     driver.VehiclePremium := 15.0%Q;
                     driver.VehicleLuxury := 25.0%Q ]};
     PerMinuteRate := {[ driver.VehicleEconomy := 2.0%Q;
                         driver.VehiclePremium := 3.0%Q;
                         driver.VehicleLuxury := 5.0%Q ]};
     MaxSurgeMultiplier := 3.0%Q;
     MinSurgeMultiplier := 1.0%Q |}.

End pricing.

(** ** package config *)

Module config.

Record MatchingConfig : Type := mkMatchingConfig {
  MaxRadiusKM : float;
  MaxTimeout : redis.Duration;
  MaxCandidates : Z
}.

(** The fields of [Config] that [Validate] reads, and the matching
    section. *)
Record Config : Type := mkConfig {
  Server_Port : string;
  Server_Env : string;
  Database_Host : string;
  Database_Name : string;
  Redis_Host : string;
  JWT_Secret : string;
  Matching : MatchingConfig
}.

(** [Validate]: [None] is the nil error. *)
Definition Validate (c : Config) : option string :=
  if String.eqb (Server_Port c) "" then Some "SERVER_PORT is required"
  else if String.eqb (Database_Host c) "" then Some "DB_HOST is required"
  else if String.eqb (Database_Name c) "" then Some "DB_NAME is required"
  else if String.eqb (Redis_Host c) "" then Some "REDIS_HOST is required"
  else if String.eqb (JWT_Secret c) "your_jwt_secret_key_here"
          && String.eqb (Server_Env c) "production"
       then Some "JWT_SECRET must be set in production"
  else None.

End config.

(** ** package dto and the CreateRide handler *)

Module dto.

Record CreateRideRequest : Type := mkCreateRideRequest {
  RiderID : string;
  PickupLatitude : Q;
  PickupLongitude : Q;
  DropoffLatitude : Q;
  DropoffLongitude : Q;
  VehicleType : string
}.

(** The binding tags of [CreateRideRequest]: every field is [required]
    (not the zero value) and the vehicle type is
    [oneof=economy premium luxury]. *)
Definition binds (req : CreateRideRequest) : bool :=
  negb (String.eqb (RiderID req) "")
  && negb (Qeq_bool (PickupLatitude req) 0)
  && negb (Qeq_bool (PickupLongitude req) 0)
  && negb (Qeq_bool (DropoffLatitude req) 0)
  && negb (Qeq_bool (DropoffLongitude req) 0)
  && negb (String.eqb (VehicleType req) "")
  && (String.eqb (VehicleType req) "economy"
      || String.eqb (VehicleType req) "premium"
      || String.eqb (VehicleType req) "luxury").

End dto.

Module handlers.
Import redis.

Inductive Response : Type :=
| BadRequest (error : string)
| OK_requested (id rider_id : string)
| InternalServerError (error : string)
| OK_assigned (id rider_id driver_id driver_name : string).

(** The configuration [CreateRide] builds its matching service with. *)
Definition matchingConfig : matching.Config :=
  {| matching.MaxRadiusKM := 5.0%Q;
     matching.MaxExpandedRadius := 50.0%Q;
     matching.MaxTimeout := 30%Z;
     matching.MaxCandidates := 50%Z |}.

Section WithPlatform.
Context `{Platform}.

(** [CreateRide].  [body] is the decoded JSON payload ([None] if it
    does not decode), [rideID] the generated ride id and [insertOK]
    whether the INSERT into [rides] succeeds. *)
Definition CreateRide (rideID : string) (uuid_New : UUID) (insertOK : bool)
    (body : option dto.CreateRideRequest) : M (outcome Response) :=
  match body with
  | None => ret (Return (BadRequest "Invalid request payload"))
  | Some req =>
      if negb (dto.binds req)
      then ret (Return (BadRequest "Invalid request payload"))
      else
        let vehicleType :=
          if String.eqb (dto.VehicleType req) "economy" then driver.VehicleEconomy
          else if String.eqb (dto.VehicleType req) "premium" then driver.VehiclePremium
          else if String.eqb (dto.VehicleType req) "luxury" then driver.VehicleLuxury
          else driver.VehicleEconomy in
        found <- matching.FindNearestDriver matchingConfig uuid_New
                   (dto.PickupLatitude req) (dto.PickupLongitude req)
                   vehicleType ;;
        match found with
        | Fail _ => ret (Return (OK_requested rideID (dto.RiderID req)))
        | Panic => ret Panic
        | Return foundDriver =>
            if negb insertOK
            then ret (Return (InternalServerError "Failed to create ride"))
            else
              let driverIDStr := uuid_String (driver.ID foundDriver) in
              _ <- Set_ ("driver:" +:+ driverIDStr +:+ ":current_ride")
                     rideID 0%Z ;;
              ret (Return (OK_assigned rideID (dto.RiderID req) driverIDStr
                             (driver.Name foundDriver)))
        end
  end.

End WithPlatform.
End handlers.

(** ** The code that computes with floats, over IEEE binary64 *)

Module binary64.
Import redis.

(** [float64(n)] for an [int] (64 bits, two's complement): the nearest
    double, ties to even. *)
Definition of_int (z : Z) : float :=
  if (z <? 0)%Z
  then if (z =? -9223372036854775808)%Z then (-9223372036854775808)%float
       else (- PrimFloat.of_uint63 (Uint63.of_Z (- z)))%float
  else PrimFloat.of_uint63 (Uint63.of_Z z).

(** The rational a finite double denotes (0 for a NaN or an infinity,
    which denote none). *)
Definition value (f : float) : Q :=
  match Prim2SF f with
  | S754_finite s m e =>
      let magnitude :=
        match e with
        | Zneg p => Z.pos m # (2 ^ p)
        | _ => inject_Z (Z.pos m * 2 ^ e)
        end in
      Qred (if s then - magnitude else magnitude)
  | _ => 0%Q
  end.

(** *** package matching: the radii *)

Record MatchingConfig : Type := mkMatchingConfig {
  MaxRadiusKM : float;
  MaxExpandedRadius : float;
  MaxTimeout : Duration;
  MaxCandidates : Z
}.

Definition maxRadius (config : MatchingConfig) : float :=
  if (MaxExpandedRadius config =? 0)%float then 50.0%float
  else MaxExpandedRadius config.

Definition expandedRadii (config : MatchingConfig) : list float :=
  [ (MaxRadiusKM config * 2)%float;
    (MaxRadiusKM config * 4)%float;
    (MaxRadiusKM config * 10)%float ].

Definition searchRadii (config : MatchingConfig) : list float :=
  [MaxRadiusKM config]
  ++ List.filter (fun r => (r <=? maxRadius config)%float) (expandedRadii config).

(** The configuration as the query literal reads it. *)
Definition sent (config : MatchingConfig) : matching.Config :=
  {| matching.MaxRadiusKM := value (MaxRadiusKM config);
     matching.MaxExpandedRadius := value (MaxExpandedRadius config);
     matching.MaxTimeout := MaxTimeout config;
     matching.MaxCandidates := MaxCandidates config |}.

(** The configuration [CreateRide] builds its matching service with. *)
Definition createRideConfig : MatchingConfig :=
  {| MaxRadiusKM := 5.0%float; MaxExpandedRadius := 50.0%float;
     MaxTimeout := 30%Z; MaxCandidates := 50%Z |}.

(** *** package pricing *)

Record Config : Type := mkConfig {
  BaseFare : gmap string float;
  PerKMRate : gmap string float;
  PerMinuteRate : gmap string float;
  MaxSurgeMultiplier : float;
  MinSurgeMultiplier : float
}.

Record FareBreakdown : Type := mkFareBreakdown {
  fb_BaseFare : float;
  fb_DistanceFare : float;
  fb_TimeFare : float;
  fb_SurgeMultiplier : float;
  fb_Subtotal : float;
  fb_Total : float
}.

Definition index (m : gmap string float) (k : string) : float :=
  default 0%float (m !! k).

Definition EstimateFare (config : Config) (vehicleType : driver.VehicleType)
    (distanceKM : float) (estimatedMinutes : Z) : float :=
  let baseFare := index (BaseFare config) vehicleType in
  let perKM := index (PerKMRate config) vehicleType in
  let perMinute := index (PerMinuteRate config) vehicleType in
  (baseFare + (distanceKM * perKM) + (of_int estimatedMinutes * perMinute))%float.

Definition CalculateSurgeBasedOnDemand (config : Config)
    (activeRides availableDrivers : Z) : float :=
  if (availableDrivers =? 0)%Z then MaxSurgeMultiplier config
  else
    let ratio := (of_int activeRides / of_int availableDrivers)%float in
    if (ratio <? 0.5)%float then 1.0%float
    else if (ratio <? 1.0)%float then (1.0 + (ratio * 0.5))%float
    else if (ratio <? 2.0)%float then (1.5 + ((ratio - 1.0) * 1.0))%float
    else
      let multiplier := (2.5 + ((ratio - 2.0) * 0.25))%float in
      if (MaxSurgeMultiplier config <? multiplier)%float
      then MaxSurgeMultiplier config
      else multiplier.

Section WithPlatform.
Context `{Platform}.

(** [GetSurgeMultiplier].  [Get(key).Float64()] fails when the read
    fails, when the key is missing or holds no string, and when
    [strconv.ParseFloat] fails; "NaN" and "Inf" are numbers to it. *)
Definition GetSurgeMultiplier
    (config : Config) (region : string) : M float :=
  cached <- Get ("surge:" +:+ region) ;;
  match cached with
  | Reply text =>
      match strconv_ParseFloat text with
      | Some val =>
          if (MaxSurgeMultiplier config <? val)%float
          then ret (MaxSurgeMultiplier config)
          else if (val <? MinSurgeMultiplier config)%float
               then ret (MinSurgeMultiplier config)
               else ret val
      | None => ret 1.0%float
      end
  | _ => ret 1.0%float
  end.

(** [SetSurgeMultiplier]: the two assignments that clamp [multiplier],
    then the SET without expiry; [formatFloat] is the text go-redis sends
    for a [float64].  [None] is the nil error. *)
Definition SetSurgeMultiplier (formatFloat : float -> string)
    (config : Config) (region : string) (multiplier : float)
    : M (option string) :=
  let multiplier :=
    if (MaxSurgeMultiplier config <? multiplier)%float
    then MaxSurgeMultiplier config else multiplier in
  let multiplier :=
    if (multiplier <? MinSurgeMultiplier config)%float
    then MinSurgeMultiplier config else multiplier in
  r <- Set_ ("surge:" +:+ region) (formatFloat multiplier) 0%Z ;;
  match r with
  | Reply _ => ret None
  | _ => ret (Some "redis: set failed")
  end.

(** [CalculateFare] (its error result is always nil). *)
Definition CalculateFare
    (config : Config) (vehicleType : driver.VehicleType)
    (distanceKM : float) (durationMinutes : Z) (region : string)
    : M FareBreakdown :=
  let baseFare := index (BaseFare config) vehicleType in
  let perKM := index (PerKMRate config) vehicleType in
  let perMinute := index (PerMinuteRate config) vehicleType in
  let distanceFare := (distanceKM * perKM)%float in
  let timeFare := (of_int durationMinutes * perMinute)%float in
  let subtotal := (baseFare + distanceFare + timeFare)%float in
  surgeMultiplier <- GetSurgeMultiplier config region ;;
  let total := (subtotal * surgeMultiplier)%float in
  ret {| fb_BaseFare := baseFare;
         fb_DistanceFare := distanceFare;
         fb_TimeFare := timeFare;
         fb_SurgeMultiplier := surgeMultiplier;
         fb_Subtotal := subtotal;
         fb_Total := total |}.

Definition getTestConfig : Config :=
  {| BaseFare := {[ driver.VehicleEconomy := 50.0%float;
                    driver.VehiclePremium := 100.0%float;
                    driver.VehicleLuxury := 200.0%float ]};
     PerKMRate := {[ driver.VehicleEconomy := 10.0%float;
                     driver.VehiclePremium := 15.0%float;
                     driver.VehicleLuxury := 25.0%float ]};
     PerMinuteRate := {[ driver.VehicleEconomy := 2.0%float;
                         driver.VehiclePremium := 3.0%float;
                         driver.VehicleLuxury := 5.0%float ]};
     MaxSurgeMultiplier := 3.0%float;
     MinSurgeMultiplier := 1.0%float |}.

(** [FindNearestDriver] over the radii it computes.  Each radius reaches
    the server as the number it denotes. *)
Definition FindNearestDriver (config : MatchingConfig) (uuid_New : UUID)
    (pickupLat pickupLng : Q) (vehicleType : driver.VehicleType)
    : M (outcome driver.Driver) :=
  matching.tryRadii (sent config) uuid_New pickupLat pickupLng vehicleType
    (List.map value (searchRadii config)).

End WithPlatform.

(** *** The order of binary64

    [SFcompare], the comparison of the specification, orders the doubles
    that are not NaN by sign, then exponent, then mantissa: [rank] puts
    the three in a triple and [lex] compares triples. *)
Definition is_number (x : float) : Prop := Prim2SF x <> S754_nan.

Definition rank (x : spec_float) : Z * (Z * Z) :=
  match x with
  | S754_nan => (0, (0, 0))
  | S754_infinity true => (-2, (0, 0))
  | S754_infinity false => (2, (0, 0))
  | S754_zero _ => (0, (0, 0))
  | S754_finite true m e => (-1, (- e, - Zpos m))
  | S754_finite false m e => (1, (e, Zpos m))
  end%Z.

Definition lex (a b : Z * (Z * Z)) : comparison :=
  match (a.1 ?= b.1)%Z with
  | Eq => match (a.2.1 ?= b.2.1)%Z with
          | Eq => (a.2.2 ?= b.2.2)%Z
          | c => c
          end
  | c => c
  end.

End binary64.

(** ** A test double for the third-party operations

    Used only to run the embedding on concrete stores.  UUIDs are kept in
    their canonical text (36 bytes, lower-case hexadecimal digits, hyphens at
    offsets 8, 13, 18 and 23); the geo query measures distance on a flat
    grid, 111 km per degree, and refuses coordinates the server refuses. *)

Module testdouble.
Import redis.

Definition is_hex (c : ascii) : bool :=
  let n := nat_of_ascii c in
  ((48 <=? n) && (n <=? 57) || (97 <=? n) && (n <=? 102))%nat.

Fixpoint canonical_from (i : nat) (s : string) : bool :=
  match s with
  | EmptyString => (i =? 36)%nat
  | String c rest =>
      (if ((i =? 8) || (i =? 13) || (i =? 18) || (i =? 23))%nat
       then Ascii.eqb c "-" else is_hex c)
      && canonical_from (S i) rest
  end.

Definition parse_uuid (s : string) : option string :=
  if canonical_from 0 s then Some s else None.

Definition Qabs' (x : Q) : Q := if Qle_bool 0 x then x else (- x)%Q.

Definition grid_km (lng1 lat1 lng2 lat2 : Q) : Q :=
  (111 * (Qabs' (lng1 - lng2) + Qabs' (lat1 - lat2)))%Q.

Fixpoint insert_by_dist (g : GeoLocation) (l : list GeoLocation)
    : list GeoLocation :=
  match l with
  | [] => [g]
  | h :: t => if Qle_bool (Dist g) (Dist h) then g :: l
              else h :: insert_by_dist g t
  end.

Definition valid_coordinates (lng lat : Q) : bool :=
  Qle_bool (-180) lng && Qle_bool lng 180
  && Qle_bool (-85.05112878) lat && Qle_bool lat 85.05112878.

Definition grid_georadius (points : gmap string (Q * Q)) (lng lat : Q)
    (query : GeoRadiusQuery) : reply (list GeoLocation) :=
  if negb (valid_coordinates lng lat) then Failure
  else
    let located :=
      List.map (fun p : string * (Q * Q) =>
                  {| Name := p.1; Longitude := p.2.1; Latitude := p.2.2;
                     Dist := Qred (grid_km lng lat p.2.1 p.2.2);
                     GeoHash := 0%Z |})
               (map_to_list points) in
    let within :=
      List.filter (fun g => Qle_bool (Dist g) (Radius query)) located in
    let sorted := List.fold_right insert_by_dist [] within in
    Reply (if (0 <? Count query)%Z
           then List.firstn (Z.to_nat (Count query)) sorted
           else sorted).

(** Decimal numerals: digits, optionally followed by a point and digits. *)
Fixpoint digits (acc : Z) (s : string) : option (Z * string) :=
  match s with
  | EmptyString => Some (acc, EmptyString)
  | String c rest =>
      let n := nat_of_ascii c in
      if ((48 <=? n) && (n <=? 57))%nat
      then digits (10 * acc + Z.of_nat (n - 48))%Z rest
      else Some (acc, s)
  end.

Definition parse_decimal (s : string) : option Q :=
  match s with
  | EmptyString => None
  | _ =>
      match digits 0 s with
      | Some (whole, EmptyString) => Some (inject_Z whole)
      | Some (whole, String "."%char frac) =>
          match digits 0 frac with
          | Some (f, EmptyString) =>
              Some (Qred (inject_Z whole
                          + inject_Z f / inject_Z (10 ^ Z.of_nat (String.length frac))))
          | _ => None
          end
      | _ => None
      end
  end.

(** A stand-in for [strconv.ParseFloat] on the texts of the examples:
    "NaN", or a short decimal numeral as the double nearest to it. *)
Definition parse64 (s : string) : option float :=
  if String.eqb s "NaN" then Some nan
  else match parse_decimal s with
       | Some q => Some (binary64.of_int (Qnum q) / binary64.of_int (Z.pos (Qden q)))%float
       | None => None
       end.

#[export] Instance platform : Platform := {|
  UUID := string;
  uuid_Parse := parse_uuid;
  uuid_String := fun u => u;
  georadius := grid_georadius;
  strconv_ParseFloat := parse64
|}.

(** Two drivers near Bengaluru, both announced as available. *)
Definition d1 : string := "11111111-1111-1111-1111-111111111111".
Definition d2 : string := "22222222-2222-2222-2222-222222222222".

Definition fleet : gmap string Value :=
  {[ "drivers:locations" := VGeo {[ d1 := (77.60, 12.98)%Q; d2 := (77.70, 13.10)%Q ]};
     "drivers:available" := VSet {[ d1; d2 ]} ]}.

Definition store (d : gmap string Value) (outages : list bool) : Redis :=
  {| db := d; outages := outages; log := [] |}.

Definition located (id : string) (lng lat dist : Q) : GeoLocation :=
  {| Name := id; Longitude := lng; Latitude := lat; Dist := dist; GeoHash := 0%Z |}.

(** The two drivers as a geo query would list them, nearest first. *)
Definition candidates : list GeoLocation :=
  [ located d1 77.60 12.98 1.5; located d2 77.70 13.10 25.9 ].

(** The same fleet with the first driver already on a ride. *)
Definition busy_fleet : gmap string Value :=
  <[ matching.currentRideKey d1 := VString "ride-7" 0%Z ]> fleet.

(** The value [uuid.New()] returns in the runs below. *)
Definition fresh_uuid : @UUID platform :=
  ("ffffffff-ffff-4fff-8fff-ffffffffffff" : string).

(** A driver announced under an id that is not a UUID, and one under an
    id shorter than 8 bytes. *)
Definition walkin : string := "driver-0001".
Definition shorty : string := "bob".

Definition walkin_fleet : gmap string Value :=
  {[ "drivers:locations" := VGeo {[ walkin := (77.60, 12.98)%Q ]};
     "drivers:available" := VSet {[ walkin; shorty ]} ]}.

(** A configuration whose initial radius is above the maximum. *)
Definition inverted : matching.Config :=
  {| matching.MaxRadiusKM := 60%Q; matching.MaxExpandedRadius := 50%Q;
     matching.MaxTimeout := 30%Z; matching.MaxCandidates := 50%Z |}.

(** The two drivers located but not announced as available. *)
Definition offline_fleet : gmap string Value :=
  {[ "drivers:locations" := VGeo {[ d1 := (77.60, 12.98)%Q; d2 := (77.70, 13.10)%Q ]} ]}.

(** A ride request picked up at latitude 91, and one for a vehicle class
that does not exist. *)
Definition polar_request : dto.CreateRideRequest :=
  {| dto.RiderID := "rider-1";
     dto.PickupLatitude := 91%Q; dto.PickupLongitude := 77.5946%Q;
     dto.DropoffLatitude := 12.93%Q; dto.DropoffLongitude := 77.62%Q;
     dto.VehicleType := "economy" |}.

Definition rickshaw_request : dto.CreateRideRequest :=
  {| dto.RiderID := "rider-1";
     dto.PickupLatitude := 12.9716%Q; dto.PickupLongitude := 77.5946%Q;
     dto.DropoffLatitude := 12.93%Q; dto.DropoffLongitude := 77.62%Q;
     dto.VehicleType := "rickshaw" |}.



(** A store caching a surge of 7.5 for one region and nothing for the
others. *)
Definition surging : gmap string Value :=
  {[ "surge:bengaluru" := VString "7.5" 0%Z ]}.

End testdouble.

(** ** Predicates used by the statements *)

Module props.
Import redis.

(** A command that changed nothing on the server: a read, a removal that
    found nothing or failed, a write that did not reach the server. *)
Definition readonly (c : Command) : bool :=
  match c with
  | GET _ _ | GEORADIUS _ _ _ _ _ => true
  | SREM _ _ (Reply n) => (n =? 0)%Z
  | SREM _ _ _ => true
  | SET _ _ _ (Reply _) => false
  | SET _ _ _ _ => true
  end.

(** The radii of the geo queries in a log, in the order they were sent. *)
Fixpoint queried (cmds : list Command) : list Q :=
  match cmds with
  | [] => []
  | GEORADIUS _ _ _ query _ :: rest => Radius query :: queried rest
  | _ :: rest => queried rest
  end.

(** The keyspace after a won claim on [driverID]: the id is out of the
    available set, and the marker is there if its write got through. *)
Definition claimed_db (d : gmap string Value) (driverID : string)
    (marker : reply unit) : gmap string Value :=
  let removed := (srem "drivers:available" driverID d).2 in
  match marker with
  | Reply _ =>
      <[matching.currentRideKey driverID := VString "claiming" (30 * Second)%Z]> removed
  | _ => removed
  end.

(** The two commands that end a won claim pass. *)
Definition winning (driverID : string) (marker : reply unit) : list Command :=
  [ SREM "drivers:available" driverID (Reply 1%Z);
    SET (matching.currentRideKey driverID) "claiming" (30 * Second)%Z marker ].

Section WithPlatform.
Context `{Platform}.

(** A worker id in the form the repository stores it: [uuid.Parse]
    accepts it, [String()] of the parse gives it back, and it is at
    least the 8 bytes [driverID[:8]] needs. *)
Definition canonical_id (id : string) : bool :=
  match uuid_Parse id with
  | Some u => String.eqb (uuid_String u) id && (8 <=? String.length id)%nat
  | None => false
  end.

(** What one claim pass over [results] can do, from store [s] to store
    [s'] with result [r]: either nothing is claimed and the keyspace is
    as before, or the first candidate whose removal reports it present
    is claimed, its marker written, and its driver object is the
    result whatever follows it in the list. *)
Inductive pass_outcome (uuid_New : UUID) (vehicleType : driver.VehicleType)
    (results : list GeoLocation) (s s' : Redis)
    (r : outcome driver.Driver) : Prop :=
| pass_lost (delta : list Command) :
    r = Fail ErrDriverNotAvailable ->
    db s' = db s ->
    log s' = log s ++ delta ->
    forallb readonly delta = true ->
    queried delta = [] ->
    pass_outcome uuid_New vehicleType results s s' r
| pass_won (pre post : list GeoLocation) (c : GeoLocation)
    (delta : list Command) (marker : reply unit) :
    results = pre ++ c :: post ->
    r = matching.foundDriver uuid_New vehicleType c ->
    log s' = log s ++ delta ++ winning (Name c) marker ->
    forallb readonly delta = true ->
    queried delta = [] ->
    Name c ∈ smembers (db s) "drivers:available" ->
    db s' = claimed_db (db s) (Name c) marker ->
    (forall post',
       matching.claimCandidates uuid_New vehicleType (pre ++ c :: post') s
       = (r, s')) ->
    pass_outcome uuid_New vehicleType results s s' r.

(** What [FindNearestDriver] can do over the radii [radii]: either
    every radius is queried once, in order, nothing is claimed and the
    keyspace is as before; or the radii are queried in order up to the
    first one whose claim pass wins a candidate [c] of the list the geo
    query returned at that radius, and the log ends with that claim. *)
Inductive dispatch_outcome (config : matching.Config) (uuid_New : UUID)
    (pickupLat pickupLng : Q) (vehicleType : driver.VehicleType)
    (radii : list Q) (s s' : Redis) (r : outcome driver.Driver) : Prop :=
| dispatch_exhausted (delta : list Command) :
    r = Fail ErrDriverNotAvailable ->
    db s' = db s ->
    log s' = log s ++ delta ->
    forallb readonly delta = true ->
    queried delta = radii ->
    dispatch_outcome config uuid_New pickupLat pickupLng vehicleType radii s s' r
| dispatch_matched (tried later : list Q) (radius : Q)
    (results : list GeoLocation) (c : GeoLocation)
    (delta : list Command) (marker : reply unit) :
    radii = tried ++ radius :: later ->
    r = matching.foundDriver uuid_New vehicleType c ->
    log s' = log s ++ delta ++ winning (Name c) marker ->
    forallb readonly delta = true ->
    queried delta = tried ++ [radius] ->
    GEORADIUS "drivers:locations" pickupLng pickupLat
      (matching.geoRadiusQuery config radius) (Reply results) ∈ delta ->
    c ∈ results ->
    Name c ∈ smembers (db s) "drivers:available" ->
    db s' = claimed_db (db s) (Name c) marker ->
    dispatch_outcome config uuid_New pickupLat pickupLng vehicleType radii s s' r.

End WithPlatform.
End props.

(** ** More of the packages: what the functions above are used with *)

(** *** package driver: the methods of [Driver] that read it *)

Module driver_ext.

Inductive Err : Type :=
| ErrInvalidDriverName
| ErrInvalidDriverEmail
| ErrInvalidDriverPhone
| ErrInvalidDriverStatus
| ErrInvalidVehicleType.

(** [Status.IsValid]. *)
Definition Status_IsValid (s : driver.Status) : bool :=
  String.eqb s driver.StatusOnline || String.eqb s driver.StatusOffline
  || String.eqb s driver.StatusBusy.

Record Location : Type := mkLocation {
  Latitude : Q;
  Longitude : Q
}.

Section WithPlatform.
Context `{Platform}.

(** [Driver.IsValid]: [None] is the nil error. *)
Definition IsValid (d : driver.Driver) : option Err :=
  if String.eqb (driver.Name d) "" then Some ErrInvalidDriverName
  else if String.eqb (driver.Email d) "" then Some ErrInvalidDriverEmail
  else if String.eqb (driver.Phone d) "" then Some ErrInvalidDriverPhone
  else if negb (Status_IsValid (driver.Status_ d)) then Some ErrInvalidDriverStatus
  else if negb (driver.IsValid (driver.VehicleType_ d)) then Some ErrInvalidVehicleType
  else None.

(** [Driver.CanAcceptRides]. *)
Definition CanAcceptRides (d : driver.Driver) : bool :=
  String.eqb (driver.Status_ d) driver.StatusOnline.

(** [Driver.GetLocation]: [None] is the nil pointer. *)
Definition GetLocation (d : driver.Driver) : option Location :=
  match driver.CurrentLatitude d, driver.CurrentLongitude d with
  | Some lat, Some lng => Some {| Latitude := lat; Longitude := lng |}
  | _, _ => None
  end.

End WithPlatform.
End driver_ext.

(** *** package handlers: AcceptRide *)

Module handlers_ext.
Import redis.

Record AcceptRideRequest : Type := mkAcceptRideRequest {
  RideID : string
}.

Inductive AcceptResponse : Type :=
| AcceptBadRequest (error : string)
| Accepted (ride_id : string).

Definition Hour : Duration := (3600 * Second)%Z.

(** [AcceptRide]: [driverID] is the path parameter, [body] the decoded
    payload ([None] if it does not decode); [ride_id] is [required]. *)
Definition AcceptRide (driverID : string) (body : option AcceptRideRequest)
    : M AcceptResponse :=
  match body with
  | None => ret (AcceptBadRequest "Invalid request payload")
  | Some req =>
      if String.eqb (RideID req) ""
      then ret (AcceptBadRequest "Invalid request payload")
      else
        _ <- Set_ ("driver:" +:+ driverID +:+ ":current_ride") (RideID req)
               (24 * Hour)%Z ;;
        ret (Accepted (RideID req))
  end.

End handlers_ext.

(** *** package config: Load *)

Module config_ext.

(** Arithmetic on [int64] wraps around. *)
Definition wrap64 (z : Z) : Z :=
  ((z + 9223372036854775808) mod 18446744073709551616 - 9223372036854775808)%Z.

(** [os.Getenv]: the empty string for an unset variable. *)
Definition Getenv (env : gmap string string) (key : string) : string :=
  default "" (env !! key).

Definition getEnv (env : gmap string string) (key defaultValue : string)
    : string :=
  if String.eqb (Getenv env key) "" then defaultValue else Getenv env key.

Section WithPlatform.
Context `{Platform}.

Definition getEnvAsFloat64 (env : gmap string string) (key : string)
    (defaultValue : float) : float :=
  match strconv_ParseFloat (getEnv env key "") with
  | Some value => value
  | None => defaultValue
  end.

Definition getEnvAsInt (strconv_Atoi : string -> option Z)
    (env : gmap string string) (key : string) (defaultValue : Z) : Z :=
  match strconv_Atoi (getEnv env key "") with
  | Some value => value
  | None => defaultValue
  end.

(** [Load], for the fields of [config.Config]: the environment is the one
    in force once the .env file has been read.  [inr] is the error. *)
Definition Load (strconv_Atoi : string -> option Z) (env : gmap string string)
    : config.Config + string :=
  let cfg :=
    {| config.Server_Port := getEnv env "SERVER_PORT" "8080";
       config.Server_Env := getEnv env "SERVER_ENV" "development";
       config.Database_Host := getEnv env "DB_HOST" "localhost";
       config.Database_Name := getEnv env "DB_NAME" "gocomet";
       config.Redis_Host := getEnv env "REDIS_HOST" "localhost";
       config.JWT_Secret := getEnv env "JWT_SECRET" "your_jwt_secret_key_here";
       config.Matching :=
         {| config.MaxRadiusKM :=
              getEnvAsFloat64 env "MAX_MATCHING_RADIUS_KM" 5.0%float;
            config.MaxTimeout :=
              wrap64 (getEnvAsInt strconv_Atoi env "MAX_MATCHING_TIMEOUT_SECONDS" 30
                      * redis.Second);
            config.MaxCandidates :=
              getEnvAsInt strconv_Atoi env "MAX_DRIVER_CANDIDATES" 10 |} |} in
  match config.Validate cfg with
  | Some err => inr ("invalid configuration: " +:+ err)
  | None => inl cfg
  end.

End WithPlatform.
End config_ext.

(** *** What a fault-free dispatch amounts to *)

Module dispatch.
Import redis.

(** A candidate the claim pass takes when every command gets through: no
    non-empty current-ride marker, and a member of the available set. *)
Definition claimable (d : gmap string Value) (id : string) : bool :=
  match d !! matching.currentRideKey id with
  | Some (VString (String _ _) _) => false
  | _ => bool_decide (id ∈ smembers d "drivers:available")
  end.

Section WithPlatform.
Context `{Platform}.

(** The reply of the server to the geo query of one radius. *)
Definition listed (config : matching.Config) (d : gmap string Value)
    (pickupLat pickupLng radius : Q) : reply (list GeoLocation) :=
  match d !! "drivers:locations" with
  | Some (VGeo points) =>
      georadius points pickupLng pickupLat (matching.geoRadiusQuery config radius)
  | None => Reply []
  | Some _ => Failure
  end.

(** The result and final keyspace of a claim pass over [results] started
    on keyspace [d], when every command gets through. *)
Definition pass_result (uuid_New : UUID) (vehicleType : driver.VehicleType)
    (d : gmap string Value) (results : list GeoLocation)
    : outcome driver.Driver * gmap string Value :=
  match List.find (fun c => claimable d (Name c)) results with
  | Some c => (matching.foundDriver uuid_New vehicleType c,
               props.claimed_db d (Name c) (Reply tt))
  | None => (Fail ErrDriverNotAvailable, d)
  end.

(** The first claimable candidate of the first radius that lists one. *)
Fixpoint firstClaimable (config : matching.Config) (d : gmap string Value)
    (pickupLat pickupLng : Q) (radii : list Q) : option GeoLocation :=
  match radii with
  | [] => None
  | radius :: rest =>
      match listed config d pickupLat pickupLng radius with
      | Reply results =>
          match List.find (fun c => claimable d (Name c)) results with
          | Some c => Some c
          | None => firstClaimable config d pickupLat pickupLng rest
          end
      | _ => firstClaimable config d pickupLat pickupLng rest
      end
  end.

(** The result and final keyspace of [FindNearestDriver] over [radii]
    started on keyspace [d], when every command gets through. *)
Definition dispatch_result (config : matching.Config) (uuid_New : UUID)
    (pickupLat pickupLng : Q) (vehicleType : driver.VehicleType)
    (d : gmap string Value) (radii : list Q)
    : outcome driver.Driver * gmap string Value :=
  match firstClaimable config d pickupLat pickupLng radii with
  | Some c => (matching.foundDriver uuid_New vehicleType c,
               props.claimed_db d (Name c) (Reply tt))
  | None => (Fail ErrDriverNotAvailable, d)
  end.

End WithPlatform.
End dispatch.

(** *** Stand-ins for the runs of the added functions *)

Module samples.
Import redis testdouble binary64.

(** Decimal digits of a non-negative integer, most significant first. *)
Fixpoint numeral (fuel : nat) (n : Z) (acc : string) : string :=
  match fuel with
  | O => acc
  | S fuel' =>
      let acc' := String (ascii_of_nat (48 + Z.to_nat (n mod 10))) acc in
      if (n <? 10)%Z then acc' else numeral fuel' (n / 10) acc'
  end.

(** The text written for a non-negative [float64]: two decimals,
    truncated. *)
Definition format_decimal (v : Q) : string :=
  let scaled := (Qnum v * 100 / Z.pos (Qden v))%Z in
  numeral 20 (scaled / 100) ""
  +:+ "." +:+ numeral 1 (scaled mod 100 / 10) "" +:+ numeral 1 (scaled mod 10) "".

Definition accept : handlers_ext.AcceptRideRequest :=
  {| handlers_ext.RideID := "ride-9" |}.

Definition request : dto.CreateRideRequest :=
  {| dto.RiderID := "rider-1";
     dto.PickupLatitude := 12.9716%Q;
     dto.PickupLongitude := 77.5946%Q;
     dto.DropoffLatitude := 13.0%Q;
     dto.DropoffLongitude := 77.7%Q;
     dto.VehicleType := "economy" |}.

(** The two drivers of [fleet] as the geo query of the pickup point
    (12.9716, 77.5946) lists them. *)
Definition nearest : GeoLocation := located d1 77.60 12.98 (7659 # 5000).
Definition farther : GeoLocation := located d2 77.70 13.10 (129759 # 5000).

(** The driver objects built for them. *)
Definition driver_one : driver.Driver :=
  {| driver.ID := d1 : @UUID platform; driver.Name := "Driver 11111111";
     driver.Email := ""; driver.Phone := "";
     driver.Status_ := driver.StatusOnline; driver.VehicleType_ := "economy";
     driver.CurrentLatitude := Some 12.98%Q;
     driver.CurrentLongitude := Some 77.60%Q;
     driver.Rating := 4.8%Q; driver.TotalRides := 0%Z |}.

Definition driver_two : driver.Driver :=
  {| driver.ID := d2 : @UUID platform; driver.Name := "Driver 22222222";
     driver.Email := ""; driver.Phone := "";
     driver.Status_ := driver.StatusOnline; driver.VehicleType_ := "premium";
     driver.CurrentLatitude := Some 13.10%Q;
     driver.CurrentLongitude := Some 77.70%Q;
     driver.Rating := 4.8%Q; driver.TotalRides := 0%Z |}.

(** A stand-in for the text go-redis writes for a [float64]. *)
Definition format64 (f : float) : string :=
  if is_nan f then "NaN" else format_decimal (value f).

(** The test configuration with the surge cap lowered to 1.2, and with
    the surge floor raised to 1.5. *)
Definition tight_cap : Config :=
  {| BaseFare := BaseFare getTestConfig;
     PerKMRate := PerKMRate getTestConfig;
     PerMinuteRate := PerMinuteRate getTestConfig;
     MaxSurgeMultiplier := 0x1.3333333333333p+0%float;
     MinSurgeMultiplier := 1.0%float |}.

Definition high_floor : Config :=
  {| BaseFare := BaseFare getTestConfig;
     PerKMRate := PerKMRate getTestConfig;
     PerMinuteRate := PerMinuteRate getTestConfig;
     MaxSurgeMultiplier := 3.0%float;
     MinSurgeMultiplier := 1.5%float |}.

(** Radii: a maximum that is no multiple of the initial radius, and a
    zero initial radius. *)
Definition capped : MatchingConfig :=
  {| MaxRadiusKM := 5.0%float; MaxExpandedRadius := 30.0%float;
     MaxTimeout := 30%Z; MaxCandidates := 50%Z |}.

Definition flat : MatchingConfig :=
  {| MaxRadiusKM := 0.0%float; MaxExpandedRadius := 50.0%float;
     MaxTimeout := 30%Z; MaxCandidates := 50%Z |}.

(** A driver announced and located under an id shorter than 8 bytes. *)
Definition short_fleet : gmap string Value :=
  {[ "drivers:locations" := VGeo {[ shorty := (77.60, 12.98)%Q ]};
     "drivers:available" := VSet {[ shorty ]} ]}.

Definition short_candidate : GeoLocation :=
  located shorty 77.60 12.98 (7659 # 5000).

(** A store caching the text NaN as the surge of a region. *)
Definition undefined_surge : gmap string Value :=
  {[ "surge:bengaluru" := VString "NaN" 0%Z ]}.

End samples.

(** * Facts about the store *)

Section StoreFacts.
Import redis props.

Lemma roundtrip_inv {A : Type} (cmd : reply A -> Command)
    (exec : gmap string Value -> reply A * gmap string Value)
    (s s' : Redis) (r : reply A) :
  roundtrip cmd exec s = (r, s') ->
  log s' = log s ++ [cmd r]
  /\ ((r = Failure /\ db s' = db s) \/ exec (db s) = (r, db s')).
Proof.
  unfold roundtrip. intros Hrun.
  destruct (outages s) as [|[|] rest] eqn:Hout.
  - destruct (exec (db s)) as [r0 d0] eqn:Hexec.
    inversion Hrun; subst; simpl. split; [reflexivity | now right].
  - inversion Hrun; subst; simpl. split; [reflexivity | now left].
  - destruct (exec (db s)) as [r0 d0] eqn:Hexec.
    inversion Hrun; subst; simpl. split; [reflexivity | now right].
Qed.

Lemma Get_inv (key : string) (s s' : Redis) (r : reply string) :
  Get key s = (r, s') ->
  db s' = db s /\ log s' = log s ++ [GET key r].
Proof.
  intros Hrun. apply roundtrip_inv in Hrun as [Hlog [[_ Hdb] | Hexec]].
  - now split.
  - injection Hexec as _ Hdb. split; [now symmetry | exact Hlog].
Qed.

Lemma Set_inv (key value : string) (ttl : Duration) (s s' : Redis)
    (r : reply unit) :
  Set_ key value ttl s = (r, s') ->
  log s' = log s ++ [SET key value ttl r]
  /\ db s' = match r with
             | Reply _ => <[key := VString value ttl]> (db s)
             | _ => db s
             end.
Proof.
  intros Hrun. apply roundtrip_inv in Hrun as [Hlog [[-> Hdb] | Hexec]].
  - now split.
  - injection Hexec as <- <-. now split.
Qed.

Lemma srem_zero (key member : string) (d : gmap string Value) :
  forall r d', srem key member d = (r, d') ->
  match r with
  | Reply n => (n = 1%Z /\ member ∈ smembers d key) \/ (n = 0%Z /\ d' = d)
  | _ => d' = d
  end.
Proof.
  intros r d'. unfold srem, smembers.
  destruct (d !! key) as [[v ttl | members | points]|] eqn:Hkey.
  - intros [= <- <-]. reflexivity.
  - destruct (decide (member ∈ members)) as [Hin | Hnot].
    + intros [= <- <-]. left. split; [reflexivity | exact Hin].
    + intros [= <- <-]. right. split; reflexivity.
  - intros [= <- <-]. reflexivity.
  - intros [= <- <-]. right. split; reflexivity.
Qed.

Lemma SRem_inv (key member : string) (s s' : Redis) (r : reply Z) :
  SRem key member s = (r, s') ->
  log s' = log s ++ [SREM key member r]
  /\ match r with
     | Reply n =>
         (n = 1%Z /\ member ∈ smembers (db s) key
          /\ db s' = (srem key member (db s)).2)
         \/ (n = 0%Z /\ db s' = db s)
     | _ => db s' = db s
     end.
Proof.
  intros Hrun. apply roundtrip_inv in Hrun as [Hlog [[-> Hdb] | Hexec]].
  - now split.
  - split; [exact Hlog |].
    pose proof (srem_zero key member (db s) r (db s') Hexec) as Hcase.
    destruct r as [n | |]; try exact Hcase.
    destruct Hcase as [[-> Hin] | [-> Heq]].
    + left. rewrite Hexec. now repeat split.
    + right. now split.
Qed.

(** After a removal that found the member, the set has lost exactly that
    member, and every other key is untouched. *)
Lemma srem_members (key member : string) (d : gmap string Value) :
  member ∈ smembers d key ->
  smembers (srem key member d).2 key = smembers d key ∖ {[member]}.
Proof.
  unfold srem, smembers.
  destruct (d !! key) as [[v ttl | members | points]|] eqn:Hkey;
    try (intros Hin; exfalso; set_solver).
  intros Hin. destruct (decide (member ∈ members)) as [_ | Hnot]; [| done].
  simpl. destruct (decide (members ∖ {[member]} = ∅)) as [Hempty | Hne].
  - rewrite lookup_delete_eq. now rewrite Hempty.
  - now rewrite lookup_insert_eq.
Qed.

Lemma srem_other (key member k : string) (d : gmap string Value) :
  k <> key -> (srem key member d).2 !! k = d !! k.
Proof.
  intros Hne. unfold srem.
  destruct (d !! key) as [[v ttl | members | points]|] eqn:Hkey; try reflexivity.
  destruct (decide (member ∈ members)) as [_ | _]; [| reflexivity].
  simpl. destruct (decide (members ∖ {[member]} = ∅)) as [_ | _].
  - now rewrite lookup_delete_ne.
  - now rewrite lookup_insert_ne.
Qed.

(** The marker key of a driver is never the key of the available set
    nor of the geo index. *)
Lemma currentRideKey_not_available (driverID : string) :
  matching.currentRideKey driverID <> "drivers:available".
Proof. unfold matching.currentRideKey. simpl. discriminate. Qed.

Lemma currentRideKey_not_locations (driverID : string) :
  matching.currentRideKey driverID <> "drivers:locations".
Proof. unfold matching.currentRideKey. simpl. discriminate. Qed.

Lemma claimed_db_members (d : gmap string Value) (driverID : string)
    (marker : reply unit) :
  driverID ∈ smembers d "drivers:available" ->
  smembers (claimed_db d driverID marker) "drivers:available"
  = smembers d "drivers:available" ∖ {[driverID]}.
Proof.
  intros Hin. rewrite <- (srem_members _ _ _ Hin).
  unfold claimed_db. destruct marker; try reflexivity.
  unfold smembers at 1. rewrite lookup_insert_ne; [reflexivity |].
  apply currentRideKey_not_available.
Qed.

Lemma claimed_db_locations (d : gmap string Value) (driverID : string)
    (marker : reply unit) :
  claimed_db d driverID marker !! "drivers:locations" = d !! "drivers:locations".
Proof.
  unfold claimed_db. destruct marker.
  - rewrite lookup_insert_ne by apply currentRideKey_not_locations.
    now apply srem_other.
  - now apply srem_other.
  - now apply srem_other.
Qed.

Lemma claimed_db_marker (d : gmap string Value) (driverID : string) :
  claimed_db d driverID (Reply tt) !! matching.currentRideKey driverID
  = Some (VString "claiming" (30 * Second)%Z).
Proof. unfold claimed_db. apply lookup_insert_eq. Qed.

End StoreFacts.

(** * Facts about the claim pass *)

Section ClaimFacts.
Context `{Platform}.
Import redis props.
Variables (uuid_New : UUID) (vehicleType : driver.VehicleType).

Lemma pass_outcome_skip (g : GeoLocation) (results : list GeoLocation)
    (s s1 s' : Redis) (r : outcome driver.Driver) (cmds : list Command) :
  db s1 = db s ->
  log s1 = log s ++ cmds ->
  forallb readonly cmds = true ->
  queried cmds = [] ->
  (forall post, matching.claimCandidates uuid_New vehicleType (g :: post) s
                = matching.claimCandidates uuid_New vehicleType post s1) ->
  pass_outcome uuid_New vehicleType results s1 s' r ->
  pass_outcome uuid_New vehicleType (g :: results) s s' r.
Proof.
  intros Hdb Hlog Hro Hq Hstep [delta Hr Hdb' Hlog' Hro' Hq'
                               | pre post c delta marker Hres Hr Hlog' Hro' Hq' Hin Hdb' Hind].
  - apply pass_lost with (delta := cmds ++ delta); auto.
    + congruence.
    + rewrite Hlog', Hlog. now rewrite <- app_assoc.
    + rewrite forallb_app, Hro, Hro'. reflexivity.
    + clear -Hq Hq'. induction cmds as [|[] cmds IH]; simpl in *; auto; discriminate.
  - apply pass_won with (pre := g :: pre) (post := post) (c := c)
                        (delta := cmds ++ delta) (marker := marker); auto.
    + now rewrite Hres.
    + rewrite Hlog', Hlog. now rewrite <- !app_assoc.
    + rewrite forallb_app, Hro, Hro'. reflexivity.
    + clear -Hq Hq'. induction cmds as [|[] cmds IH]; simpl in *; auto; discriminate.
    + now rewrite <- Hdb.
    + now rewrite <- Hdb.
    + intros post'. simpl app. rewrite Hstep. apply Hind.
Qed.

Lemma claimCandidates_inv (results : list GeoLocation) :
  forall (s s' : Redis) (r : outcome driver.Driver),
    matching.claimCandidates uuid_New vehicleType results s = (r, s') ->
    pass_outcome uuid_New vehicleType results s s' r.
Proof.
  induction results as [| g results IH]; intros s s' r Hrun.
  - injection Hrun as <- <-.
    apply pass_lost with (delta := []); auto. now rewrite app_nil_r.
  - simpl in Hrun. unfold bind in Hrun.
    destruct (Get (matching.currentRideKey (Name g)) s) as [cur s1] eqn:Hget.
    pose proof (Get_inv _ _ _ _ Hget) as [Hdb1 Hlog1].
    assert (Hskip1 : forall rest,
               (exists a b, cur = Reply (String a b)) ->
               matching.claimCandidates uuid_New vehicleType (g :: rest) s
               = matching.claimCandidates uuid_New vehicleType rest s1).
    { intros rest (a & b & ->). simpl. unfold bind. now rewrite Hget. }
    destruct cur as [[| a b] | |].
    2: { apply pass_outcome_skip with (s1 := s1)
           (cmds := [GET (matching.currentRideKey (Name g)) (Reply (String a b))]);
           auto.
         intros post. apply Hskip1. eauto. }
    all: destruct (SRem "drivers:available" (Name g) s1) as [removed s2] eqn:Hsrem;
         pose proof (SRem_inv _ _ _ _ _ Hsrem) as [Hlog2 Hcase].
    all: match type of Hget with
         | Get _ _ = (?cur, _) =>
             assert (Hskip2 : forall rest,
               (removed = Reply 0%Z \/ removed = Nil \/ removed = Failure) ->
               matching.claimCandidates uuid_New vehicleType (g :: rest) s
               = matching.claimCandidates uuid_New vehicleType rest s2)
               by (intros rest [-> | [-> | ->]]; simpl; unfold bind;
                   rewrite Hget, Hsrem; reflexivity);
             assert (Hlost : (removed = Reply 0%Z \/ removed = Nil \/ removed = Failure) ->
                             db s2 = db s ->
                             pass_outcome uuid_New vehicleType results s2 s' r ->
                             pass_outcome uuid_New vehicleType (g :: results) s s' r)
               by (intros Hrem Hdb2 Hrest;
                   apply pass_outcome_skip with (s1 := s2)
                     (cmds := [GET (matching.currentRideKey (Name g)) cur;
                               SREM "drivers:available" (Name g) removed]);
                   [ exact Hdb2
                   | rewrite Hlog2, Hlog1; now rewrite <- app_assoc
                   | destruct Hrem as [-> | [-> | ->]]; reflexivity
                   | reflexivity
                   | intros post; now apply Hskip2
                   | exact Hrest ])
         end.
    all: destruct removed as [n | |];
         [ | apply Hlost; [auto | congruence | now apply IH]
           | apply Hlost; [auto | congruence | now apply IH] ].
    all: destruct Hcase as [(-> & Hin & Hdb2) | (-> & Hdb2)];
         [ | apply Hlost; [auto | congruence | now apply IH] ].
    all: simpl in Hrun; unfold bind in Hrun;
         destruct (Set_ (matching.currentRideKey (Name g)) "claiming"
                     (30 * Second)%Z s2) as [marker s3] eqn:Hset;
         pose proof (Set_inv _ _ _ _ _ _ Hset) as [Hlog3 Hdb3];
         injection Hrun as <- <-.
    all: match type of Hget with
         | Get _ _ = (?cur, _) =>
             apply pass_won with (pre := []) (post := results) (c := g)
               (delta := [GET (matching.currentRideKey (Name g)) cur])
               (marker := marker)
         end; auto;
         [ rewrite Hlog3, Hlog2, Hlog1; unfold winning; now rewrite <- !app_assoc
         | now rewrite <- Hdb1
         | unfold claimed_db; rewrite Hdb3, Hdb2, Hdb1; now destruct marker
         | intros post'; simpl; unfold bind; rewrite Hget, Hsrem; simpl;
           unfold bind; now rewrite Hset ].
Qed.

End ClaimFacts.

(** * Facts about the radius loop *)

Section DispatchFacts.
Context `{Platform}.
Import redis props.
Variables (config : matching.Config) (uuid_New : UUID)
          (pickupLat pickupLng : Q) (vehicleType : driver.VehicleType).

Lemma queried_app (a b : list Command) :
  queried (a ++ b) = queried a ++ queried b.
Proof.
  induction a as [|[] a IH]; simpl; auto. now rewrite IH.
Qed.

Lemma tryRadii_inv (radii : list Q) :
  forall (s s' : Redis) (r : outcome driver.Driver),
    matching.tryRadii config uuid_New pickupLat pickupLng vehicleType radii s
    = (r, s') ->
    dispatch_outcome config uuid_New pickupLat pickupLng vehicleType radii s s' r.
Proof.
  induction radii as [| radius radii IH]; intros s s' r Hrun.
  - injection Hrun as <- <-.
    apply dispatch_exhausted with (delta := []); auto. now rewrite app_nil_r.
  - simpl in Hrun. unfold bind at 1 in Hrun.
    destruct (matching.searchDriversInRadius config uuid_New "drivers:locations"
                pickupLat pickupLng radius vehicleType s) as [found s1] eqn:Hsearch.
    unfold matching.searchDriversInRadius, bind in Hsearch.
    match type of Hsearch with
    | (let (_, _) := roundtrip ?cmd ?exec s in _) = _ =>
        destruct (roundtrip cmd exec s) as [rep s0] eqn:Hgeo;
        pose proof (roundtrip_inv _ _ _ _ _ Hgeo) as [Hlog0 Hexec]
    end.
    assert (Hdb0 : db s0 = db s).
    { destruct Hexec as [[_ Hdb] | Hexec]; [exact Hdb |].
      now injection Hexec as _ Hdb. }
    set (geo := GEORADIUS "drivers:locations" pickupLng pickupLat
                  (matching.geoRadiusQuery config radius) rep) in *.
    (* what the claim pass at this radius did, if it ran *)
    assert (Hpass : pass_outcome uuid_New vehicleType
                      (match rep with Reply l => l | _ => [] end) s0 s1 found
                    \/ (found = Fail ErrSearchFailed /\ s1 = s0
                        /\ forall l, rep <> Reply l)).
    { destruct rep as [[| g l] | |].
      - injection Hsearch as <- <-. left.
        apply pass_lost with (delta := []); auto. now rewrite app_nil_r.
      - left. now apply claimCandidates_inv.
      - injection Hsearch as <- <-. right. repeat split; auto; discriminate.
      - injection Hsearch as <- <-. right. repeat split; auto; discriminate. }
    assert (Hnext : forall e,
               found = Fail e -> db s1 = db s ->
               (exists delta, log s1 = log s ++ geo :: delta
                              /\ forallb readonly delta = true
                              /\ queried delta = []) ->
               dispatch_outcome config uuid_New pickupLat pickupLng vehicleType
                 (radius :: radii) s s' r).
    { intros e -> Hdb1 (delta & Hlog1 & Hro & Hq).
      apply IH in Hrun.
      destruct Hrun as [delta' Hr Hdb' Hlog' Hro' Hq'
                       | tried later radius' results c delta' marker
                           Hradii Hr Hlog' Hro' Hq' Hgeo' Hc Hin Hdb'].
      - apply dispatch_exhausted with (delta := (geo :: delta) ++ delta'); auto.
        + congruence.
        + rewrite Hlog', Hlog1. now rewrite <- app_assoc.
        + rewrite forallb_app. simpl. now rewrite Hro, Hro'.
        + rewrite queried_app. simpl. now rewrite Hq, Hq'.
      - apply dispatch_matched with (tried := radius :: tried) (later := later)
          (radius := radius') (results := results) (c := c)
          (delta := (geo :: delta) ++ delta') (marker := marker); auto.
        + now rewrite Hradii.
        + rewrite Hlog', Hlog1. now rewrite <- !app_assoc.
        + rewrite forallb_app. simpl. now rewrite Hro, Hro'.
        + rewrite queried_app. simpl. now rewrite Hq, Hq'.
        + apply elem_of_app. now right.
        + now rewrite <- Hdb1.
        + now rewrite <- Hdb1. }
    destruct Hpass as [[delta Hr Hdb1 Hlog1 Hro Hq
                       | pre post c delta marker Hres Hr Hlog1 Hro Hq Hin Hdb1 _]
                      | (Hr & -> & Hrep)].
    + apply (Hnext ErrDriverNotAvailable Hr); [congruence |].
      exists delta. rewrite Hlog1, Hlog0. rewrite <- app_assoc. auto.
    + assert (Hfin : r = found /\ s' = s1).
      { rewrite Hr in *. unfold matching.foundDriver in *.
        destruct (String.length (Name c) <? 8)%nat; now injection Hrun as <- <-. }
      destruct Hfin as [-> ->].
      destruct rep as [l | |]; try (destruct pre; discriminate).
      apply dispatch_matched with (tried := []) (later := radii)
        (radius := radius) (results := l) (c := c)
        (delta := geo :: delta) (marker := marker); auto.
      * rewrite Hlog1, Hlog0. now rewrite <- !app_assoc.
      * simpl. now rewrite Hq.
      * apply elem_of_cons. now left.
      * rewrite Hres. apply elem_of_app. right. apply elem_of_cons. now left.
      * now rewrite <- Hdb0.
      * now rewrite <- Hdb0.
    + apply (Hnext ErrSearchFailed Hr Hdb0).
      exists []. now rewrite Hlog0.
Qed.

Lemma FindNearestDriver_inv (s s' : Redis) (r : outcome driver.Driver) :
  matching.FindNearestDriver config uuid_New pickupLat pickupLng vehicleType s
  = (r, s') ->
  dispatch_outcome config uuid_New pickupLat pickupLng vehicleType
    (matching.searchRadii config) s s' r.
Proof. apply tryRadii_inv. Qed.

End DispatchFacts.

(** * The claim pass (C1) *)

Section ClaimPass.
Context `{Platform}.
Import redis props.

Lemma canonical_foundDriver (uuid_New : UUID) (vehicleType : driver.VehicleType)
    (c : GeoLocation) :
  canonical_id (Name c) = true ->
  exists d, matching.foundDriver uuid_New vehicleType c = Return d
            /\ uuid_Parse (Name c) = Some (driver.ID d)
            /\ uuid_String (driver.ID d) = Name c.
Proof.
  unfold canonical_id, matching.foundDriver.
  destruct (uuid_Parse (Name c)) as [u |]; [| discriminate].
  intros [Hstr Hlen]%andb_prop.
  apply Nat.leb_le in Hlen. apply String.eqb_eq in Hstr.
  destruct (Nat.ltb_spec (String.length (Name c)) 8) as [Hlt | _]; [lia |].
  eexists. split; [reflexivity |]. now split.
Qed.

Lemma readonly_no_claim (delta : list Command) (id : string) :
  forallb readonly delta = true ->
  SREM "drivers:available" id (Reply 1%Z) ∈ delta -> False.
Proof.
  intros Hro Hin. rewrite forallb_forall in Hro.
  apply list_elem_of_In in Hin. apply Hro in Hin. discriminate.
Qed.

(** A pass returns a driver only for an id that was in the available
    set when the pass started. *)
Lemma claim_needs_available (uuid_New : UUID) (vehicleType : driver.VehicleType)
    (results : list GeoLocation) (s s' : Redis) (d : driver.Driver) :
  Forall (fun c => canonical_id (Name c) = true) results ->
  matching.claimCandidates uuid_New vehicleType results s = (Return d, s') ->
  uuid_String (driver.ID d) ∈ smembers (db s) "drivers:available".
Proof.
  intros Hcan Hrun. apply claimCandidates_inv in Hrun.
  destruct Hrun as [delta Hr _ _ _ _
                   | pre post c delta marker Hres Hr _ _ _ Hin _ _];
    [discriminate |].
  assert (Hc : canonical_id (Name c) = true).
  { rewrite Forall_forall in Hcan. apply Hcan. rewrite Hres.
    apply elem_of_app. right. apply elem_of_cons. now left. }
  destruct (canonical_foundDriver uuid_New vehicleType c Hc) as (d' & Hd' & _ & Hstr).
  rewrite Hd' in Hr. injection Hr as ->. now rewrite Hstr.
Qed.

(** C1 (amended).  For every candidate list whose ids are canonical UUID
    strings, the claim pass of [searchDriversInRadius] returns either
    "not available" or a driver whose id is the id of a list member; a
    worker is returned if and only if the SREM of its id from the
    available set replied 1 (so it was in the set, whatever the
    current-ride pre-check saw); on a win the pass ends with that SREM
    followed by the SET of the "claiming" marker with a 30 s expiry, the
    id has left the available set, and the outcome does not depend on
    the candidates after the winner; and no later pass started from a
    store in which that id is not available again returns the same
    worker. *)
Theorem claim_pass_canonical (uuid_New : UUID) (vehicleType : driver.VehicleType)
    (results : list GeoLocation) (s s' : Redis) (r : outcome driver.Driver) :
  Forall (fun c => canonical_id (Name c) = true) results ->
  matching.claimCandidates uuid_New vehicleType results s = (r, s') ->
  exists delta,
    log s' = log s ++ delta
    /\ (r = Fail ErrDriverNotAvailable \/ exists d, r = Return d)
    /\ (forall id,
          (exists d, r = Return d /\ uuid_String (driver.ID d) = id)
          <-> SREM "drivers:available" id (Reply 1%Z) ∈ delta)
    /\ forall d, r = Return d ->
         let id := uuid_String (driver.ID d) in
         (exists pre c post,
             results = pre ++ c :: post
             /\ Name c = id
             /\ uuid_Parse (Name c) = Some (driver.ID d)
             /\ forall post',
                  matching.claimCandidates uuid_New vehicleType
                    (pre ++ c :: post') s = (r, s'))
         /\ id ∈ smembers (db s) "drivers:available"
         /\ smembers (db s') "drivers:available"
            = smembers (db s) "drivers:available" ∖ {[id]}
         /\ (exists before marker,
               delta = before ++ winning id marker
               /\ forallb readonly before = true
               /\ (marker = Reply tt ->
                   db s' !! matching.currentRideKey id
                   = Some (VString "claiming" (30 * Second)%Z)))
         /\ forall uuid_New2 vehicleType2 results2 s2 s3 d2,
              Forall (fun c => canonical_id (Name c) = true) results2 ->
              id ∉ smembers (db s2) "drivers:available" ->
              matching.claimCandidates uuid_New2 vehicleType2 results2 s2
              = (Return d2, s3) ->
              driver.ID d2 <> driver.ID d.
Proof.
  intros Hcan Hrun. pose proof (claimCandidates_inv _ _ _ _ _ _ Hrun) as Hout.
  destruct Hout as [delta Hr Hdb Hlog Hro _
                   | pre post c delta marker Hres Hr Hlog Hro _ Hin Hdb Hind].
  - exists delta. split; [exact Hlog |]. split; [now left |]. split.
    + intros id. split.
      * intros (d & Hd & _). congruence.
      * intros Hsrem. exfalso. eapply readonly_no_claim; eauto.
    + intros d Hd. congruence.
  - assert (Hc : canonical_id (Name c) = true).
    { rewrite Forall_forall in Hcan. apply Hcan. rewrite Hres.
      apply elem_of_app. right. apply elem_of_cons. now left. }
    destruct (canonical_foundDriver uuid_New vehicleType c Hc)
      as (d0 & Hd0 & Hparse & Hstr).
    rewrite Hd0 in Hr.
    exists (delta ++ winning (Name c) marker).
    split; [exact Hlog |]. split; [right; eauto |]. split.
    + intros id. split.
      * intros (d & Hd & <-). assert (d = d0) as -> by congruence.
        rewrite Hstr. apply elem_of_app. right. apply elem_of_cons. now left.
      * intros [Hsrem | Hsrem]%elem_of_app.
        -- exfalso. eapply readonly_no_claim; eauto.
        -- unfold winning in Hsrem.
           apply elem_of_cons in Hsrem as [Heq | Hsrem].
           ++ injection Heq as ->. eauto.
           ++ apply elem_of_cons in Hsrem as [Heq | Hsrem]; [discriminate |].
              now apply elem_of_nil in Hsrem.
    + intros d Hd id. assert (d = d0) as -> by congruence.
      subst id. rewrite Hstr. repeat split.
      * exists pre, c, post. repeat split; auto.
      * exact Hin.
      * rewrite Hdb. now apply claimed_db_members.
      * exists delta, marker. repeat split; auto.
        intros ->. rewrite Hdb. apply claimed_db_marker.
      * intros uuid_New2 vehicleType2 results2 s2 s3 d2 Hcan2 Hout2 Hrun2 Heq.
        apply Hout2. rewrite <- Hstr, <- Heq.
        eapply claim_needs_available; eauto.
Qed.

End ClaimPass.

Section ClaimPassExamples.
Import redis props testdouble.

(** The first driver is skipped by the pre-check, the second is won. *)
Lemma claim_pass_canonical_witness :
  Forall (fun c => canonical_id (Name c) = true) candidates
  /\ exists delta,
       log (matching.claimCandidates fresh_uuid "economy" candidates
              (store busy_fleet [])).2 = delta
       /\ SREM "drivers:available" d2 (Reply 1%Z) ∈ delta
       /\ d2 ∉ smembers (db (matching.claimCandidates fresh_uuid "economy"
                               candidates (store busy_fleet [])).2)
                 "drivers:available".
Proof.
  assert (Hcan : Forall (fun c => canonical_id (Name c) = true) candidates)
    by (repeat constructor).
  split; [exact Hcan |].
  destruct (matching.claimCandidates fresh_uuid "economy" candidates
              (store busy_fleet [])) as [r s'] eqn:Hrun.
  destruct (claim_pass_canonical fresh_uuid "economy" candidates
              (store busy_fleet []) s' r Hcan Hrun)
    as (delta & Hlog & _ & Hiff & Hwon).
  exists delta. split; [exact Hlog |].
  assert (Hr : r = Return
                     {| driver.ID := d2; driver.Name := "Driver 22222222";
                        driver.Email := ""; driver.Phone := "";
                        driver.Status_ := "online"; driver.VehicleType_ := "economy";
                        driver.CurrentLatitude := Some 13.10%Q;
                        driver.CurrentLongitude := Some 77.70%Q;
                        driver.Rating := 4.8%Q; driver.TotalRides := 0%Z |}).
  { vm_compute in Hrun. now injection Hrun as <- _. }
  split.
  - apply Hiff. eexists. split; [exact Hr | reflexivity].
  - destruct (Hwon _ Hr) as (_ & Hin & Hafter & _). simpl in Hafter.
    change (d2 ∉ smembers (db s') "drivers:available").
    rewrite Hafter. intros [_ Habs]%elem_of_difference.
    apply Habs. now apply elem_of_singleton.
Defined.

(** C1 as stated fails: a candidate whose id is not a UUID is claimed,
    and the driver returned for it carries the freshly generated UUID,
    which is the id of no candidate. *)
Lemma claim_pass_fresh_uuid :
  let results := [located walkin 77.60 12.98 1.5] in
  let run := matching.claimCandidates fresh_uuid "economy" results
               (store walkin_fleet []) in
  exists d, run.1 = Return d
            /\ driver.ID d = fresh_uuid
            /\ Forall (fun c => Name c <> uuid_String (driver.ID d)
                                /\ uuid_Parse (Name c) <> Some (driver.ID d))
                      results
            /\ SREM "drivers:available" walkin (Reply 1%Z) ∈ log run.2.
Proof.
  simpl. eexists. split; [vm_compute; reflexivity |].
  split; [reflexivity |]. split.
  - repeat constructor; simpl; discriminate.
  - vm_compute. apply elem_of_cons. right. apply elem_of_cons. now left.
Qed.

End ClaimPassExamples.


(** * The order of binary64 *)

Section Float64Order.
Import binary64.

Lemma compare_cont_antisym (m1 m2 : positive) :
  Pos.compare_cont Eq m2 m1 = CompOpp (Pos.compare_cont Eq m1 m2).
Proof. apply (Pos.compare_antisym m1 m2). Qed.

Lemma SFcompare_antisym (x y : spec_float) :
  SFcompare y x = option_map CompOpp (SFcompare x y).
Proof.
  destruct x as [sx | sx | | sx mx ex], y as [sy | sy | | sy my ey];
    try reflexivity;
    try (destruct sx; reflexivity); try (destruct sy; reflexivity);
    try (destruct sx, sy; reflexivity).
  destruct sx, sy; cbn [SFcompare option_map]; try reflexivity;
    rewrite (Z.compare_antisym ex ey);
    destruct (ex ?= ey)%Z; cbn [CompOpp]; try reflexivity;
    rewrite compare_cont_antisym; now destruct (Pos.compare_cont Eq mx my).
Qed.

Lemma compare_number (x y : float) :
  is_number x -> is_number y ->
  exists c, SFcompare (Prim2SF x) (Prim2SF y) = Some c.
Proof.
  unfold is_number. intros Hx Hy.
  destruct (Prim2SF x) as [sx | sx | | sx mx ex]; [| | contradiction |];
    destruct (Prim2SF y) as [sy | sy | | sy my ey]; try contradiction;
    cbn [SFcompare]; eauto.
Qed.

Lemma ltb_leb (x y : float) : (x <? y)%float = true -> (x <=? y)%float = true.
Proof.
  rewrite FloatAxioms.ltb_spec, FloatAxioms.leb_spec. unfold SFltb, SFleb.
  now destruct (SFcompare (Prim2SF x) (Prim2SF y)) as [[| |] |].
Qed.

Lemma ltb_false_leb (x y : float) :
  is_number x -> is_number y ->
  (x <? y)%float = false -> (y <=? x)%float = true.
Proof.
  intros Hx Hy. rewrite FloatAxioms.ltb_spec, FloatAxioms.leb_spec. unfold SFltb, SFleb.
  rewrite (SFcompare_antisym (Prim2SF x) (Prim2SF y)).
  destruct (compare_number x y Hx Hy) as [c ->]. now destruct c.
Qed.

Lemma leb_ltb_false (x y : float) :
  (x <=? y)%float = true -> (y <? x)%float = false.
Proof.
  rewrite FloatAxioms.ltb_spec, FloatAxioms.leb_spec. unfold SFltb, SFleb.
  rewrite (SFcompare_antisym (Prim2SF x) (Prim2SF y)).
  now destruct (SFcompare (Prim2SF x) (Prim2SF y)) as [[| |] |].
Qed.

Lemma ltb_leb_false (x y : float) :
  (x <? y)%float = true -> (y <=? x)%float = false.
Proof.
  rewrite FloatAxioms.ltb_spec, FloatAxioms.leb_spec. unfold SFltb, SFleb.
  rewrite (SFcompare_antisym (Prim2SF x) (Prim2SF y)).
  now destruct (SFcompare (Prim2SF x) (Prim2SF y)) as [[| |] |].
Qed.

Lemma leb_number (x y : float) :
  (x <=? y)%float = true -> is_number x /\ is_number y.
Proof.
  rewrite FloatAxioms.leb_spec. unfold SFleb, is_number.
  destruct (Prim2SF x) as [sx | sx | | sx mx ex];
    destruct (Prim2SF y) as [sy | sy | | sy my ey];
    cbn [SFcompare]; try discriminate; split; discriminate.
Qed.

Lemma ltb_number (x y : float) :
  (x <? y)%float = true -> is_number x /\ is_number y.
Proof. intros Hlt. now apply leb_number, ltb_leb. Qed.

Lemma SFcompare_refl (x : spec_float) :
  x <> S754_nan -> SFcompare x x = Some Eq.
Proof.
  destruct x as [sx | sx | | sx mx ex]; try contradiction; intros _.
  - reflexivity.
  - now destruct sx.
  - destruct sx; cbn [SFcompare]; rewrite Z.compare_refl;
      change (Pos.compare_cont Eq mx mx) with (mx ?= mx)%positive;
      now rewrite Pos.compare_refl.
Qed.

Lemma leb_refl (x : float) : is_number x -> (x <=? x)%float = true.
Proof.
  intros Hx. rewrite FloatAxioms.leb_spec. unfold SFleb. now rewrite SFcompare_refl.
Qed.

Lemma SFcompare_rank (x y : spec_float) :
  x <> S754_nan -> y <> S754_nan ->
  SFcompare x y = Some (lex (rank x) (rank y)).
Proof.
  intros Hx Hy.
  destruct x as [sx | sx | | sx mx ex]; try contradiction;
    destruct y as [sy | sy | | sy my ey]; try contradiction;
    try (destruct sx; reflexivity); try (destruct sy; reflexivity);
    try (destruct sx, sy; reflexivity).
  destruct sx, sy; unfold lex, rank; cbn [SFcompare fst snd]; try reflexivity.
  change (-1 ?= -1)%Z with Eq. cbv iota.
  change (Pos.compare_cont Eq mx my) with (mx ?= my)%positive.
  destruct (Z.compare_spec ex ey), (Z.compare_spec (- ex) (- ey));
    try lia; reflexivity.
Qed.

Lemma lex_le_trans (a b c : Z * (Z * Z)) :
  lex a b <> Gt -> lex b c <> Gt -> lex a c <> Gt.
Proof.
  destruct a as [a1 [a2 a3]], b as [b1 [b2 b3]], c as [c1 [c2 c3]].
  unfold lex. cbn [fst snd].
  destruct (Z.compare_spec a1 b1), (Z.compare_spec b1 c1),
    (Z.compare_spec a1 c1); try lia; try congruence;
    destruct (Z.compare_spec a2 b2), (Z.compare_spec b2 c2),
      (Z.compare_spec a2 c2); try lia; try congruence;
    destruct (Z.compare_spec a3 b3), (Z.compare_spec b3 c3),
      (Z.compare_spec a3 c3); try lia; congruence.
Qed.

Lemma leb_rank (x y : float) :
  (x <=? y)%float = true
  <-> is_number x /\ is_number y
      /\ lex (rank (Prim2SF x)) (rank (Prim2SF y)) <> Gt.
Proof.
  split.
  - intros Hle. destruct (leb_number x y Hle) as [Hx Hy].
    split; [exact Hx |]. split; [exact Hy |].
    rewrite FloatAxioms.leb_spec in Hle. unfold SFleb in Hle.
    rewrite (SFcompare_rank _ _ Hx Hy) in Hle.
    now destruct (lex (rank (Prim2SF x)) (rank (Prim2SF y))).
  - intros (Hx & Hy & Hlex). rewrite FloatAxioms.leb_spec. unfold SFleb.
    rewrite (SFcompare_rank _ _ Hx Hy).
    now destruct (lex (rank (Prim2SF x)) (rank (Prim2SF y))).
Qed.

Lemma leb_trans (x y z : float) :
  (x <=? y)%float = true -> (y <=? z)%float = true -> (x <=? z)%float = true.
Proof.
  rewrite !leb_rank. intros (Hx & Hy & Hxy) (_ & Hz & Hyz).
  split; [exact Hx |]. split; [exact Hz |]. now apply (lex_le_trans _ (rank (Prim2SF y))).
Qed.


Lemma lex_lt_trans (a b c : Z * (Z * Z)) :
  lex a b = Lt -> lex b c = Lt -> lex a c = Lt.
Proof.
  destruct a as [a1 [a2 a3]], b as [b1 [b2 b3]], c as [c1 [c2 c3]].
  unfold lex. cbn [fst snd].
  destruct (Z.compare_spec a1 b1), (Z.compare_spec b1 c1),
    (Z.compare_spec a1 c1); try lia; try congruence;
    destruct (Z.compare_spec a2 b2), (Z.compare_spec b2 c2),
      (Z.compare_spec a2 c2); try lia; try congruence;
    destruct (Z.compare_spec a3 b3), (Z.compare_spec b3 c3),
      (Z.compare_spec a3 c3); try lia; congruence.
Qed.

Lemma ltb_rank (x y : float) :
  (x <? y)%float = true
  <-> is_number x /\ is_number y
      /\ lex (rank (Prim2SF x)) (rank (Prim2SF y)) = Lt.
Proof.
  split.
  - intros Hlt. destruct (ltb_number x y Hlt) as [Hx Hy].
    split; [exact Hx |]. split; [exact Hy |].
    rewrite FloatAxioms.ltb_spec in Hlt. unfold SFltb in Hlt.
    rewrite (SFcompare_rank _ _ Hx Hy) in Hlt.
    now destruct (lex (rank (Prim2SF x)) (rank (Prim2SF y))).
  - intros (Hx & Hy & Hlex). rewrite FloatAxioms.ltb_spec. unfold SFltb.
    now rewrite (SFcompare_rank _ _ Hx Hy), Hlex.
Qed.

Lemma ltb_trans (x y z : float) :
  (x <? y)%float = true -> (y <? z)%float = true -> (x <? z)%float = true.
Proof.
  rewrite !ltb_rank. intros (Hx & Hy & Hxy) (_ & Hz & Hyz).
  split; [exact Hx |]. split; [exact Hz |].
  now apply (lex_lt_trans _ (rank (Prim2SF y))).
Qed.

(** [is_nan], the test the statements use. *)
Lemma is_nan_false (x : float) : is_nan x = false <-> is_number x.
Proof.
  unfold is_nan, is_number. rewrite FloatAxioms.eqb_spec. unfold SFeqb. split.
  - intros Heq Hnan. rewrite Hnan in Heq. discriminate.
  - intros Hx. now rewrite SFcompare_refl.
Qed.

Lemma ltb_false_leb' (x y : float) :
  is_nan x = false -> is_nan y = false ->
  (x <? y)%float = false -> (y <=? x)%float = true.
Proof. rewrite !is_nan_false. apply ltb_false_leb. Qed.

Lemma leb_refl' (x : float) : is_nan x = false -> (x <=? x)%float = true.
Proof. rewrite is_nan_false. apply leb_refl. Qed.

Lemma leb_not_nan (x y : float) :
  (x <=? y)%float = true -> is_nan x = false /\ is_nan y = false.
Proof. rewrite !is_nan_false. apply leb_number. Qed.

Lemma ltb_nan_l (x y : float) : is_nan x = true -> (x <? y)%float = false.
Proof.
  intros Hnan. destruct (x <? y)%float eqn:Hlt; [| reflexivity].
  apply ltb_number in Hlt as [Hx _]. apply is_nan_false in Hx. congruence.
Qed.

Lemma ltb_nan_r (x y : float) : is_nan y = true -> (x <? y)%float = false.
Proof.
  intros Hnan. destruct (x <? y)%float eqn:Hlt; [| reflexivity].
  apply ltb_number in Hlt as [_ Hy]. apply is_nan_false in Hy. congruence.
Qed.

(** Multiplication commutes, rounding included. *)
Lemma SFmul_comm (x y : spec_float) : SF64mul x y = SF64mul y x.
Proof.
  unfold SF64mul.
  destruct x as [sx | sx | | sx mx ex], y as [sy | sy | | sy my ey];
    cbn [SFmul]; rewrite ?(xorb_comm sx sy); try reflexivity.
  now rewrite (Pos.mul_comm mx my), (Z.add_comm ex ey).
Qed.

Lemma mul_comm (x y : float) : (x * y)%float = (y * x)%float.
Proof.
  apply Prim2SF_inj. rewrite !FloatAxioms.mul_spec. apply SFmul_comm.
Qed.

(** Finite doubles, and what zero does to them. *)
Lemma is_finite_spec (x : float) :
  is_finite x = true ->
  (exists s, Prim2SF x = S754_zero s)
  \/ (exists s m e, Prim2SF x = S754_finite s m e).
Proof.
  unfold is_finite, is_infinity. intros Hfin.
  apply negb_true_iff, orb_false_iff in Hfin as [Hnan Hinf].
  apply is_nan_false in Hnan. unfold is_number in Hnan.
  rewrite FloatAxioms.eqb_spec, FloatAxioms.abs_spec in Hinf.
  destruct (Prim2SF x) as [s | s | | s m e]; eauto.
  - exfalso. vm_compute in Hinf. discriminate.
  - contradiction.
Qed.

Lemma zero_mul_finite (k : float) :
  is_finite k = true -> exists s, Prim2SF (0 * k)%float = S754_zero s.
Proof.
  intros Hfin. rewrite FloatAxioms.mul_spec.
  change (Prim2SF 0%float) with (S754_zero false).
  destruct (is_finite_spec k Hfin) as [[s ->] | (s & m & e & ->)];
    cbn; eauto.
Qed.

Lemma add_zero_r (b z : float) (s : bool) :
  is_nan b = false -> Prim2SF z = S754_zero s ->
  is_nan (b + z)%float = false /\ ((b + z)%float =? b)%float = true.
Proof.
  intros Hb Hz. apply is_nan_false in Hb. unfold is_number in Hb.
  assert (Hsum : Prim2SF (b + z)%float = Prim2SF b
                 \/ exists s1 s2, Prim2SF (b + z)%float = S754_zero s1
                                  /\ Prim2SF b = S754_zero s2).
  { rewrite FloatAxioms.add_spec, Hz. unfold SF64add.
    destruct (Prim2SF b) as [sb | sb | | sb mb eb]; try contradiction.
    - right. destruct sb, s; cbn; eauto.
    - left. reflexivity.
    - left. reflexivity. }
  split.
  - apply is_nan_false. unfold is_number.
    destruct Hsum as [-> | (s1 & s2 & -> & _)]; [exact Hb | discriminate].
  - rewrite FloatAxioms.eqb_spec. unfold SFeqb.
    destruct Hsum as [-> | (s1 & s2 & -> & ->)];
      [now rewrite SFcompare_refl | reflexivity].
Qed.

Lemma eqb_trans_number (x y z : float) :
  (x =? y)%float = true -> (y =? z)%float = true -> (x =? z)%float = true.
Proof.
  rewrite !FloatAxioms.eqb_spec. unfold SFeqb.
  destruct (SFcompare (Prim2SF x) (Prim2SF y)) as [[| |] |] eqn:Hxy;
    try discriminate.
  destruct (SFcompare (Prim2SF y) (Prim2SF z)) as [[| |] |] eqn:Hyz;
    try discriminate.
  intros _ _.
  assert (Hx : Prim2SF x <> S754_nan) by (intros E; rewrite E in Hxy; discriminate).
  assert (Hy : Prim2SF y <> S754_nan)
    by (intros E; rewrite E in Hyz; discriminate).
  assert (Hz : Prim2SF z <> S754_nan).
  { intros E; rewrite E in Hyz. now destruct (Prim2SF y). }
  rewrite (SFcompare_rank _ _ Hx Hy) in Hxy.
  rewrite (SFcompare_rank _ _ Hy Hz) in Hyz.
  rewrite (SFcompare_rank _ _ Hx Hz).
  injection Hxy as Hxy. injection Hyz as Hyz.
  enough (lex (rank (Prim2SF x)) (rank (Prim2SF z)) = Eq) as -> by reflexivity.
  revert Hxy Hyz.
  destruct (rank (Prim2SF x)) as [a1 [a2 a3]], (rank (Prim2SF y)) as [b1 [b2 b3]],
    (rank (Prim2SF z)) as [c1 [c2 c3]].
  unfold lex. cbn [fst snd].
  destruct (Z.compare_spec a1 b1), (Z.compare_spec b1 c1),
    (Z.compare_spec a1 c1); try lia; try congruence;
    destruct (Z.compare_spec a2 b2), (Z.compare_spec b2 c2),
      (Z.compare_spec a2 c2); try lia; try congruence;
    destruct (Z.compare_spec a3 b3), (Z.compare_spec b3 c3),
      (Z.compare_spec a3 c3); try lia; congruence.
Qed.

End Float64Order.

(** * The radius sequence under binary64 (C2) *)

Section Radii64.
Context `{Platform}.
Import redis props binary64.

Lemma filter_sorted {A : Type} (R : A -> A -> Prop) (keep : A -> bool)
    (l : list A) :
  StronglySorted R l -> StronglySorted R (List.filter keep l).
Proof.
  induction 1 as [| a l Hsorted IH Hall]; cbn [List.filter]; [constructor |].
  destruct (keep a); [| exact IH]. constructor; [exact IH |].
  apply List.Forall_forall. intros x [Hx _]%List.filter_In.
  rewrite List.Forall_forall in Hall. now apply Hall.
Qed.

(** C2 (amended).  The radius sequence is the initial radius followed by
    those of 2x, 4x and 10x the initial radius (products in binary64)
    that do not exceed the maximum radius, in that order: between one and
    four radii, and the maximum itself is never appended as a ceiling.
    The sequence is strictly ascending whenever the four multiples are.
    The configuration of [CreateRide] (5 km, 50 km) gives exactly 5, 10,
    20, 50.  [FindNearestDriver] queries the radii in that order, each at
    most once, and a successful claim ends the call: the log ends with
    the winning SREM and the marker SET. *)
Theorem radius_sequence (config : MatchingConfig) :
  let i := MaxRadiusKM config in
  let kept := fun r => (r <=? maxRadius config)%float in
  searchRadii config = i :: List.filter kept [i * 2; i * 4; i * 10]%float
  /\ (1 <= length (searchRadii config) <= 4)%nat
  /\ (forall r, In r (searchRadii config) ->
        r = i \/ (In r [i * 2; i * 4; i * 10]%float /\ kept r = true))
  /\ ((i <? i * 2)%float = true -> (i * 2 <? i * 4)%float = true ->
      (i * 4 <? i * 10)%float = true ->
      StronglySorted (fun a b => (a <? b)%float = true) (searchRadii config))
  /\ searchRadii createRideConfig = [5; 10; 20; 50]%float
  /\ (Forall (fun r => is_finite r = true) (searchRadii config) ->
      forall (uuid_New : UUID) (pickupLat pickupLng : Q)
        (vehicleType : driver.VehicleType) (s s' : Redis)
        (r : outcome driver.Driver),
        FindNearestDriver config uuid_New pickupLat pickupLng vehicleType s
        = (r, s') ->
        exists delta,
          log s' = log s ++ delta
          /\ queried delta `prefix_of` List.map value (searchRadii config)
          /\ (forall e, r = Fail e ->
                queried delta = List.map value (searchRadii config))
          /\ (forall d, r = Return d ->
                exists before id marker,
                  delta = before ++ winning id marker
                  /\ forallb readonly before = true)).
Proof.
  intros i kept.
  assert (Hshape : searchRadii config
                   = i :: List.filter kept [i * 2; i * 4; i * 10]%float)
    by reflexivity.
  split; [exact Hshape |]. split; [| split; [| split; [| split]]].
  - rewrite Hshape. cbn [List.filter length].
    destruct (kept (i * 2)%float), (kept (i * 4)%float), (kept (i * 10)%float);
      cbn [length]; lia.
  - intros r. rewrite Hshape. intros [<- | Hin]; [now left | right].
    now apply List.filter_In in Hin.
  - intros H12 H24 H410. rewrite Hshape.
    assert (Hall : StronglySorted (fun a b => (a <? b)%float = true)
                     [i; i * 2; i * 4; i * 10]%float).
    { pose proof (ltb_trans _ _ _ H12 H24) as H14.
      pose proof (ltb_trans _ _ _ H24 H410) as H210.
      pose proof (ltb_trans _ _ _ H12 H210) as H110.
      repeat constructor; assumption. }
    apply StronglySorted_inv in Hall as [Htail Hhead].
    constructor; [now apply filter_sorted |].
    apply List.Forall_forall. intros x [Hx _]%List.filter_In.
    rewrite List.Forall_forall in Hhead. now apply Hhead.
  - reflexivity.
  - intros _ uuid_New pickupLat pickupLng vehicleType s s' r Hrun.
    unfold FindNearestDriver in Hrun. apply tryRadii_inv in Hrun.
    destruct Hrun as [delta Hr Hdb Hlog Hro Hq
                     | tried later radius results c delta marker
                         Hradii Hr Hlog Hro Hq Hgeo Hc Hin Hdb].
    + exists delta. repeat split; auto.
      * now rewrite Hq.
      * intros d Hd. congruence.
    + exists (delta ++ winning (Name c) marker). repeat split; auto.
      * rewrite queried_app, Hq, Hradii. simpl. rewrite app_nil_r.
        exists later. now rewrite <- app_assoc.
      * intros e He. rewrite Hr in He. unfold matching.foundDriver in He.
        destruct (String.length (Name c) <? 8)%nat; discriminate.
      * intros d Hd. eauto.
Qed.

End Radii64.

Section Radii64Examples.
Import redis props testdouble samples binary64.

Lemma radius_sequence_witness :
  (MaxRadiusKM createRideConfig <? MaxRadiusKM createRideConfig * 2)%float = true
  /\ (MaxRadiusKM createRideConfig * 2 <? MaxRadiusKM createRideConfig * 4)%float
     = true
  /\ (MaxRadiusKM createRideConfig * 4 <? MaxRadiusKM createRideConfig * 10)%float
     = true
  /\ StronglySorted (fun a b => (a <? b)%float = true)
       (searchRadii createRideConfig)
  /\ searchRadii createRideConfig = [5; 10; 20; 50]%float
  /\ Forall2 Qeq (List.map value (searchRadii createRideConfig))
       (matching.searchRadii handlers.matchingConfig)
  /\ Forall (fun r => is_finite r = true) (searchRadii createRideConfig)
  /\ (let run := FindNearestDriver createRideConfig fresh_uuid 12.9716 77.5946
                   "economy" (store fleet []) in
      exists delta,
        log run.2 = delta
        /\ queried delta `prefix_of` List.map value (searchRadii createRideConfig)).
Proof.
  destruct (radius_sequence (H := platform) createRideConfig)
    as (_ & _ & _ & Hsorted & Hexact & Hrun).
  assert (Hfinite : Forall (fun r => is_finite r = true)
                      (searchRadii createRideConfig))
    by (rewrite Hexact; repeat constructor).
  split; [reflexivity |]. split; [reflexivity |]. split; [reflexivity |].
  split; [now apply Hsorted |]. split; [exact Hexact |].
  split; [repeat constructor |]. split; [exact Hfinite |].
  cbv zeta.
  destruct (Hrun Hfinite fresh_uuid 12.9716%Q 77.5946%Q "economy"
              (store fleet []) _ _ (surjective_pairing _))
    as (delta & Hlog & Hq & _).
  exists delta. split; [exact Hlog | exact Hq].
Defined.

(** C2 as stated fails: with 5 km and 30 km the sequence is 5, 10, 20,
    although 10x the initial radius exceeds the maximum, and the maximum
    is not in it; with a zero initial radius the sequence is not
    ascending. *)
Lemma radius_sequence_no_ceiling :
  ((MaxRadiusKM capped <=? maxRadius capped)%float = true
   /\ (maxRadius capped <? MaxRadiusKM capped * 10)%float = true
   /\ searchRadii capped = [5; 10; 20]%float
   /\ ~ Exists (fun r => (r =? maxRadius capped)%float = true)
          (searchRadii capped))
  /\ ((MaxRadiusKM flat <=? maxRadius flat)%float = true
      /\ searchRadii flat = [0; 0; 0; 0]%float
      /\ ~ StronglySorted (fun a b => (a <? b)%float = true)
             (searchRadii flat)).
Proof.
  split.
  - split; [reflexivity |]. split; [reflexivity |]. split; [reflexivity |].
    change (searchRadii capped) with [5; 10; 20]%float.
    intros Hex. repeat (apply Exists_cons in Hex as [Heq | Hex];
                        [vm_compute in Heq; discriminate |]).
    now apply Exists_nil in Hex.
  - split; [reflexivity |]. split; [reflexivity |].
    change (searchRadii flat) with [0; 0; 0; 0]%float.
    intros Hsorted. apply StronglySorted_inv in Hsorted as [_ Hall].
    apply Forall_inv in Hall. vm_compute in Hall. discriminate.
Qed.

End Radii64Examples.

(** * The radius loop in exact arithmetic (C7) *)

Section RadiusSequence.
Context `{Platform}.
Import redis props.

Lemma Qle_bool_false (x y : Q) : Qle_bool x y = false -> (y < x)%Q.
Proof.
  intros Hb. apply Qnot_le_lt. intros Hle.
  apply Qle_bool_iff in Hle. congruence.
Qed.

Lemma Qltb_true (x y : Q) : Qltb x y = true <-> (x < y)%Q.
Proof.
  unfold Qltb. split.
  - intros Hb. apply Qle_bool_false. now destruct (Qle_bool y x).
  - intros Hlt. destruct (Qle_bool y x) eqn:Hb; [| reflexivity].
    apply Qle_bool_iff in Hb. lra.
Qed.

Lemma Qltb_false (x y : Q) : Qltb x y = false <-> (y <= x)%Q.
Proof.
  unfold Qltb. split.
  - intros Hb. apply Qle_bool_iff. now destruct (Qle_bool y x).
  - intros Hle. apply Qle_bool_iff in Hle. now rewrite Hle.
Qed.

(** C7 (amended).  When the initial radius exceeds the maximum radius (and
    is not negative) no configuration error is raised: the radius sequence
    is the initial radius alone, [FindNearestDriver] runs one ordinary
    search at that radius and returns its driver, or "driver not
    available"; and [Validate], the start-up check, does not look at the
    matching configuration. *)
Theorem inverted_radii_still_search (config : matching.Config) :
  (matching.maxRadius config < matching.MaxRadiusKM config)%Q ->
  (0 <= matching.MaxRadiusKM config)%Q ->
  matching.searchRadii config = [matching.MaxRadiusKM config]
  /\ (forall (uuid_New : UUID) (pickupLat pickupLng : Q)
        (vehicleType : driver.VehicleType) (s : Redis),
        let search :=
          matching.searchDriversInRadius config uuid_New "drivers:locations"
            pickupLat pickupLng (matching.MaxRadiusKM config) vehicleType s in
        matching.FindNearestDriver config uuid_New pickupLat pickupLng vehicleType s
        = (match search.1 with
           | Fail _ => Fail ErrDriverNotAvailable
           | found => found
           end, search.2)
        /\ exists rep delta,
             log search.2
             = log s ++ GEORADIUS "drivers:locations" pickupLng pickupLat
                          (matching.geoRadiusQuery config (matching.MaxRadiusKM config))
                          rep :: delta)
  /\ forall (c : config.Config) (m : config.MatchingConfig),
       config.Validate
         {| config.Server_Port := config.Server_Port c;
            config.Server_Env := config.Server_Env c;
            config.Database_Host := config.Database_Host c;
            config.Database_Name := config.Database_Name c;
            config.Redis_Host := config.Redis_Host c;
            config.JWT_Secret := config.JWT_Secret c;
            config.Matching := m |}
       = config.Validate c.
Proof.
  intros Hgt Hnonneg.
  assert (Hradii : matching.searchRadii config = [matching.MaxRadiusKM config]).
  { unfold matching.searchRadii, matching.expandedRadii. simpl List.filter.
    set (i := matching.MaxRadiusKM config) in *.
    destruct (Qle_bool (i * 2) (matching.maxRadius config)) eqn:H2;
      [apply Qle_bool_iff in H2; lra |].
    destruct (Qle_bool (i * 4) (matching.maxRadius config)) eqn:H4;
      [apply Qle_bool_iff in H4; lra |].
    destruct (Qle_bool (i * 10) (matching.maxRadius config)) eqn:H10;
      [apply Qle_bool_iff in H10; lra |].
    reflexivity. }
  split; [exact Hradii |]. split.
  - intros uuid_New pickupLat pickupLng vehicleType s search. split.
    + unfold matching.FindNearestDriver. rewrite Hradii. simpl. unfold bind.
      subst search.
      destruct (matching.searchDriversInRadius config uuid_New "drivers:locations"
                  pickupLat pickupLng (matching.MaxRadiusKM config) vehicleType s)
        as [[d | e |] s1]; reflexivity.
    + subst search. unfold matching.searchDriversInRadius, bind.
      match goal with
      | |- context [roundtrip ?cmd ?exec s] =>
          destruct (roundtrip cmd exec s) as [rep s0] eqn:Hgeo;
          pose proof (roundtrip_inv _ _ _ _ _ Hgeo) as [Hlog0 _]
      end.
      exists rep.
      destruct rep as [[| g l] | |]; cbv beta iota;
        try (exists []; exact Hlog0).
      destruct (matching.claimCandidates uuid_New vehicleType (g :: l) s0)
        as [r s1] eqn:Hpass.
      apply claimCandidates_inv in Hpass.
      destruct Hpass as [delta _ _ Hlog _ _
                        | pre post c delta marker _ _ Hlog _ _ _ _ _].
      * exists delta. cbn [snd]. rewrite Hlog, Hlog0. now rewrite <- app_assoc.
      * exists (delta ++ winning (Name c) marker). cbn [snd].
        rewrite Hlog, Hlog0. now rewrite <- app_assoc.
  - intros c m. reflexivity.
Qed.

(** Whenever [FindNearestDriver] fails, the error is
    [ErrDriverNotAvailable], every radius of the sequence was queried
    exactly once, in order, and the whole keyspace (geo index, available
    set, markers) is as it was.  A removal that took a driver out of the
    available set and the write of the 30 s marker happen only together,
    as the last two commands of a call that goes on to build the driver
    it claimed: that returns the driver, or panics in [driverID[:8]] if
    the id has fewer than 8 bytes (section [Defects] runs such a call). *)
Lemma exhausted_leaves_store (config : matching.Config) (uuid_New : UUID)
    (pickupLat pickupLng : Q) (vehicleType : driver.VehicleType)
    (s s' : Redis) (r : outcome driver.Driver) :
  matching.FindNearestDriver config uuid_New pickupLat pickupLng vehicleType s
  = (r, s') ->
  exists delta,
    log s' = log s ++ delta
    /\ (forall e, r = Fail e ->
          e = ErrDriverNotAvailable
          /\ db s' = db s
          /\ forallb readonly delta = true
          /\ queried delta = matching.searchRadii config)
    /\ (forallb readonly delta = true -> exists e, r = Fail e)
    /\ (forallb readonly delta = false ->
          exists before c marker,
            delta = before ++ winning (Name c) marker
            /\ forallb readonly before = true
            /\ r = matching.foundDriver uuid_New vehicleType c
            /\ ((exists d, r = Return d)
                \/ (r = Panic /\ (String.length (Name c) < 8)%nat))
            /\ Name c ∈ smembers (db s) "drivers:available"
            /\ db s' = claimed_db (db s) (Name c) marker).
Proof.
  intros Hrun. apply FindNearestDriver_inv in Hrun.
  destruct Hrun as [delta Hr Hdb Hlog Hro Hq
                   | tried later radius results c delta marker
                       Hradii Hr Hlog Hro Hq Hgeo Hc Hin Hdb].
  - exists delta. split; [exact Hlog |]. split; [| split].
    + intros e He. rewrite Hr in He. injection He as <-. now repeat split.
    + intros _. now exists ErrDriverNotAvailable.
    + intros Hfalse. congruence.
  - assert (Hnotro : forallb readonly (delta ++ winning (Name c) marker) = false).
    { rewrite forallb_app, Hro. reflexivity. }
    assert (Hnofail : forall e, r <> Fail e).
    { intros e He. rewrite Hr in He. unfold matching.foundDriver in He.
      destruct (String.length (Name c) <? 8)%nat; discriminate. }
    exists (delta ++ winning (Name c) marker).
    split; [exact Hlog |]. split; [| split].
    + intros e He. exfalso. now apply (Hnofail e).
    + intros Htrue. congruence.
    + intros _. exists delta, c, marker.
      split; [reflexivity |]. split; [exact Hro |]. split; [exact Hr |].
      split; [| now split].
      rewrite Hr. unfold matching.foundDriver.
      destruct (Nat.ltb_spec (String.length (Name c)) 8) as [Hshort | _].
      * right. now split.
      * left. eauto.
Qed.

End RadiusSequence.

Section RadiusExamples.
Import redis props testdouble.

Lemma inverted_radii_still_search_witness :
  (matching.maxRadius inverted < matching.MaxRadiusKM inverted)%Q
  /\ (0 <= matching.MaxRadiusKM inverted)%Q
  /\ matching.searchRadii inverted = [60%Q].
Proof.
  assert (Hgt : (matching.maxRadius inverted < matching.MaxRadiusKM inverted)%Q)
    by reflexivity.
  assert (Hnn : (0 <= matching.MaxRadiusKM inverted)%Q)
    by (vm_compute; discriminate).
  destruct (inverted_radii_still_search (H := platform) inverted Hgt Hnn)
    as (Hradii & _).
  repeat split; assumption.
Defined.

(** C7 as stated fails: with an initial radius of 60 km and a maximum of
    50 km the call queries the geo index at 60 km and returns the nearest
    driver it claimed. *)
Lemma inverted_config_matches :
  let run := matching.FindNearestDriver inverted fresh_uuid 12.9716 77.5946
               "economy" (store fleet []) in
  (matching.maxRadius inverted < matching.MaxRadiusKM inverted)%Q
  /\ queried (log run.2) = [60%Q]
  /\ exists d, run.1 = Return d /\ driver.ID d = d1.
Proof.
  split; [reflexivity |]. split; [vm_compute; reflexivity |].
  eexists. split; [vm_compute; reflexivity | reflexivity].
Qed.

End RadiusExamples.


(** * Request validation in CreateRide (C5) *)

Section CreateRide.
Context `{Platform}.
Import redis props.

Lemma searchDriversInRadius_log (config : matching.Config) (uuid_New : UUID)
    (key : string) (pickupLat pickupLng radius : Q)
    (vehicleType : driver.VehicleType) (s : Redis) :
  exists rep delta,
    log (matching.searchDriversInRadius config uuid_New key pickupLat pickupLng
           radius vehicleType s).2
    = log s ++ GEORADIUS key pickupLng pickupLat
                 (matching.geoRadiusQuery config radius) rep :: delta.
Proof.
  unfold matching.searchDriversInRadius, bind.
  match goal with
  | |- context [roundtrip ?cmd ?exec s] =>
      destruct (roundtrip cmd exec s) as [rep s0] eqn:Hgeo;
      pose proof (roundtrip_inv _ _ _ _ _ Hgeo) as [Hlog0 _]
  end.
  exists rep.
  destruct rep as [[| g l] | |]; cbv beta iota;
    try (exists []; exact Hlog0).
  destruct (matching.claimCandidates uuid_New vehicleType (g :: l) s0)
    as [r s1] eqn:Hpass.
  apply claimCandidates_inv in Hpass.
  destruct Hpass as [delta _ _ Hlog _ _
                    | pre post c delta marker _ _ Hlog _ _ _ _ _].
  - exists delta. cbn [snd]. rewrite Hlog, Hlog0. now rewrite <- app_assoc.
  - exists (delta ++ winning (Name c) marker). cbn [snd].
    rewrite Hlog, Hlog0. now rewrite <- app_assoc.
Qed.

Lemma tryRadii_log (config : matching.Config) (uuid_New : UUID)
    (pickupLat pickupLng : Q) (vehicleType : driver.VehicleType)
    (radius : Q) (radii : list Q) (s : Redis) :
  exists rep delta,
    log (matching.tryRadii config uuid_New pickupLat pickupLng vehicleType
           (radius :: radii) s).2
    = log s ++ GEORADIUS "drivers:locations" pickupLng pickupLat
                 (matching.geoRadiusQuery config radius) rep :: delta.
Proof.
  destruct (searchDriversInRadius_log config uuid_New "drivers:locations"
              pickupLat pickupLng radius vehicleType s) as (rep & delta & Hlog).
  exists rep. simpl. unfold bind at 1.
  destruct (matching.searchDriversInRadius config uuid_New "drivers:locations"
              pickupLat pickupLng radius vehicleType s) as [found s1].
  cbn [snd] in Hlog.
  destruct found as [d | e |]; try (exists delta; exact Hlog).
  destruct (matching.tryRadii config uuid_New pickupLat pickupLng vehicleType
              radii s1) as [r s'] eqn:Hrest.
  apply tryRadii_inv in Hrest.
  destruct Hrest as [delta' _ _ Hlog' _ _
                    | tried later radius' results c delta' marker
                        _ _ Hlog' _ _ _ _ _ _].
  - exists (delta ++ delta'). cbn [snd]. rewrite Hlog', Hlog.
    now rewrite <- app_assoc.
  - exists (delta ++ delta' ++ winning (Name c) marker). cbn [snd].
    rewrite Hlog', Hlog. now rewrite <- app_assoc.
Qed.

(** C5 (amended).  A ride request whose vehicle class is not economy,
    premium or luxury is answered 400 "Invalid request payload" by the
    binding of the payload, before any store call: the store, its log
    included, is unchanged.  Coordinates are only required to be present
    (non-zero); they are not range-checked: for every request that binds,
    whatever its latitude, the geo query is sent with the pickup
    coordinates as given. *)
Theorem unknown_class_rejected (rideID : string) (uuid_New : UUID)
    (insertOK : bool) (req : dto.CreateRideRequest) (s : Redis) :
  driver.IsValid (dto.VehicleType req) = false ->
  handlers.CreateRide rideID uuid_New insertOK (Some req) s
  = (Return (handlers.BadRequest "Invalid request payload"), s)
  /\ forall req' : dto.CreateRideRequest,
       dto.binds req' = true ->
       exists rep rest,
         log (handlers.CreateRide rideID uuid_New insertOK (Some req') s).2
         = log s ++ GEORADIUS "drivers:locations"
                      (dto.PickupLongitude req') (dto.PickupLatitude req')
                      (matching.geoRadiusQuery handlers.matchingConfig 5.0%Q)
                      rep :: rest.
Proof.
  intros Hclass. split.
  - unfold handlers.CreateRide.
    assert (Hbinds : dto.binds req = false).
    { unfold dto.binds. unfold driver.IsValid, driver.VehicleEconomy,
        driver.VehiclePremium, driver.VehicleLuxury in Hclass.
      rewrite Hclass. apply andb_false_r. }
    now rewrite Hbinds.
  - intros req' Hbinds. unfold handlers.CreateRide. rewrite Hbinds.
    cbn [negb]. cbv beta iota. unfold bind at 1.
    set (vehicleType := if String.eqb (dto.VehicleType req') "economy" then _ else _).
    unfold matching.FindNearestDriver.
    change (matching.searchRadii handlers.matchingConfig)
      with [5.0; 10.0; 20.0; 50.0]%Q.
    destruct (tryRadii_log handlers.matchingConfig uuid_New
                (dto.PickupLatitude req') (dto.PickupLongitude req') vehicleType
                5.0%Q [10.0; 20.0; 50.0]%Q s) as (rep & delta & Hlog).
    exists rep.
    destruct (matching.tryRadii handlers.matchingConfig uuid_New
                (dto.PickupLatitude req') (dto.PickupLongitude req') vehicleType
                [5.0; 10.0; 20.0; 50.0]%Q s) as [found s1].
    cbn [snd] in Hlog.
    destruct found as [d | e |]; try (exists delta; exact Hlog).
    destruct insertOK; cbn [negb]; cbv beta iota; [| exists delta; exact Hlog].
    unfold bind.
    destruct (Set_ ("driver:" +:+ uuid_String (driver.ID d) +:+ ":current_ride")
                rideID 0%Z s1) as [ok s2] eqn:Hset.
    apply Set_inv in Hset as [Hlog2 _].
    eexists. cbv beta iota delta [ret snd].
    rewrite Hlog2, Hlog. rewrite <- app_assoc. reflexivity.
Qed.

End CreateRide.

Section CreateRideExamples.
Import redis props testdouble.

Lemma unknown_class_rejected_witness :
  driver.IsValid (dto.VehicleType rickshaw_request) = false
  /\ handlers.CreateRide "ride-1" fresh_uuid true (Some rickshaw_request)
       (store fleet [])
     = (Return (handlers.BadRequest "Invalid request payload"), store fleet []).
Proof.
  assert (Hclass : driver.IsValid (dto.VehicleType rickshaw_request) = false)
    by reflexivity.
  destruct (unknown_class_rejected "ride-1" fresh_uuid true rickshaw_request
              (store fleet []) Hclass) as (Hrejected & _).
  split; assumption.
Defined.

(** C5 as stated fails: a request picked up at latitude 91 is not
    rejected; the geo index is queried four times with that latitude and
    the request is answered 200 "requested". *)
Lemma latitude_91_reaches_store :
  let run := handlers.CreateRide "ride-1" fresh_uuid true (Some polar_request)
               (store fleet []) in
  ~ (-90 <= dto.PickupLatitude polar_request <= 90)%Q
  /\ run.1 = Return (handlers.OK_requested "ride-1" "rider-1")
  /\ queried (log run.2) = [5.0; 10.0; 20.0; 50.0]%Q
  /\ Forall (fun c => exists query rep,
                        c = GEORADIUS "drivers:locations" 77.5946 91 query rep)
            (log run.2).
Proof.
  split; [intros [_ Hle]; vm_compute in Hle; now apply Hle |].
  split; [vm_compute; reflexivity |]. split; [vm_compute; reflexivity |].
  vm_compute. repeat constructor; eauto.
Qed.

End CreateRideExamples.


(** * The surge curve in exact arithmetic *)

(** Turn the float comparisons of the goal into facts about [Q]. *)
Ltac compare_floats :=
  unfold Qgtb in *;
  repeat match goal with
         | |- context [Qltb ?a ?b] =>
             let Hc := fresh "Hcmp" in
             destruct (Qltb a b) eqn:Hc;
             [apply Qltb_true in Hc | apply Qltb_false in Hc]
         end.

Section Surge.
Import redis props.

(** The curve as a function of the ratio. *)
Lemma surge_of_ratio (config : pricing.Config) (activeRides availableDrivers : Z) :
  availableDrivers <> 0%Z ->
  let r := (inject_Z activeRides / inject_Z availableDrivers)%Q in
  let surge := pricing.CalculateSurgeBasedOnDemand config activeRides availableDrivers in
  ((r < 0.5)%Q -> (surge == 1.0)%Q)
  /\ ((0.5 <= r)%Q -> (r < 1.0)%Q -> (surge == 1.0 + 0.5 * r)%Q)
  /\ ((1.0 <= r)%Q -> (r < 2.0)%Q -> (surge == 1.5 + 1.0 * (r - 1.0))%Q)
  /\ ((2.0 <= r)%Q ->
      (surge == Qmin (2.5 + 0.25 * (r - 2.0)) (pricing.MaxSurgeMultiplier config))%Q).
Proof.
  intros Hd r surge. subst surge. unfold pricing.CalculateSurgeBasedOnDemand.
  apply Z.eqb_neq in Hd. rewrite Hd. fold r.
  compare_floats; repeat split; intros; try lra;
    match goal with
    | |- (_ == Qmin ?a ?b)%Q =>
        destruct (Q.min_spec a b) as [[? Hmin] | [? Hmin]]; rewrite Hmin; lra
    end.
Qed.

Lemma surge_at_most_max (config : pricing.Config) (activeRides availableDrivers : Z) :
  (2.5 <= pricing.MaxSurgeMultiplier config)%Q ->
  (pricing.CalculateSurgeBasedOnDemand config activeRides availableDrivers
   <= pricing.MaxSurgeMultiplier config)%Q.
Proof.
  intros Hmax. unfold pricing.CalculateSurgeBasedOnDemand.
  destruct (availableDrivers =? 0)%Z; [lra |].
  compare_floats; lra.
Qed.

Lemma surge_at_least_one (config : pricing.Config) (activeRides availableDrivers : Z) :
  (2.5 <= pricing.MaxSurgeMultiplier config)%Q ->
  (1.0 <= pricing.CalculateSurgeBasedOnDemand config activeRides availableDrivers)%Q.
Proof.
  intros Hmax. unfold pricing.CalculateSurgeBasedOnDemand.
  destruct (availableDrivers =? 0)%Z; [lra |].
  compare_floats; lra.
Qed.

End Surge.

(** * Pricing under binary64 (C3, C4, C6, C10) *)

Section Replies.
Import redis.

Lemma Get_reply (key : string) (s : Redis) :
  (Get key s).1
  = match outages s with
    | true :: _ => Failure
    | _ => match db s !! key with
           | Some (VString v _) => Reply v
           | None => Nil
           | Some _ => Failure
           end
    end.
Proof.
  unfold Get, roundtrip. now destruct (outages s) as [| [|] rest].
Qed.

End Replies.

Section Curve64.
Import redis binary64.

(** C4.  [CalculateSurgeBasedOnDemand] is the piecewise curve of the
    ratio r = float64(activeRides) / float64(availableDrivers), computed in
    binary64: the maximum surge when there is no available driver; 1.0
    for r < 0.5; 1.0 + 0.5 r for 0.5 <= r < 1; 1.5 + 1.0 (r - 1) for
    1 <= r < 2; and 2.5 + 0.25 (r - 2) for r >= 2, replaced by the maximum
    surge when it exceeds it.  So (5, 20) gives 1.0, (40, 20) gives 2.5,
    or the maximum surge if that is below 2.5, and (100, 0) gives the
    maximum. *)
Theorem surge_curve (config : Config) (activeRides availableDrivers : Z) :
  let r := (of_int activeRides / of_int availableDrivers)%float in
  let surge := CalculateSurgeBasedOnDemand config activeRides availableDrivers in
  (availableDrivers = 0%Z -> surge = MaxSurgeMultiplier config)
  /\ (availableDrivers <> 0%Z ->
      ((r <? 0.5)%float = true -> surge = 1.0%float)
      /\ ((0.5 <=? r)%float = true -> (r <? 1.0)%float = true ->
          surge = (1.0 + 0.5 * r)%float)
      /\ ((1.0 <=? r)%float = true -> (r <? 2.0)%float = true ->
          surge = (1.5 + 1.0 * (r - 1.0))%float)
      /\ ((2.0 <=? r)%float = true ->
          let tail := (2.5 + 0.25 * (r - 2.0))%float in
          surge = if (MaxSurgeMultiplier config <? tail)%float
                  then MaxSurgeMultiplier config else tail))
  /\ CalculateSurgeBasedOnDemand config 5 20 = 1.0%float
  /\ CalculateSurgeBasedOnDemand config 40 20
     = (if (MaxSurgeMultiplier config <? 2.5)%float
        then MaxSurgeMultiplier config else 2.5%float)
  /\ CalculateSurgeBasedOnDemand config 100 0 = MaxSurgeMultiplier config.
Proof.
  intros r surge. split; [| split; [| split; [| split]]].
  - intros ->. reflexivity.
  - intros Hd. subst surge. unfold CalculateSurgeBasedOnDemand.
    apply Z.eqb_neq in Hd. rewrite Hd. fold r.
    rewrite (mul_comm 0.5 r), (mul_comm 1.0 (r - 1.0)), (mul_comm 0.25 (r - 2.0)).
    split; [| split; [| split]].
    + now intros ->.
    + intros Hlow Hhigh. apply leb_ltb_false in Hlow. now rewrite Hlow, Hhigh.
    + intros Hlow Hhigh. apply leb_ltb_false in Hlow.
      assert (Hhalf : (r <? 0.5)%float = false).
      { destruct (r <? 0.5)%float eqn:Hlt; [| reflexivity].
        rewrite (ltb_trans r 0.5 1.0 Hlt eq_refl) in Hlow. discriminate. }
      now rewrite Hhalf, Hlow, Hhigh.
    + intros Hlow. cbv zeta. apply leb_ltb_false in Hlow.
      assert (Hone : (r <? 1.0)%float = false).
      { destruct (r <? 1.0)%float eqn:Hlt; [| reflexivity].
        rewrite (ltb_trans r 1.0 2.0 Hlt eq_refl) in Hlow. discriminate. }
      assert (Hhalf : (r <? 0.5)%float = false).
      { destruct (r <? 0.5)%float eqn:Hlt; [| reflexivity].
        rewrite (ltb_trans r 0.5 1.0 Hlt eq_refl) in Hone. discriminate. }
      now rewrite Hhalf, Hone, Hlow.
  - reflexivity.
  - reflexivity.
  - reflexivity.
Qed.

End Curve64.

Section Cache64.
Context `{Platform}.
Import redis props binary64.

(** What [GetSurgeMultiplier] returns, in terms of the reply to its GET. *)
Lemma GetSurgeMultiplier_value
    (config : Config) (region : string) (s : Redis) :
  GetSurgeMultiplier config region s
  = (match (Get ("surge:" +:+ region) s).1 with
     | Reply text =>
         match strconv_ParseFloat text with
         | Some val =>
             if (MaxSurgeMultiplier config <? val)%float
             then MaxSurgeMultiplier config
             else if (val <? MinSurgeMultiplier config)%float
                  then MinSurgeMultiplier config
                  else val
         | None => 1.0%float
         end
     | _ => 1.0%float
     end, (Get ("surge:" +:+ region) s).2).
Proof.
  unfold GetSurgeMultiplier, bind.
  destruct (Get ("surge:" +:+ region) s) as [[text | |] s1]; try reflexivity.
  cbn [fst snd]. destruct (strconv_ParseFloat text) as [val |]; [| reflexivity].
  destruct (MaxSurgeMultiplier config <? val)%float; [reflexivity |].
  now destruct (val <? MinSurgeMultiplier config)%float.
Qed.

(** The two comparisons of the read path put a number into the band, and
    leave a number of the band as it is. *)
Lemma clamped_in_band (low high val : float) :
  (low <=? high)%float = true -> is_nan val = false ->
  let clamped := if (high <? val)%float then high
                 else if (val <? low)%float then low else val in
  (low <=? clamped)%float = true /\ (clamped <=? high)%float = true
  /\ ((low <=? val)%float = true -> (val <=? high)%float = true ->
      clamped = val).
Proof.
  intros Hband Hval clamped. subst clamped.
  destruct (leb_not_nan _ _ Hband) as [Hlow Hhigh].
  destruct (high <? val)%float eqn:Habove.
  - split; [exact Hband |]. split; [now apply leb_refl' |].
    intros _ Hle. apply leb_ltb_false in Hle. congruence.
  - destruct (val <? low)%float eqn:Hbelow.
    + split; [now apply leb_refl' |]. split; [exact Hband |].
      intros Hle _. apply leb_ltb_false in Hle. congruence.
    + split; [now apply ltb_false_leb' |]. split; [now apply ltb_false_leb' |].
      reflexivity.
Qed.


(** A cached text that parses to NaN comes back as NaN: both comparisons
    are false. *)
Lemma cached_nan_is_returned
    (config : Config) (region : string) (s : Redis) (text : string)
    (val : float) :
  (Get ("surge:" +:+ region) s).1 = Reply text ->
  strconv_ParseFloat text = Some val -> is_nan val = true ->
  (GetSurgeMultiplier config region s).1 = val.
Proof.
  intros Hget Hparse Hnan. rewrite GetSurgeMultiplier_value. cbn [fst].
  now rewrite Hget, Hparse, (ltb_nan_r _ val Hnan), (ltb_nan_l val _ Hnan).
Qed.

(** C10.  When the cached surge of a region cannot be read (the read
    fails, the key is absent or holds something else than a string, or
    its text is not a number), [GetSurgeMultiplier] returns 1.0 as it is,
    and that is the multiplier [CalculateFare] applies; with a minimum
    surge above 1.0 it lies below the configured band.  A cached value
    that is read goes through the two comparisons: the maximum if it is
    above it, else the minimum if it is below it, else the value itself;
    so a number comes back within the band when minimum <= maximum, and
    a number of the band comes back as it is. *)
Theorem surge_default_unclamped
    (config : Config) (region : string) (s : Redis) :
  ((exists rest, outages s = true :: rest)
   \/ db s !! ("surge:" +:+ region) = None
   \/ (exists members, db s !! ("surge:" +:+ region) = Some (VSet members))
   \/ (exists points, db s !! ("surge:" +:+ region) = Some (VGeo points))
   \/ (exists text ttl,
         db s !! ("surge:" +:+ region) = Some (VString text ttl)
         /\ strconv_ParseFloat text = None)) ->
  (GetSurgeMultiplier config region s).1 = 1.0%float
  /\ (forall (vehicleType : driver.VehicleType) (distanceKM : float)
        (durationMinutes : Z),
        let fare := (CalculateFare config vehicleType distanceKM
                       durationMinutes region s).1 in
        fb_SurgeMultiplier fare = 1.0%float
        /\ fb_Total fare = (fb_Subtotal fare * 1.0)%float)
  /\ ((1.0 <? MinSurgeMultiplier config)%float = true ->
      ((GetSurgeMultiplier config region s).1
       <? MinSurgeMultiplier config)%float = true)
  /\ forall (s2 : Redis) (text : string) (ttl : Duration) (val : float),
       (forall rest, outages s2 <> true :: rest) ->
       db s2 !! ("surge:" +:+ region) = Some (VString text ttl) ->
       strconv_ParseFloat text = Some val ->
       let read := (GetSurgeMultiplier config region s2).1 in
       ((MaxSurgeMultiplier config <? val)%float = true ->
        read = MaxSurgeMultiplier config)
       /\ ((MaxSurgeMultiplier config <? val)%float = false ->
           (val <? MinSurgeMultiplier config)%float = true ->
           read = MinSurgeMultiplier config)
       /\ ((MaxSurgeMultiplier config <? val)%float = false ->
           (val <? MinSurgeMultiplier config)%float = false ->
           read = val)
       /\ ((MinSurgeMultiplier config <=? MaxSurgeMultiplier config)%float = true ->
           is_nan val = false ->
           (MinSurgeMultiplier config <=? read)%float = true
           /\ (read <=? MaxSurgeMultiplier config)%float = true
           /\ ((MinSurgeMultiplier config <=? val)%float = true ->
               (val <=? MaxSurgeMultiplier config)%float = true ->
               read = val)).
Proof.
  intros Hunread.
  assert (Hone : (GetSurgeMultiplier config region s).1 = 1.0%float).
  { rewrite GetSurgeMultiplier_value. cbn [fst]. rewrite Get_reply.
    destruct Hunread
      as [(rest & ->) | [-> | [(members & ->) | [(points & ->)
                                                | (text & ttl & -> & Hparse)]]]].
    - reflexivity.
    - now destruct (outages s) as [| [|] rest].
    - now destruct (outages s) as [| [|] rest].
    - now destruct (outages s) as [| [|] rest].
    - destruct (outages s) as [| [|] rest]; now rewrite ?Hparse. }
  split; [exact Hone |]. split; [| split].
  - intros vehicleType distanceKM durationMinutes.
    unfold CalculateFare, bind.
    destruct (GetSurgeMultiplier config region s) as [m s1].
    cbn [fst] in Hone. subst m. cbn. split; reflexivity.
  - intros Hfloor. rewrite Hone. exact Hfloor.
  - intros s2 text ttl val Hup Hkey Hparse read.
    assert (Hval : read = if (MaxSurgeMultiplier config <? val)%float
                          then MaxSurgeMultiplier config
                          else if (val <? MinSurgeMultiplier config)%float
                               then MinSurgeMultiplier config
                               else val).
    { subst read. rewrite GetSurgeMultiplier_value. cbn [fst].
      rewrite Get_reply, Hkey.
      destruct (outages s2) as [| [|] rest]; rewrite ?Hparse; try reflexivity.
      now destruct (Hup rest). }
    split; [now intros Habove; rewrite Hval, Habove |].
    split; [now intros Habove Hbelow; rewrite Hval, Habove, Hbelow |].
    split; [now intros Habove Hbelow; rewrite Hval, Habove, Hbelow |].
    intros Hband Hnum. rewrite Hval.
    exact (clamped_in_band _ _ val Hband Hnum).
Qed.

End Cache64.

Section Fares64.
Import redis binary64.

(** C6.  [EstimateFare] is base[class] + distance x perKm[class] +
    float64(minutes) x perMinute[class] in binary64, each rate being the
    entry of the class in the configured map (zero if it has none);
    nothing else is added, so with finite rates a trip of zero distance
    and zero minutes costs the base fare.  With the test configuration
    (economy: 50, 10 per km, 2 per minute), 10 km in 20 minutes cost 190
    and 0 km in 10 minutes cost 70. *)
Theorem estimate_fare_formula :
  (forall (config : Config) (vehicleType : driver.VehicleType)
     (distanceKM : float) (estimatedMinutes : Z),
      EstimateFare config vehicleType distanceKM estimatedMinutes
      = (index (BaseFare config) vehicleType
         + distanceKM * index (PerKMRate config) vehicleType
         + of_int estimatedMinutes * index (PerMinuteRate config) vehicleType)%float)
  /\ (forall (config : Config) (vehicleType : driver.VehicleType),
        is_nan (index (BaseFare config) vehicleType) = false ->
        is_finite (index (PerKMRate config) vehicleType) = true ->
        is_finite (index (PerMinuteRate config) vehicleType) = true ->
        (EstimateFare config vehicleType 0 0
         =? index (BaseFare config) vehicleType)%float = true)
  /\ (index (BaseFare getTestConfig) driver.VehicleEconomy = 50.0%float
      /\ index (PerKMRate getTestConfig) driver.VehicleEconomy = 10.0%float
      /\ index (PerMinuteRate getTestConfig) driver.VehicleEconomy = 2.0%float)
  /\ EstimateFare getTestConfig driver.VehicleEconomy 10.0 20 = 190.0%float
  /\ EstimateFare getTestConfig driver.VehicleEconomy 0 10 = 70.0%float
  /\ EstimateFare getTestConfig driver.VehicleEconomy 0 0 = 50.0%float.
Proof.
  split; [| split; [| split; [| split; [| split]]]].
  - reflexivity.
  - intros config vehicleType Hbase Hkm Hminute. unfold EstimateFare. cbv zeta.
    change (of_int 0) with 0%float.
    destruct (zero_mul_finite _ Hkm) as [s1 Hz1].
    destruct (zero_mul_finite _ Hminute) as [s2 Hz2].
    destruct (add_zero_r _ _ s1 Hbase Hz1) as [Hnan1 Heq1].
    destruct (add_zero_r _ _ s2 Hnan1 Hz2) as [_ Heq2].
    exact (eqb_trans_number _ _ _ Heq2 Heq1).
  - repeat split; vm_compute; reflexivity.
  - vm_compute. reflexivity.
  - vm_compute. reflexivity.
  - vm_compute. reflexivity.
Qed.

End Fares64.

Section PricingExamples.
Import redis props testdouble samples binary64.



Lemma estimate_fare_formula_witness :
  is_nan (index (BaseFare getTestConfig) driver.VehicleEconomy) = false
  /\ is_finite (index (PerKMRate getTestConfig) driver.VehicleEconomy) = true
  /\ is_finite (index (PerMinuteRate getTestConfig) driver.VehicleEconomy) = true
  /\ (EstimateFare getTestConfig driver.VehicleEconomy 0 0
      =? index (BaseFare getTestConfig) driver.VehicleEconomy)%float = true.
Proof.
  destruct estimate_fare_formula as (_ & Hzero & _).
  split; [reflexivity |]. split; [reflexivity |]. split; [reflexivity |].
  apply Hzero; reflexivity.
Defined.

(** Nothing is cached for the region: the multiplier is 1.0, below the
    minimum surge of 1.5. *)
Lemma surge_default_unclamped_witness :
  db (store surging []) !! ("surge:" +:+ "mysuru") = None
  /\ (GetSurgeMultiplier high_floor "mysuru" (store surging [])).1
     = 1.0%float
  /\ ((GetSurgeMultiplier high_floor "mysuru" (store surging [])).1
      <? MinSurgeMultiplier high_floor)%float = true.
Proof.
  assert (Habsent : db (store surging []) !! ("surge:" +:+ "mysuru") = None)
    by reflexivity.
  destruct (surge_default_unclamped (H := platform) high_floor "mysuru"
              (store surging []) (or_intror (or_introl Habsent)))
    as (Hone & _ & Hbelow & _).
  split; [exact Habsent |]. split; [exact Hone |].
  apply Hbelow. reflexivity.
Defined.

(** The cached text NaN is a number to [strconv.ParseFloat]: the
    multiplier is NaN, in no interval. *)
Lemma cached_nan_example :
  is_nan (GetSurgeMultiplier getTestConfig "bengaluru"
            (store undefined_surge [])).1 = true
  /\ is_nan (fb_Total (CalculateFare getTestConfig "economy" 10 20
                         "bengaluru" (store undefined_surge [])).1) = true.
Proof. split; vm_compute; reflexivity. Qed.

(** Where rounding shows: 0.1 x 10 is 1.0, so 0.1 km and 1 km give four
    radii; float64(2^54 - 1) is 2^54, so the ratio of 2^54 - 1 to 2^55
    is 0.5; and 50 + 3.32 x 10 + 7 x 2 is not 97.2. *)
Lemma binary64_rounds :
  length (searchRadii {| MaxRadiusKM := 0x1.999999999999ap-4%float;
                         MaxExpandedRadius := 1.0%float;
                         MaxTimeout := 30%Z; MaxCandidates := 50%Z |}) = 4%nat
  /\ CalculateSurgeBasedOnDemand getTestConfig (2 ^ 54 - 1) (2 ^ 55) = 1.25%float
  /\ EstimateFare getTestConfig driver.VehicleEconomy 0x1.a8f5c28f5c28fp+1 7
     = 0x1.84cccccccccccp+6%float
  /\ (EstimateFare getTestConfig driver.VehicleEconomy 0x1.a8f5c28f5c28fp+1 7
      <? 0x1.84ccccccccccdp+6)%float = true.
Proof. repeat split; vm_compute; reflexivity. Qed.

End PricingExamples.


(** * How much of the configuration space the surge properties cover *)

Section SurgeThresholds.

(** A ratio just below 2: (8q - 1) / 4q. *)
Lemma near_two (q : positive) :
  let r := (inject_Z (8 * Zpos q - 1) / inject_Z (4 * Zpos q))%Q in
  (1.0 <= r)%Q /\ (r < 2.0)%Q /\ (r == 2 - (1 # (4 * q)))%Q.
Proof.
  intros r.
  assert (Hr : (r == (8 * Zpos q - 1) # (4 * q))%Q).
  { subst r. rewrite (Qmake_Qdiv (8 * Zpos q - 1) (4 * q)). reflexivity. }
  repeat split.
  - rewrite Hr. unfold Qle. simpl. lia.
  - rewrite Hr. unfold Qlt. simpl. lia.
  - rewrite Hr. unfold Qeq, Qminus, Qplus, Qopp. simpl. lia.
Qed.

(** Below a maximum surge of 2.5 some counts give a multiplier above the
    maximum, and one more active ride brings it back down to the maximum. *)
Lemma surge_cap_needed (config : pricing.Config) :
  (pricing.MaxSurgeMultiplier config < 2.5)%Q ->
  exists a d : Z,
    (0 < d)%Z
    /\ (pricing.MaxSurgeMultiplier config
        < pricing.CalculateSurgeBasedOnDemand config a d)%Q
    /\ (pricing.CalculateSurgeBasedOnDemand config (a + 1) d
        <= pricing.MaxSurgeMultiplier config)%Q.
Proof.
  intros Hcap.
  destruct (pricing.MaxSurgeMultiplier config) as [p q] eqn:Hmax.
  exists (8 * Zpos q - 1)%Z, (4 * Zpos q)%Z.
  destruct (near_two q) as (H1 & H2 & Hr).
  split; [lia |]. split.
  - destruct (surge_of_ratio config (8 * Z.pos q - 1) (4 * Z.pos q))
      as (_ & _ & Hmid & _); [lia |].
    rewrite (Hmid H1 H2). rewrite Hr.
    assert (Hgap : (p # q <= 2.5 - (1 # (2 * q)))%Q).
    { unfold Qlt in Hcap. unfold Qle, Qminus, Qplus, Qopp. simpl in *. nia. }
    assert (Hpos : ((1 # (4 * q)) < (1 # (2 * q)))%Q).
    { unfold Qlt. simpl. lia. }
    lra.
  - destruct (surge_of_ratio config (8 * Z.pos q - 1 + 1) (4 * Z.pos q))
      as (_ & _ & _ & Htail); [lia |].
    rewrite Htail.
    + rewrite Hmax. apply Q.le_min_r.
    + replace (8 * Z.pos q - 1 + 1)%Z with (2 * (4 * Z.pos q))%Z by lia.
      rewrite inject_Z_mult.
      apply Qle_shift_div_l.
      * change 0%Q with (inject_Z 0). rewrite <- Zlt_Qlt. lia.
      * change (inject_Z 2) with 2%Q. lra.
Qed.

(** The computed multiplier stays in [minimum, maximum] for all counts
    exactly when minimum <= 1.0 and maximum >= 2.5. *)
Lemma surge_band_thresholds (config : pricing.Config) :
  (forall activeRides availableDrivers : Z,
      (pricing.MinSurgeMultiplier config
       <= pricing.CalculateSurgeBasedOnDemand config activeRides availableDrivers
       <= pricing.MaxSurgeMultiplier config)%Q)
  <-> (pricing.MinSurgeMultiplier config <= 1.0)%Q
      /\ (2.5 <= pricing.MaxSurgeMultiplier config)%Q.
Proof.
  split.
  - intros Hband. split.
    + destruct (Hband 0%Z 1%Z) as [Hlow _].
      now change (pricing.CalculateSurgeBasedOnDemand config 0 1) with 1.0%Q in Hlow.
    + apply Qnot_lt_le. intros Hcap.
      destruct (surge_cap_needed config Hcap) as (a & d & _ & Habove & _).
      destruct (Hband a d) as [_ Hhigh]. lra.
  - intros [Hmin Hmax] activeRides availableDrivers.
    pose proof (surge_at_most_max config activeRides availableDrivers Hmax).
    pose proof (surge_at_least_one config activeRides availableDrivers Hmax).
    lra.
Qed.

End SurgeThresholds.

(** * The examples of the test suite under binary64 *)

Section Binary64Examples.

Lemma binary64_estimates :
  binary64.EstimateFare binary64.getTestConfig driver.VehicleEconomy 10 20
  = 190%float
  /\ binary64.EstimateFare binary64.getTestConfig driver.VehiclePremium 15 30
     = 415%float
  /\ binary64.EstimateFare binary64.getTestConfig driver.VehicleLuxury 20 45
     = 925%float
  /\ binary64.EstimateFare binary64.getTestConfig driver.VehicleEconomy 0 10
     = 70%float
  /\ binary64.EstimateFare binary64.getTestConfig driver.VehicleEconomy 0 0
     = 50%float.
Proof. repeat split; vm_compute; reflexivity. Qed.

Lemma binary64_surges :
  binary64.CalculateSurgeBasedOnDemand binary64.getTestConfig 5 20 = 1%float
  /\ binary64.CalculateSurgeBasedOnDemand binary64.getTestConfig 40 20
     = 2.5%float
  /\ binary64.CalculateSurgeBasedOnDemand binary64.getTestConfig 100 0
     = 3%float
  /\ binary64.CalculateSurgeBasedOnDemand binary64.getTestConfig 50 0
     = 3%float
  /\ binary64.CalculateSurgeBasedOnDemand binary64.getTestConfig 100 10
     = 3%float.
Proof. repeat split; vm_compute; reflexivity. Qed.

End Binary64Examples.

(** * An id shorter than 8 bytes *)

Section ShortIds.
Import redis props testdouble.

(** The claim is taken, then [driverID[:8]] panics: nothing is returned
    and the id is out of the available set. *)
Lemma short_id_panics :
  let run := matching.claimCandidates fresh_uuid "economy"
               [located shorty 77.60 12.98 1.5] (store walkin_fleet []) in
  run.1 = Panic
  /\ (shorty ∈ smembers walkin_fleet "drivers:available")
  /\ (shorty ∉ smembers (db run.2) "drivers:available")
  /\ (db run.2 !! matching.currentRideKey shorty
      = Some (VString "claiming" (30 * Second)%Z)).
Proof.
  cbv zeta. split; [vm_compute; reflexivity |].
  split; [| split].
  - match goal with |- ?P => apply (@bool_decide_unpack P _) end.
    vm_compute. exact I.
  - match goal with |- ?P => apply (@bool_decide_unpack P _) end.
    vm_compute. exact I.
  - vm_compute. reflexivity.
Qed.

End ShortIds.


(** * Dispatch when every command gets through *)

Section FaultFree.
Context `{Platform}.
Import redis props dispatch.
Variables (uuid_New : UUID) (vehicleType : driver.VehicleType).

Lemma roundtrip_up {A : Type} (cmd : reply A -> Command)
    (exec : gmap string Value -> reply A * gmap string Value) (s : Redis) :
  outages s = [] ->
  roundtrip cmd exec s
  = ((exec (db s)).1,
     {| db := (exec (db s)).2; outages := [];
        log := log s ++ [cmd (exec (db s)).1] |}).
Proof.
  intros Hup. unfold roundtrip. rewrite Hup.
  now destruct (exec (db s)).
Qed.

Lemma srem_reply (key member : string) (d : gmap string Value) :
  ((srem key member d).1 = Reply 1%Z /\ member ∈ smembers d key)
  \/ ((forall n, (srem key member d).1 = Reply n -> n = 0%Z)
      /\ (member ∉ smembers d key)
      /\ (srem key member d).2 = d).
Proof.
  unfold srem, smembers.
  destruct (d !! key) as [[v ttl | members | points]|].
  - right. cbn. split; [discriminate |]. split; [apply not_elem_of_empty | reflexivity].
  - destruct (decide (member ∈ members)) as [Hin | Hnot].
    + left. now split.
    + right. cbn. split; [now intros n [= <-] |]. now split.
  - right. cbn. split; [discriminate |]. split; [apply not_elem_of_empty | reflexivity].
  - right. cbn. split; [now intros n [= <-] |].
    split; [apply not_elem_of_empty | reflexivity].
Qed.

(** After the current-ride GET let the candidate through: the removal
    decides. *)
Lemma claim_step_up (g : GeoLocation) (results : list GeoLocation) (s1 : Redis) :
  outages s1 = [] ->
  (forall s2, outages s2 = [] -> db s2 = db s1 ->
     exists s',
       matching.claimCandidates uuid_New vehicleType results s2
       = ((pass_result uuid_New vehicleType (db s1) results).1, s')
       /\ outages s' = []
       /\ db s' = (pass_result uuid_New vehicleType (db s1) results).2) ->
  let outcome :=
    if bool_decide (Name g ∈ smembers (db s1) "drivers:available")
    then (matching.foundDriver uuid_New vehicleType g,
          claimed_db (db s1) (Name g) (Reply tt))
    else pass_result uuid_New vehicleType (db s1) results in
  exists s',
    (removed <- SRem "drivers:available" (Name g) ;;
     match removed with
     | Reply n =>
         if (n =? 0)%Z
         then matching.claimCandidates uuid_New vehicleType results
         else
           _ <- Set_ (matching.currentRideKey (Name g)) "claiming" (30 * Second)%Z ;;
           ret (matching.foundDriver uuid_New vehicleType g)
     | _ => matching.claimCandidates uuid_New vehicleType results
     end) s1 = (outcome.1, s')
    /\ outages s' = []
    /\ db s' = outcome.2.
Proof.
  intros Hup IH outcome. subst outcome. unfold bind at 1. unfold SRem at 1.
  rewrite (roundtrip_up _ _ s1 Hup).
  set (s2 := {| db := (srem "drivers:available" (Name g) (db s1)).2;
                outages := []; log := _ |}).
  destruct (srem_reply "drivers:available" (Name g) (db s1))
    as [[Hone Hin] | (Hzero & Hnotin & Hsame)].
  - rewrite Hone. cbn [Z.eqb]. unfold bind. unfold Set_ at 1.
    rewrite (roundtrip_up _ _ s2 eq_refl).
    rewrite bool_decide_eq_true_2 by exact Hin.
    eexists. split; [reflexivity |]. split; reflexivity.
  - rewrite bool_decide_eq_false_2 by exact Hnotin.
    specialize (IH s2 eq_refl Hsame).
    destruct ((srem "drivers:available" (Name g) (db s1)).1) as [n | |] eqn:Hrep;
      try exact IH.
    rewrite (Hzero n eq_refl). exact IH.
Qed.

Lemma pass_result_cons (d : gmap string Value) (g : GeoLocation)
    (results : list GeoLocation) :
  pass_result uuid_New vehicleType d (g :: results)
  = if claimable d (Name g)
    then (matching.foundDriver uuid_New vehicleType g,
          claimed_db d (Name g) (Reply tt))
    else pass_result uuid_New vehicleType d results.
Proof.
  unfold pass_result. cbn [List.find]. now destruct (claimable d (Name g)).
Qed.

Lemma claimCandidates_up (results : list GeoLocation) :
  forall s : Redis,
    outages s = [] ->
    exists s',
      matching.claimCandidates uuid_New vehicleType results s
      = ((pass_result uuid_New vehicleType (db s) results).1, s')
      /\ outages s' = []
      /\ db s' = (pass_result uuid_New vehicleType (db s) results).2.
Proof.
  induction results as [| g results IH]; intros s Hup.
  - exists s. now repeat split.
  - cbn [matching.claimCandidates]. unfold bind at 1.
    unfold Get at 1. rewrite (roundtrip_up _ _ s Hup). cbn [fst snd].
    set (s1 := {| db := db s; outages := []; log := _ |}).
    assert (IH' : forall s2, outages s2 = [] -> db s2 = db s ->
              exists s',
                matching.claimCandidates uuid_New vehicleType results s2
                = ((pass_result uuid_New vehicleType (db s) results).1, s')
                /\ outages s' = []
                /\ db s' = (pass_result uuid_New vehicleType (db s) results).2).
    { intros s2 Hup2 Hdb2. rewrite <- Hdb2. now apply IH. }
    pose proof (claim_step_up g results s1 eq_refl IH') as Hstep.
    cbv zeta in Hstep. change (db s1) with (db s) in Hstep.
    rewrite pass_result_cons.
    assert (Hcl : claimable (db s) (Name g)
                  = match db s !! matching.currentRideKey (Name g) with
                    | Some (VString (String _ _) _) => false
                    | _ => bool_decide (Name g ∈ smembers (db s) "drivers:available")
                    end) by reflexivity.
    destruct (db s !! matching.currentRideKey (Name g))
      as [[[| a b] ttl | members | points]|] eqn:Hkey; rewrite Hcl;
      cbv beta iota; try exact Hstep.
    apply (IH' s1 eq_refl eq_refl).
Qed.

Variables (config : matching.Config) (pickupLat pickupLng : Q).

Lemma foundDriver_not_fail (c : GeoLocation) (e : error) :
  matching.foundDriver uuid_New vehicleType c <> Fail e.
Proof.
  unfold matching.foundDriver.
  now destruct (String.length (Name c) <? 8)%nat.
Qed.

Lemma searchDriversInRadius_up (radius : Q) (s : Redis) :
  outages s = [] ->
  exists s',
    matching.searchDriversInRadius config uuid_New "drivers:locations"
      pickupLat pickupLng radius vehicleType s
    = (match listed config (db s) pickupLat pickupLng radius with
       | Reply results => (pass_result uuid_New vehicleType (db s) results).1
       | _ => Fail ErrSearchFailed
       end, s')
    /\ outages s' = []
    /\ db s' = match listed config (db s) pickupLat pickupLng radius with
               | Reply results => (pass_result uuid_New vehicleType (db s) results).2
               | _ => db s
               end.
Proof.
  intros Hup. unfold matching.searchDriversInRadius, bind.
  rewrite (roundtrip_up _ _ s Hup). cbn [fst snd].
  change (match db s !! "drivers:locations" with
          | Some (VGeo points) =>
              georadius points pickupLng pickupLat
                (matching.geoRadiusQuery config radius)
          | Some _ => Failure
          | None => Reply []
          end) with (listed config (db s) pickupLat pickupLng radius).
  set (s0 := {| db := db s; outages := []; log := _ |}).
  destruct (listed config (db s) pickupLat pickupLng radius) as [[| g l] | |].
  - exists s0. now repeat split.
  - apply (claimCandidates_up (g :: l) s0 eq_refl).
  - exists s0. now repeat split.
  - exists s0. now repeat split.
Qed.

Lemma tryRadii_up (radii : list Q) :
  forall s : Redis,
    outages s = [] ->
    exists s',
      matching.tryRadii config uuid_New pickupLat pickupLng vehicleType radii s
      = ((dispatch_result config uuid_New pickupLat pickupLng vehicleType
            (db s) radii).1, s')
      /\ outages s' = []
      /\ db s' = (dispatch_result config uuid_New pickupLat pickupLng vehicleType
                   (db s) radii).2.
Proof.
  induction radii as [| radius radii IH]; intros s Hup.
  - exists s. now repeat split.
  - cbn [matching.tryRadii]. unfold bind at 1.
    destruct (searchDriversInRadius_up radius s Hup) as (s1 & -> & Hup1 & Hdb1).
    unfold dispatch_result. cbn [firstClaimable].
    destruct (listed config (db s) pickupLat pickupLng radius) as [results | |].
    + unfold pass_result in *.
      destruct (List.find (fun c => claimable (db s) (Name c)) results) as [c |].
      * cbn [fst snd] in *.
        destruct (matching.foundDriver uuid_New vehicleType c) as [d | e |] eqn:Hd.
        -- exists s1. now repeat split.
        -- now apply foundDriver_not_fail in Hd.
        -- exists s1. now repeat split.
      * cbn [fst snd] in *. rewrite <- Hdb1. now apply IH.
    + cbn [fst snd] in *. rewrite <- Hdb1. now apply IH.
    + cbn [fst snd] in *. rewrite <- Hdb1. now apply IH.
Qed.

(** X1.  When every command gets through, the claim pass takes the first
    candidate of the list that has no non-empty current-ride marker and
    is in the available set, whatever follows it; it leaves the keyspace
    as it was if there is none. *)
Theorem claim_pass_fault_free (results : list GeoLocation) (s : Redis) :
  outages s = [] ->
  let run := matching.claimCandidates uuid_New vehicleType results s in
  run.1 = match List.find (fun c => claimable (db s) (Name c)) results with
          | Some c => matching.foundDriver uuid_New vehicleType c
          | None => Fail ErrDriverNotAvailable
          end
  /\ db run.2 = match List.find (fun c => claimable (db s) (Name c)) results with
                | Some c => claimed_db (db s) (Name c) (Reply tt)
                | None => db s
                end
  /\ outages run.2 = [].
Proof.
  intros Hup run. subst run.
  destruct (claimCandidates_up results s Hup) as (s' & -> & Hup' & Hdb).
  cbn [fst snd]. rewrite Hdb. unfold pass_result.
  now destruct (List.find (fun c => claimable (db s) (Name c)) results).
Qed.

(** X2.  When every command gets through, [FindNearestDriver] returns the
    first claimable candidate of the first radius of the sequence whose
    geo query lists one, and "driver not available" with the keyspace
    unchanged if no radius lists one. *)
Theorem dispatch_fault_free (s : Redis) :
  outages s = [] ->
  let run := matching.FindNearestDriver config uuid_New pickupLat pickupLng
               vehicleType s in
  run.1 = match firstClaimable config (db s) pickupLat pickupLng
                  (matching.searchRadii config) with
          | Some c => matching.foundDriver uuid_New vehicleType c
          | None => Fail ErrDriverNotAvailable
          end
  /\ db run.2 = match firstClaimable config (db s) pickupLat pickupLng
                        (matching.searchRadii config) with
                | Some c => claimed_db (db s) (Name c) (Reply tt)
                | None => db s
                end.
Proof.
  intros Hup run. subst run. unfold matching.FindNearestDriver.
  destruct (tryRadii_up (matching.searchRadii config) s Hup)
    as (s' & -> & Hup' & Hdb).
  cbn [fst snd]. rewrite Hdb. unfold dispatch_result.
  now destruct (firstClaimable config (db s) pickupLat pickupLng
                  (matching.searchRadii config)).
Qed.

End FaultFree.

Section FaultFreeExamples.
Import redis props dispatch testdouble.

Lemma claim_pass_fault_free_witness :
  outages (store busy_fleet []) = []
  /\ (matching.claimCandidates fresh_uuid "economy" candidates
        (store busy_fleet [])).1
     = matching.foundDriver fresh_uuid "economy" (located d2 77.70 13.10 25.9).
Proof.
  destruct (claim_pass_fault_free fresh_uuid "economy" candidates
              (store busy_fleet []) eq_refl) as (Hres & _).
  split; [reflexivity |]. rewrite Hres. reflexivity.
Defined.

End FaultFreeExamples.

(** * Dispatch when the store cannot be reached *)

Section Outages.
Context `{Platform}.
Import redis props.

Lemma roundtrip_down {A : Type} (cmd : reply A -> Command)
    (exec : gmap string Value -> reply A * gmap string Value) (s : Redis)
    (rest : list bool) :
  outages s = true :: rest ->
  roundtrip cmd exec s
  = (Failure, {| db := db s; outages := rest; log := log s ++ [cmd Failure] |}).
Proof. intros Hdown. unfold roundtrip. now rewrite Hdown. Qed.

Lemma tryRadii_down (config : matching.Config) (uuid_New : UUID)
    (pickupLat pickupLng : Q) (vehicleType : driver.VehicleType)
    (radii : list Q) :
  forall (s : Redis) (rest : list bool),
    outages s = repeat true (length radii) ++ rest ->
    matching.tryRadii config uuid_New pickupLat pickupLng vehicleType radii s
    = (Fail ErrDriverNotAvailable,
       {| db := db s; outages := rest;
          log := log s
                 ++ List.map (fun radius =>
                                GEORADIUS "drivers:locations" pickupLng pickupLat
                                  (matching.geoRadiusQuery config radius) Failure)
                             radii |}).
Proof.
  induction radii as [| radius radii IH]; intros s rest Hdown.
  - cbn in *. rewrite app_nil_r. destruct s. cbn in *. now subst.
  - cbn [matching.tryRadii]. unfold bind at 1.
    unfold matching.searchDriversInRadius, bind.
    rewrite (roundtrip_down _ _ s (repeat true (length radii) ++ rest) Hdown).
    cbn [ret].
    rewrite (IH {| db := db s; outages := repeat true (length radii) ++ rest;
                   log := log s ++ [GEORADIUS "drivers:locations" pickupLng pickupLat
                                      (matching.geoRadiusQuery config radius) Failure] |}
                rest eq_refl).
    cbn [db log List.map]. now rewrite <- app_assoc.
Qed.

(** X3.  When the store cannot be reached for the geo queries, the call
    sends one GEORADIUS per radius of the sequence and nothing else,
    changes nothing, and reports "driver not available"; [CreateRide] then
    answers 200 "requested", as it does when there is no driver. *)
Theorem unreachable_store_reads_as_no_driver (config : matching.Config)
    (uuid_New : UUID) (pickupLat pickupLng : Q)
    (vehicleType : driver.VehicleType) (s : Redis) (rest : list bool) :
  outages s = repeat true (length (matching.searchRadii config)) ++ rest ->
  matching.FindNearestDriver config uuid_New pickupLat pickupLng vehicleType s
  = (Fail ErrDriverNotAvailable,
     {| db := db s; outages := rest;
        log := log s
               ++ List.map (fun radius =>
                              GEORADIUS "drivers:locations" pickupLng pickupLat
                                (matching.geoRadiusQuery config radius) Failure)
                           (matching.searchRadii config) |})
  /\ forall (rideID : string) (insertOK : bool) (req : dto.CreateRideRequest)
       (s0 : Redis) (rest0 : list bool),
       dto.binds req = true ->
       outages s0 = true :: true :: true :: true :: rest0 ->
       (handlers.CreateRide rideID uuid_New insertOK (Some req) s0).1
       = Return (handlers.OK_requested rideID (dto.RiderID req))
       /\ db (handlers.CreateRide rideID uuid_New insertOK (Some req) s0).2 = db s0.
Proof.
  intros Hdown. split; [now apply tryRadii_down |].
  intros rideID insertOK req s0 rest0 Hbinds Hdown0.
  assert (Hrun : exists s1,
             handlers.CreateRide rideID uuid_New insertOK (Some req) s0
             = (Return (handlers.OK_requested rideID (dto.RiderID req)), s1)
             /\ db s1 = db s0).
  { unfold handlers.CreateRide. rewrite Hbinds. cbn [negb]. unfold bind at 1.
    unfold matching.FindNearestDriver.
    change (matching.searchRadii handlers.matchingConfig)
      with [5.0; 10.0; 20.0; 50.0]%Q.
    set (vt := if String.eqb (dto.VehicleType req) "economy" then _ else _).
    rewrite (tryRadii_down handlers.matchingConfig uuid_New
               (dto.PickupLatitude req) (dto.PickupLongitude req) vt
               [5.0; 10.0; 20.0; 50.0]%Q s0 rest0 Hdown0).
    eexists. split; reflexivity. }
  destruct Hrun as (s1 & -> & Hdb). now split.
Qed.

End Outages.

(** * A failed marker read, and how much one call sends *)

Section WorkAndBypass.
Context `{Platform}.
Import redis props dispatch.

(** X4.  When the read of the current-ride marker fails and
    the two commands after it get through, a candidate in the available
    set is claimed whether or not it has a marker. *)
Theorem failed_marker_read_claims (uuid_New : UUID)
    (vehicleType : driver.VehicleType) (g : GeoLocation)
    (results : list GeoLocation) (s : Redis) :
  outages s = [true] ->
  Name g ∈ smembers (db s) "drivers:available" ->
  let run := matching.claimCandidates uuid_New vehicleType (g :: results) s in
  run.1 = matching.foundDriver uuid_New vehicleType g
  /\ db run.2 = claimed_db (db s) (Name g) (Reply tt)
  /\ log run.2 = log s ++ GET (matching.currentRideKey (Name g)) Failure
                          :: winning (Name g) (Reply tt).
Proof.
  intros Hdown Hin run.
  assert (Hrun : exists s',
             matching.claimCandidates uuid_New vehicleType (g :: results) s
             = (matching.foundDriver uuid_New vehicleType g, s')
             /\ db s' = claimed_db (db s) (Name g) (Reply tt)
             /\ log s' = log s ++ GET (matching.currentRideKey (Name g)) Failure
                               :: winning (Name g) (Reply tt)).
  { cbn [matching.claimCandidates]. unfold bind at 1. unfold Get at 1.
    rewrite (roundtrip_down _ _ s [] Hdown).
    unfold bind at 1. unfold SRem at 1.
    set (s1 := {| db := db s; outages := []; log := _ |}).
    rewrite (roundtrip_up _ _ s1 eq_refl).
    destruct (srem_reply "drivers:available" (Name g) (db s))
      as [[Hone _] | (_ & Hnotin & _)]; [| contradiction].
    change (db s1) with (db s). rewrite Hone. cbn [Z.eqb].
    unfold bind. unfold Set_ at 1.
    set (s2 := {| db := (srem "drivers:available" (Name g) (db s)).2;
                  outages := []; log := _ |}).
    rewrite (roundtrip_up _ _ s2 eq_refl).
    eexists. split; [reflexivity |]. split; [reflexivity |].
    cbn [log fst snd]. unfold winning. subst s2 s1. cbn [log].
    repeat rewrite <- app_assoc. reflexivity. }
  subst run. destruct Hrun as (s' & -> & Hdb & Hlog). now repeat split.
Qed.

Lemma claim_log_bound (uuid_New : UUID) (vehicleType : driver.VehicleType)
    (results : list GeoLocation) :
  forall (s s' : Redis) (r : outcome driver.Driver),
    matching.claimCandidates uuid_New vehicleType results s = (r, s') ->
    exists delta, log s' = log s ++ delta
                  /\ (length delta <= 2 * length results + 1)%nat.
Proof.
  induction results as [| g results IH]; intros s s' r Hrun.
  - injection Hrun as <- <-. exists []. rewrite app_nil_r. split; [reflexivity |].
    cbn. lia.
  - cbn [matching.claimCandidates] in Hrun. unfold bind in Hrun.
    destruct (Get (matching.currentRideKey (Name g)) s) as [cur s1] eqn:Hget.
    apply Get_inv in Hget as [_ Hlog1].
    assert (Hskip1 : forall s'' r'',
               matching.claimCandidates uuid_New vehicleType results s1 = (r'', s'') ->
               exists delta, log s'' = log s ++ delta
                             /\ (length delta <= 2 * length (g :: results) + 1)%nat).
    { intros s'' r'' Hrest. apply IH in Hrest as (delta & Hlog & Hlen).
      exists (GET (matching.currentRideKey (Name g)) cur :: delta).
      rewrite Hlog, Hlog1, <- app_assoc. split; [reflexivity |]. cbn in *. lia. }
    destruct cur as [[| a b] | |]; try (eapply Hskip1; exact Hrun).
    all: destruct (SRem "drivers:available" (Name g) s1) as [removed s2] eqn:Hsrem;
         apply SRem_inv in Hsrem as [Hlog2 _].
    all: assert (Hskip2 : forall s'' r'',
               matching.claimCandidates uuid_New vehicleType results s2 = (r'', s'') ->
               exists delta, log s'' = log s ++ delta
                             /\ (length delta <= 2 * length (g :: results) + 1)%nat)
           by (intros s'' r'' Hrest; apply IH in Hrest as (delta & Hlog & Hlen);
               eexists (_ :: _ :: delta);
               rewrite Hlog, Hlog2, Hlog1, <- !app_assoc;
               split; [reflexivity | cbn in *; lia]).
    all: destruct removed as [n | |]; try (eapply Hskip2; exact Hrun).
    all: destruct (n =? 0)%Z; try (eapply Hskip2; exact Hrun).
    all: destruct (Set_ (matching.currentRideKey (Name g)) "claiming"
                     (30 * Second)%Z s2) as [marker s3] eqn:Hset;
         apply Set_inv in Hset as [Hlog3 _]; injection Hrun as <- <-.
    all: eexists [_; _; _]; rewrite Hlog3, Hlog2, Hlog1, <- !app_assoc;
         split; [reflexivity | cbn; lia].
Qed.

(** X5.  Whatever the configuration, the radius sequence has
    between one and four radii and starts with the initial radius; a claim
    pass over k candidates sends at most 2k + 1 commands; a call of
    [FindNearestDriver] sends at most four geo queries. *)
Theorem dispatch_work_bound :
  (forall config : matching.Config,
      (1 <= length (matching.searchRadii config) <= 4)%nat
      /\ head (matching.searchRadii config) = Some (matching.MaxRadiusKM config))
  /\ (forall (uuid_New : UUID) (vehicleType : driver.VehicleType)
        (results : list GeoLocation) (s : Redis),
        exists delta,
          log (matching.claimCandidates uuid_New vehicleType results s).2
          = log s ++ delta
          /\ (length delta <= 2 * length results + 1)%nat)
  /\ (forall (config : matching.Config) (uuid_New : UUID) (pickupLat pickupLng : Q)
        (vehicleType : driver.VehicleType) (s : Redis),
        exists delta,
          log (matching.FindNearestDriver config uuid_New pickupLat pickupLng
                 vehicleType s).2 = log s ++ delta
          /\ (length (queried delta) <= 4)%nat).
Proof.
  assert (Hlen : forall config : matching.Config,
             (1 <= length (matching.searchRadii config) <= 4)%nat).
  { intros config. unfold matching.searchRadii, matching.expandedRadii.
    cbn [List.filter app].
    repeat match goal with
           | |- context [Qle_bool ?a ?b] => destruct (Qle_bool a b)
           end; cbn; lia. }
  split; [| split].
  - intros config. split; [apply Hlen | reflexivity].
  - intros uuid_New vehicleType results s.
    destruct (matching.claimCandidates uuid_New vehicleType results s)
      as [r s'] eqn:Hrun.
    now apply claim_log_bound in Hrun.
  - intros config uuid_New pickupLat pickupLng vehicleType s.
    destruct (matching.FindNearestDriver config uuid_New pickupLat pickupLng
                vehicleType s) as [r s'] eqn:Hrun.
    apply FindNearestDriver_inv in Hrun.
    destruct (Hlen config) as [_ Hmax].
    destruct Hrun as [delta _ _ Hlog _ Hq
                     | tried later radius results c delta marker
                         Hradii _ Hlog _ Hq _ _ _ _].
    + exists delta. split; [exact Hlog |]. cbn [snd]. now rewrite Hq.
    + exists (delta ++ winning (Name c) marker). split; [exact Hlog |].
      rewrite queried_app, Hq. cbn. rewrite app_nil_r.
      rewrite Hradii in Hmax. rewrite length_app in *. cbn in *. lia.
Qed.

End WorkAndBypass.

(** * AcceptRide and the claim pass *)

Section AcceptAndCreate.
Context `{Platform}.
Import redis props dispatch.

Lemma length_append (a b : string) :
  String.length (a +:+ b) = (String.length a + String.length b)%nat.
Proof.
  induction a as [| x a IH]; [reflexivity |].
  change (S (String.length (a +:+ b)) = S (String.length a + String.length b)).
  now rewrite IH.
Qed.

Lemma append_cancel_r (a b suffix : string) :
  a +:+ suffix = b +:+ suffix -> a = b.
Proof.
  revert b. induction a as [| x a IH]; intros [| y b] Heq.
  - reflexivity.
  - exfalso. apply (f_equal String.length) in Heq.
    rewrite !length_append in Heq. cbn [String.length] in Heq. lia.
  - exfalso. apply (f_equal String.length) in Heq.
    rewrite !length_append in Heq. cbn [String.length] in Heq. lia.
  - change (String x (a +:+ suffix) = String y (b +:+ suffix)) in Heq.
    injection Heq as -> Heq. f_equal. now apply IH.
Qed.

Lemma currentRideKey_inj (a b : string) :
  matching.currentRideKey a = matching.currentRideKey b -> a = b.
Proof.
  unfold matching.currentRideKey. cbn. intros [= Heq].
  change (a +:+ ":current_ride" = b +:+ ":current_ride") in Heq.
  now apply append_cancel_r in Heq.
Qed.

Lemma claimed_db_other_marker (d : gmap string Value) (winner other : string)
    (marker : reply unit) :
  winner <> other ->
  claimed_db d winner marker !! matching.currentRideKey other
  = d !! matching.currentRideKey other.
Proof.
  intros Hne. unfold claimed_db.
  assert (Hkey : matching.currentRideKey winner <> matching.currentRideKey other)
    by (intros Heq; now apply currentRideKey_inj in Heq).
  destruct marker; rewrite ?lookup_insert_ne by exact Hkey;
    apply srem_other, currentRideKey_not_available.
Qed.

Lemma claimable_find_some (d : gmap string Value) (results : list GeoLocation)
    (c : GeoLocation) :
  List.find (fun c => claimable d (Name c)) results = Some c ->
  claimable d (Name c) = true.
Proof. intros Hfind. now apply List.find_some in Hfind as [_ Hc]. Qed.

Lemma claimable_available (d : gmap string Value) (id : string) :
  claimable d id = true -> id ∈ smembers d "drivers:available".
Proof.
  unfold claimable.
  destruct (d !! matching.currentRideKey id) as [[[| a b] ttl | m | p]|];
    try discriminate; apply bool_decide_eq_true_1.
Qed.

(** X6.  When every command gets through, [AcceptRide] with a ride id
    stores it as the driver's current ride for 24 hours and leaves the
    available set and the geo index alone; from then on a claim pass never
    takes that driver out of the available set and never overwrites its
    marker, for as long as the marker is there. *)
Theorem accepted_driver_is_skipped (driverID : string)
    (req : handlers_ext.AcceptRideRequest) (s : Redis) :
  outages s = [] ->
  handlers_ext.RideID req <> "" ->
  let accepted := handlers_ext.AcceptRide driverID (Some req) s in
  let marker := VString (handlers_ext.RideID req) (24 * handlers_ext.Hour)%Z in
  accepted.1 = handlers_ext.Accepted (handlers_ext.RideID req)
  /\ db accepted.2 = <[matching.currentRideKey driverID := marker]> (db s)
  /\ smembers (db accepted.2) "drivers:available"
     = smembers (db s) "drivers:available"
  /\ forall (uuid_New : UUID) (vehicleType : driver.VehicleType)
       (results : list GeoLocation) (s1 : Redis),
       outages s1 = [] ->
       db s1 !! matching.currentRideKey driverID = Some marker ->
       let pass := matching.claimCandidates uuid_New vehicleType results s1 in
       db pass.2 !! matching.currentRideKey driverID = Some marker
       /\ (driverID ∈ smembers (db s1) "drivers:available" ->
           driverID ∈ smembers (db pass.2) "drivers:available").
Proof.
  intros Hup Hride accepted marker. subst accepted.
  assert (Hrun : handlers_ext.AcceptRide driverID (Some req) s
                 = (handlers_ext.Accepted (handlers_ext.RideID req),
                    {| db := <[matching.currentRideKey driverID := marker]> (db s);
                       outages := [];
                       log := log s ++ [SET (matching.currentRideKey driverID)
                                          (handlers_ext.RideID req)
                                          (24 * handlers_ext.Hour)%Z (Reply tt)] |})).
  { unfold handlers_ext.AcceptRide.
    apply String.eqb_neq in Hride. rewrite Hride.
    unfold bind. unfold Set_ at 1. rewrite (roundtrip_up _ _ s Hup). reflexivity. }
  rewrite Hrun. cbn [fst snd db].
  split; [reflexivity |]. split; [reflexivity |]. split.
  - unfold smembers. rewrite lookup_insert_ne; [reflexivity |].
    apply currentRideKey_not_available.
  - intros uuid_New vehicleType results s1 Hup1 Hmarker. cbv zeta.
    destruct (claimCandidates_up uuid_New vehicleType results s1 Hup1)
      as (s' & -> & _ & Hdb).
    cbn [fst snd]. rewrite Hdb. unfold pass_result.
    destruct (List.find (fun c => claimable (db s1) (Name c)) results)
      as [c |] eqn:Hfind; cbn [snd]; [| now split].
    apply claimable_find_some in Hfind.
    assert (Hne : Name c <> driverID).
    { intros Heq. unfold claimable in Hfind. rewrite Heq, Hmarker in Hfind.
      subst marker. destruct (handlers_ext.RideID req); [congruence | discriminate]. }
    split.
    + rewrite claimed_db_other_marker by exact Hne. exact Hmarker.
    + intros Hin. rewrite claimed_db_members by now apply claimable_available.
      apply elem_of_difference. split; [exact Hin |].
      intros Heq%elem_of_singleton. congruence.
Qed.

End AcceptAndCreate.

(** * The ways CreateRide ends *)

Section CreateRideOutcomes.
Context `{Platform}.
Import redis props dispatch.

Lemma bound_class (req : dto.CreateRideRequest) :
  dto.binds req = true ->
  (if String.eqb (dto.VehicleType req) "economy" then driver.VehicleEconomy
   else if String.eqb (dto.VehicleType req) "premium" then driver.VehiclePremium
   else if String.eqb (dto.VehicleType req) "luxury" then driver.VehicleLuxury
   else driver.VehicleEconomy) = dto.VehicleType req.
Proof.
  unfold dto.binds. intros [_ Hone]%andb_prop.
  destruct (String.eqb_spec (dto.VehicleType req) "economy") as [-> | _];
    [reflexivity |].
  destruct (String.eqb_spec (dto.VehicleType req) "premium") as [-> | _];
    [reflexivity |].
  destruct (String.eqb_spec (dto.VehicleType req) "luxury") as [-> | _];
    [reflexivity | discriminate].
Qed.

(** X7.  For a request that binds, [CreateRide] ends in one of four ways.
    No driver: 200 "requested", keyspace unchanged.  Otherwise a
    candidate was claimed (it was in the available set and is no longer),
    and either the INSERT failed: 500, the claim is not given back; or the
    ride is assigned: 200, and the ride id is written without expiry under
    the marker key of the returned driver id; or the claimed id was too
    short and the handler panicked. *)
Theorem create_ride_outcomes (rideID : string) (uuid_New : UUID)
    (insertOK : bool) (req : dto.CreateRideRequest) (s s' : Redis)
    (resp : outcome handlers.Response) :
  dto.binds req = true ->
  handlers.CreateRide rideID uuid_New insertOK (Some req) s = (resp, s') ->
  (resp = Return (handlers.OK_requested rideID (dto.RiderID req))
   /\ db s' = db s)
  \/ exists (c : GeoLocation) (marker : reply unit),
       (Name c ∈ smembers (db s) "drivers:available")
       /\ (Name c ∉ smembers (db s') "drivers:available")
       /\ ((resp = Panic
            /\ (String.length (Name c) < 8)%nat
            /\ db s' = claimed_db (db s) (Name c) marker)
           \/ (insertOK = false
               /\ resp = Return (handlers.InternalServerError "Failed to create ride")
               /\ db s' = claimed_db (db s) (Name c) marker)
           \/ (insertOK = true
               /\ exists (d : driver.Driver) (durable : reply unit),
                    matching.foundDriver uuid_New (dto.VehicleType req) c = Return d
                    /\ resp = Return (handlers.OK_assigned rideID (dto.RiderID req)
                                        (uuid_String (driver.ID d)) (driver.Name d))
                    /\ db s' = match durable with
                               | Reply _ =>
                                   <[matching.currentRideKey (uuid_String (driver.ID d))
                                     := VString rideID 0%Z]>
                                     (claimed_db (db s) (Name c) marker)
                               | _ => claimed_db (db s) (Name c) marker
                               end)).
Proof.
  intros Hbinds Hrun. unfold handlers.CreateRide in Hrun.
  rewrite Hbinds in Hrun. cbn [negb] in Hrun.
  rewrite (bound_class req Hbinds) in Hrun. unfold bind at 1 in Hrun.
  destruct (matching.FindNearestDriver handlers.matchingConfig uuid_New
              (dto.PickupLatitude req) (dto.PickupLongitude req)
              (dto.VehicleType req) s) as [found s1] eqn:Hfind.
  apply FindNearestDriver_inv in Hfind.
  destruct Hfind as [delta Hr Hdb _ _ _
                    | tried later radius results c delta marker
                        _ Hr _ _ _ _ _ Hin Hdb].
  - left. rewrite Hr in Hrun. injection Hrun as <- <-. now split.
  - right. exists c, marker. split; [exact Hin |].
    assert (Hgone : Name c ∉ smembers (claimed_db (db s) (Name c) marker)
                                 "drivers:available").
    { rewrite claimed_db_members by exact Hin.
      intros [_ Habs]%elem_of_difference. apply Habs. now apply elem_of_singleton. }
    rewrite Hr in Hrun. unfold matching.foundDriver in Hrun, Hr |- *.
    destruct (Nat.ltb_spec (String.length (Name c)) 8) as [Hshort | _].
    + injection Hrun as <- <-. rewrite Hdb. split; [exact Hgone |].
      left. now repeat split.
    + destruct insertOK; cbn [negb] in Hrun.
      * unfold bind in Hrun.
        match type of Hrun with
        | (let (_, _) := Set_ ?k ?v ?t s1 in _) = _ =>
            destruct (Set_ k v t s1) as [durable s2] eqn:Hset
        end.
        apply Set_inv in Hset as [_ Hdb2]. injection Hrun as <- <-.
        split.
        -- rewrite Hdb2, Hdb.
           destruct durable; try exact Hgone.
           unfold smembers. rewrite lookup_insert_ne
             by apply currentRideKey_not_available.
           exact Hgone.
        -- right. right. split; [reflexivity |].
           eexists. exists durable. split; [reflexivity |].
           split; [reflexivity |]. rewrite Hdb2, Hdb. reflexivity.
      * injection Hrun as <- <-. rewrite Hdb. split; [exact Hgone |].
        right. left. now repeat split.
Qed.

End CreateRideOutcomes.

(** * Setting the surge, and the settled fare *)

Section MorePricing.
Context `{Platform}.
Import redis props binary64.

(** X8.  With minimum <= maximum, a multiplier that is not NaN, every
    command getting through and a float text that parses back to the
    value it was written from, a [SetSurgeMultiplier] followed by a
    [GetSurgeMultiplier] for the same region returns the multiplier that
    was given, clamped into [minimum, maximum]; the value is stored
    without expiry, and a multiplier already in the interval comes back
    as it is. *)
Theorem surge_set_then_get (formatFloat : float -> string) (config : Config)
    (region : string) (multiplier : float) (s : Redis) :
  outages s = [] ->
  (MinSurgeMultiplier config <=? MaxSurgeMultiplier config)%float = true ->
  is_nan multiplier = false ->
  (forall v : float,
      In v [multiplier; MinSurgeMultiplier config; MaxSurgeMultiplier config] ->
      strconv_ParseFloat (formatFloat v) = Some v) ->
  let set := SetSurgeMultiplier formatFloat config region multiplier s in
  let got := (GetSurgeMultiplier config region set.2).1 in
  set.1 = None
  /\ (exists text, db set.2 !! ("surge:" +:+ region) = Some (VString text 0%Z))
  /\ (MinSurgeMultiplier config <=? got)%float = true
  /\ (got <=? MaxSurgeMultiplier config)%float = true
  /\ ((MaxSurgeMultiplier config <? multiplier)%float = true ->
      got = MaxSurgeMultiplier config)
  /\ ((multiplier <? MinSurgeMultiplier config)%float = true ->
      got = MinSurgeMultiplier config)
  /\ ((MinSurgeMultiplier config <=? multiplier)%float = true ->
      (multiplier <=? MaxSurgeMultiplier config)%float = true ->
      got = multiplier).
Proof.
  intros Hup Hband Hnum Hround set got.
  destruct (leb_not_nan _ _ Hband) as [Hlow Hhigh].
  set (stored :=
         let m := if (MaxSurgeMultiplier config <? multiplier)%float
                  then MaxSurgeMultiplier config else multiplier in
         if (m <? MinSurgeMultiplier config)%float
         then MinSurgeMultiplier config else m).
  assert (Hset : SetSurgeMultiplier formatFloat config region multiplier s
                 = (None,
                    {| db := <["surge:" +:+ region := VString (formatFloat stored) 0%Z]> (db s);
                       outages := [];
                       log := log s ++ [SET ("surge:" +:+ region) (formatFloat stored)
                                          0%Z (Reply tt)] |})).
  { unfold SetSurgeMultiplier, bind. unfold Set_ at 1.
    rewrite (roundtrip_up _ _ s Hup). reflexivity. }
  assert (Hstored : In stored [multiplier; MinSurgeMultiplier config;
                                MaxSurgeMultiplier config]
                    /\ (MinSurgeMultiplier config <=? stored)%float = true
                    /\ (stored <=? MaxSurgeMultiplier config)%float = true
                    /\ ((MaxSurgeMultiplier config <? multiplier)%float = true ->
                        stored = MaxSurgeMultiplier config)
                    /\ ((multiplier <? MinSurgeMultiplier config)%float = true ->
                        stored = MinSurgeMultiplier config)
                    /\ ((MinSurgeMultiplier config <=? multiplier)%float = true ->
                        (multiplier <=? MaxSurgeMultiplier config)%float = true ->
                        stored = multiplier)).
  { subst stored. cbv zeta.
    destruct (MaxSurgeMultiplier config <? multiplier)%float eqn:Habove.
    - rewrite (leb_ltb_false _ _ Hband).
      split; [cbn; tauto |]. split; [exact Hband |].
      split; [now apply leb_refl' |]. split; [reflexivity |].
      split.
      + intros Hbelow. pose proof (ltb_trans _ _ _ Habove Hbelow) as Hlt.
        rewrite (leb_ltb_false _ _ Hband) in Hlt. discriminate.
      + intros _ Hle. apply leb_ltb_false in Hle. congruence.
    - destruct (multiplier <? MinSurgeMultiplier config)%float eqn:Hbelow.
      + split; [cbn; tauto |]. split; [now apply leb_refl' |].
        split; [exact Hband |]. split; [discriminate |].
        split; [reflexivity |].
        intros Hle _. apply leb_ltb_false in Hle. congruence.
      + split; [cbn; tauto |]. split; [now apply ltb_false_leb' |].
        split; [now apply ltb_false_leb' |]. split; [discriminate |].
        split; [discriminate | reflexivity]. }
  destruct Hstored as (Hcase & Hin1 & Hin2 & Hhi & Hlo & Hmid).
  assert (Hgot : got = stored).
  { subst got set. rewrite Hset. cbn [snd].
    rewrite GetSurgeMultiplier_value. cbn [fst]. rewrite Get_reply.
    cbn [outages db]. rewrite lookup_insert_eq, (Hround stored Hcase).
    now rewrite (leb_ltb_false _ _ Hin2), (leb_ltb_false _ _ Hin1). }
  subst set. rewrite Hset. cbn [fst snd db].
  split; [reflexivity |]. split; [eexists; apply lookup_insert_eq |].
  rewrite Hgot. now repeat split.
Qed.

(** X9.  [CalculateFare] prices the trip as [EstimateFare] quotes it and
    multiplies by the surge of the region: the subtotal is the quote, the
    total is subtotal x multiplier, and the multiplier is 1.0 when nothing
    was read, else the cached value after the two comparisons, so with
    minimum <= 1.0 <= maximum it lies in [minimum, maximum] unless it is
    NaN.  The call changes nothing in the store. *)
Theorem fare_is_quote_times_surge
    (config : Config) (vehicleType : driver.VehicleType) (distanceKM : float)
    (durationMinutes : Z) (region : string) (s : Redis) :
  let run := CalculateFare config vehicleType distanceKM
               durationMinutes region s in
  fb_Subtotal run.1 = EstimateFare config vehicleType distanceKM durationMinutes
  /\ fb_Subtotal run.1
     = (fb_BaseFare run.1 + fb_DistanceFare run.1 + fb_TimeFare run.1)%float
  /\ fb_SurgeMultiplier run.1 = (GetSurgeMultiplier config region s).1
  /\ fb_Total run.1 = (fb_Subtotal run.1 * fb_SurgeMultiplier run.1)%float
  /\ ((MinSurgeMultiplier config <=? 1.0)%float = true ->
      (1.0 <=? MaxSurgeMultiplier config)%float = true ->
      is_nan (fb_SurgeMultiplier run.1) = false ->
      (MinSurgeMultiplier config <=? fb_SurgeMultiplier run.1)%float = true
      /\ (fb_SurgeMultiplier run.1 <=? MaxSurgeMultiplier config)%float = true)
  /\ db run.2 = db s.
Proof.
  intros run. subst run. unfold CalculateFare, bind.
  rewrite GetSurgeMultiplier_value.
  cbn [fst snd ret fb_Subtotal fb_Total fb_SurgeMultiplier fb_BaseFare
         fb_DistanceFare fb_TimeFare].
  split; [reflexivity |]. split; [reflexivity |]. split; [reflexivity |].
  split; [reflexivity |]. split.
  - intros Hmin Hmax.
    pose proof (leb_trans _ _ _ Hmin Hmax) as Hband.
    destruct ((Get ("surge:" +:+ region) s).1) as [text | |];
      try (intros _; now split).
    destruct (strconv_ParseFloat text) as [val |]; [| intros _; now split].
    intros Hnum.
    assert (Hval : is_nan val = false).
    { destruct (is_nan val) eqn:Hval; [| reflexivity].
      rewrite (ltb_nan_r _ val Hval), (ltb_nan_l val _ Hval) in Hnum.
      congruence. }
    destruct (clamped_in_band _ _ val Hband Hval) as (Hlow & Hhigh & _).
    now split.
  - apply (Get_inv ("surge:" +:+ region) s _ (Get ("surge:" +:+ region) s).1).
    now destruct (Get ("surge:" +:+ region) s).
Qed.

End MorePricing.

(** * The driver object of a match, and the loaded configuration *)

Section MatchedDriver.
Context `{Platform}.
Import redis props.

Lemma foundDriver_shape (uuid_New : UUID) (vehicleType : driver.VehicleType)
    (c : GeoLocation) (d : driver.Driver) :
  matching.foundDriver uuid_New vehicleType c = Return d ->
  driver.Name d = "Driver " +:+ substring 0 8 (Name c)
  /\ driver.Email d = ""
  /\ driver.Phone d = ""
  /\ driver.Status_ d = driver.StatusOnline
  /\ driver.VehicleType_ d = vehicleType
  /\ driver.CurrentLatitude d = Some (Latitude c)
  /\ driver.CurrentLongitude d = Some (Longitude c).
Proof.
  unfold matching.foundDriver.
  destruct (String.length (Name c) <? 8)%nat; [discriminate |].
  intros [= <-]. now repeat split.
Qed.

(** X10.  A driver object that [FindNearestDriver] returns is never valid
    for the driver package: [IsValid] answers with the missing-email
    error.  It can accept rides, its vehicle class is the requested one,
    whatever the request was, and it is built from a candidate of the
    reply to a geo query this call sent: a member of the available set,
    whose listed position is the location of the driver object. *)
Theorem matched_driver_is_not_valid (config : matching.Config) (uuid_New : UUID)
    (pickupLat pickupLng : Q) (vehicleType : driver.VehicleType) (s : Redis)
    (d : driver.Driver) :
  let run := matching.FindNearestDriver config uuid_New pickupLat pickupLng
               vehicleType s in
  run.1 = Return d ->
  driver_ext.IsValid d = Some driver_ext.ErrInvalidDriverEmail
  /\ driver_ext.CanAcceptRides d = true
  /\ driver.VehicleType_ d = vehicleType
  /\ exists (radius : Q) (results : list GeoLocation) (c : GeoLocation)
       (delta : list Command),
       log run.2 = log s ++ delta
       /\ In (GEORADIUS "drivers:locations" pickupLng pickupLat
                (matching.geoRadiusQuery config radius) (Reply results)) delta
       /\ In c results
       /\ matching.foundDriver uuid_New vehicleType c = Return d
       /\ (Name c ∈ smembers (db s) "drivers:available")
       /\ driver_ext.GetLocation d
          = Some {| driver_ext.Latitude := Latitude c;
                    driver_ext.Longitude := Longitude c |}.
Proof.
  intros run. subst run.
  destruct (matching.FindNearestDriver config uuid_New pickupLat pickupLng
              vehicleType s) as [r s'] eqn:Hrun.
  cbn [fst snd]. intros ->.
  apply FindNearestDriver_inv in Hrun.
  destruct Hrun as [delta Hr _ _ _ _
                   | tried later radius results c delta marker
                       _ Hr Hlog _ _ Hgeo Hc Hin _]; [discriminate |].
  symmetry in Hr. pose proof Hr as Hbuilt. apply foundDriver_shape in Hr
    as (Hname & Hemail & Hphone & Hstatus & Hclass & Hlat & Hlng).
  split; [| split; [| split]].
  - unfold driver_ext.IsValid. rewrite Hname, Hemail. reflexivity.
  - unfold driver_ext.CanAcceptRides. now rewrite Hstatus.
  - exact Hclass.
  - exists radius, results, c, (delta ++ winning (Name c) marker).
    split; [exact Hlog |].
    split; [apply in_or_app; left; now apply list_elem_of_In |].
    split; [now apply list_elem_of_In |].
    split; [exact Hbuilt |]. split; [exact Hin |].
    unfold driver_ext.GetLocation. now rewrite Hlat, Hlng.
Qed.

End MatchedDriver.

Section LoadFacts.
Context `{Platform}.

Lemma getEnv_not_empty (env : gmap string string) (key defaultValue : string) :
  defaultValue <> "" -> config_ext.getEnv env key defaultValue <> "".
Proof.
  intros Hdefault. unfold config_ext.getEnv.
  destruct (String.eqb (config_ext.Getenv env key) "") eqn:Hset;
    [exact Hdefault | now apply String.eqb_neq].
Qed.

Lemma getEnv_value (env : gmap string string) (key defaultValue value : string) :
  defaultValue <> value ->
  config_ext.getEnv env key defaultValue = value
  <-> config_ext.Getenv env key = value /\ value <> "".
Proof.
  intros Hdefault. unfold config_ext.getEnv.
  destruct (String.eqb (config_ext.Getenv env key) "") eqn:Hset.
  - apply String.eqb_eq in Hset. split; [contradiction |].
    intros [Hvalue Hne]. congruence.
  - apply String.eqb_neq in Hset. split; [| tauto].
    intros Hvalue. split; congruence.
Qed.

(** X11.  [Load] fails in one case only: SERVER_ENV is "production" and
    JWT_SECRET is unset, empty or the placeholder; the error is then the
    JWT one.  The four "is required" checks of [Validate] never fire on a
    loaded configuration, whatever the environment holds. *)
Theorem load_fails_only_on_production_secret (strconv_Atoi : string -> option Z)
    (env : gmap string string) :
  ((exists err, config_ext.Load strconv_Atoi env = inr err)
   <-> config_ext.Getenv env "SERVER_ENV" = "production"
       /\ (config_ext.Getenv env "JWT_SECRET" = ""
           \/ config_ext.Getenv env "JWT_SECRET" = "your_jwt_secret_key_here"))
  /\ (forall err, config_ext.Load strconv_Atoi env = inr err ->
        err = "invalid configuration: JWT_SECRET must be set in production")
  /\ (forall cfg, config_ext.Load strconv_Atoi env = inl cfg ->
        config.Validate cfg = None
        /\ config.Server_Port cfg <> "" /\ config.Database_Host cfg <> ""
        /\ config.Database_Name cfg <> "" /\ config.Redis_Host cfg <> ""
        /\ config.JWT_Secret cfg <> "").
Proof.
  unfold config_ext.Load.
  set (cfg0 := {| config.Server_Port := _ |}).
  assert (Hport : config.Server_Port cfg0 <> "")
    by (now apply getEnv_not_empty).
  assert (Hhost : config.Database_Host cfg0 <> "")
    by (now apply getEnv_not_empty).
  assert (Hname : config.Database_Name cfg0 <> "")
    by (now apply getEnv_not_empty).
  assert (Hredis : config.Redis_Host cfg0 <> "")
    by (now apply getEnv_not_empty).
  assert (Hjwt : config.JWT_Secret cfg0 <> "")
    by (now apply getEnv_not_empty).
  assert (Hvalidate :
            config.Validate cfg0
            = if String.eqb (config.JWT_Secret cfg0) "your_jwt_secret_key_here"
                 && String.eqb (config.Server_Env cfg0) "production"
              then Some "JWT_SECRET must be set in production" else None).
  { unfold config.Validate.
    apply String.eqb_neq in Hport, Hhost, Hname, Hredis.
    now rewrite Hport, Hhost, Hname, Hredis. }
  assert (Hsecret : config.JWT_Secret cfg0 = "your_jwt_secret_key_here"
                    <-> config_ext.Getenv env "JWT_SECRET" = ""
                        \/ config_ext.Getenv env "JWT_SECRET"
                           = "your_jwt_secret_key_here").
  { cbn [cfg0 config.JWT_Secret]. unfold config_ext.getEnv.
    destruct (String.eqb (config_ext.Getenv env "JWT_SECRET") "") eqn:Hset.
    - apply String.eqb_eq in Hset. tauto.
    - apply String.eqb_neq in Hset. tauto. }
  assert (Henv : config.Server_Env cfg0 = "production"
                 <-> config_ext.Getenv env "SERVER_ENV" = "production").
  { cbn [cfg0 config.Server_Env].
    rewrite getEnv_value by discriminate.
    split; [tauto | intros ?; split; [assumption | discriminate]]. }
  rewrite Hvalidate.
  destruct (String.eqb (config.JWT_Secret cfg0) "your_jwt_secret_key_here")
    eqn:Hs; [apply String.eqb_eq in Hs | apply String.eqb_neq in Hs];
    (destruct (String.eqb (config.Server_Env cfg0) "production") eqn:He;
     [apply String.eqb_eq in He | apply String.eqb_neq in He]);
    cbn [andb].
  1: { split; [| split].
       - split; [intros _; tauto | intros _; eauto].
       - now intros err [= <-].
       - discriminate. }
  all: split; [| split];
    [ split; [intros [err Herr]; discriminate | intros [? ?]; tauto]
    | discriminate
    | intros cfg [= <-]; rewrite Hvalidate;
      repeat match goal with
             | |- context [String.eqb ?a ?b] =>
                 let E := fresh in destruct (String.eqb a b) eqn:E;
                 [apply String.eqb_eq in E | apply String.eqb_neq in E]
             end; cbn [andb]; try tauto; repeat split; assumption ].
Qed.

End LoadFacts.

(** * What one dispatch changes *)

Section Footprint.
Context `{Platform}.
Import redis props.

Lemma claimed_db_other_key (d : gmap string Value) (driverID k : string)
    (marker : reply unit) :
  k <> "drivers:available" -> k <> matching.currentRideKey driverID ->
  claimed_db d driverID marker !! k = d !! k.
Proof.
  intros Hset Hmarker. unfold claimed_db.
  destruct marker; [rewrite lookup_insert_ne by congruence | |];
    now apply srem_other.
Qed.

(** X12.  Whatever fails and whatever the arguments, one call of
    [FindNearestDriver] never adds a driver to the available set and
    never touches the geo index; if it returns a driver it has removed
    exactly one member of the available set (also when building the
    driver object then panics), and otherwise none.  The
    only other key it can change is the marker of the driver it removed,
    which then reads "claiming" with a 30 second expiry. *)
Theorem dispatch_footprint (config : matching.Config) (uuid_New : UUID)
    (pickupLat pickupLng : Q) (vehicleType : driver.VehicleType) (s : Redis) :
  let run := matching.FindNearestDriver config uuid_New pickupLat pickupLng
               vehicleType s in
  db run.2 !! "drivers:locations" = db s !! "drivers:locations"
  /\ (forall id, id ∈ smembers (db run.2) "drivers:available" ->
                 id ∈ smembers (db s) "drivers:available")
  /\ (run.1 = Fail ErrDriverNotAvailable -> db run.2 = db s)
  /\ (run.1 <> Fail ErrDriverNotAvailable ->
      exists c : GeoLocation,
        run.1 = matching.foundDriver uuid_New vehicleType c
        /\ (Name c ∈ smembers (db s) "drivers:available")
        /\ smembers (db run.2) "drivers:available"
           = smembers (db s) "drivers:available" ∖ {[Name c]}
        /\ (forall k, k <> "drivers:available" ->
                      k <> matching.currentRideKey (Name c) ->
                      db run.2 !! k = db s !! k)
        /\ (db run.2 !! matching.currentRideKey (Name c)
            = db s !! matching.currentRideKey (Name c)
            \/ db run.2 !! matching.currentRideKey (Name c)
               = Some (VString "claiming" (30 * Second)%Z))).
Proof.
  intros run. subst run.
  destruct (matching.FindNearestDriver config uuid_New pickupLat pickupLng
              vehicleType s) as [r s'] eqn:Hrun.
  cbn [fst snd]. apply FindNearestDriver_inv in Hrun.
  destruct Hrun as [delta Hr Hdb _ _ _
                   | tried later radius results c delta marker
                       _ Hr _ _ _ _ _ Hin Hdb].
  - rewrite Hdb. split; [reflexivity |]. split; [auto |].
    split; [reflexivity | contradiction].
  - rewrite Hdb. split; [apply claimed_db_locations |].
    split; [| split].
    + intros id. rewrite claimed_db_members by exact Hin.
      now intros [Hid _]%elem_of_difference.
    + intros Hnone. exfalso. rewrite Hnone in Hr. unfold matching.foundDriver in Hr.
      destruct (String.length (Name c) <? 8)%nat; discriminate.
    + intros _. exists c. split; [exact Hr |]. split; [exact Hin |].
      split; [now apply claimed_db_members |].
      split; [intros k Hset Hmarker; now apply claimed_db_other_key |].
      destruct marker as [[] | |].
      * right. apply claimed_db_marker.
      * left. unfold claimed_db. apply srem_other, currentRideKey_not_available.
      * left. unfold claimed_db. apply srem_other, currentRideKey_not_available.
Qed.

(** X13.  Two calls of [FindNearestDriver] in a row that both return a
    driver have claimed two different members of the available set,
    whatever failed in between and whatever the two requests were. *)
Theorem no_double_claim (config1 config2 : matching.Config)
    (uuid_New1 uuid_New2 : UUID) (lat1 lng1 lat2 lng2 : Q)
    (vehicleType1 vehicleType2 : driver.VehicleType) (s : Redis)
    (driver1 driver2 : driver.Driver) :
  let first := matching.FindNearestDriver config1 uuid_New1 lat1 lng1
                 vehicleType1 s in
  let second := matching.FindNearestDriver config2 uuid_New2 lat2 lng2
                  vehicleType2 first.2 in
  first.1 = Return driver1 ->
  second.1 = Return driver2 ->
  exists c1 c2 : GeoLocation,
    matching.foundDriver uuid_New1 vehicleType1 c1 = Return driver1
    /\ matching.foundDriver uuid_New2 vehicleType2 c2 = Return driver2
    /\ Name c1 <> Name c2
    /\ (Name c1 ∈ smembers (db s) "drivers:available")
    /\ (Name c2 ∈ smembers (db s) "drivers:available")
    /\ (Name c1 ∉ smembers (db second.2) "drivers:available")
    /\ (Name c2 ∉ smembers (db second.2) "drivers:available").
Proof.
  intros first second. subst second first.
  destruct (matching.FindNearestDriver config1 uuid_New1 lat1 lng1
              vehicleType1 s) as [r1 s1] eqn:Hrun1.
  cbn [fst snd].
  destruct (matching.FindNearestDriver config2 uuid_New2 lat2 lng2
              vehicleType2 s1) as [r2 s2] eqn:Hrun2.
  cbn [fst snd]. intros -> ->.
  apply FindNearestDriver_inv in Hrun1, Hrun2.
  destruct Hrun1 as [delta1 Hr1 _ _ _ _
                    | tried1 later1 radius1 results1 c1 delta1 marker1
                        _ Hr1 _ _ _ _ _ Hin1 Hdb1]; [discriminate |].
  destruct Hrun2 as [delta2 Hr2 _ _ _ _
                    | tried2 later2 radius2 results2 c2 delta2 marker2
                        _ Hr2 _ _ _ _ _ Hin2 Hdb2]; [discriminate |].
  rewrite Hdb1, claimed_db_members in Hin2 by exact Hin1.
  apply elem_of_difference in Hin2 as [Hin2 Hne%not_elem_of_singleton].
  exists c1, c2. split; [now symmetry |]. split; [now symmetry |].
  split; [congruence |]. split; [exact Hin1 |]. split; [exact Hin2 |].
  assert (Hleft : smembers (db s2) "drivers:available"
                  = smembers (db s) "drivers:available" ∖ {[Name c1]} ∖ {[Name c2]}).
  { rewrite Hdb2, claimed_db_members.
    - now rewrite Hdb1, claimed_db_members.
    - rewrite Hdb1, claimed_db_members by exact Hin1.
      apply elem_of_difference. split; [exact Hin2 |].
      now apply not_elem_of_singleton. }
  rewrite Hleft. split.
  - intros [[_ Hout]%elem_of_difference _]%elem_of_difference.
    apply Hout. now apply elem_of_singleton.
  - intros [_ Hout]%elem_of_difference.
    apply Hout. now apply elem_of_singleton.
Qed.

End Footprint.

(** * Runs of the added theorems *)

Section SampleRuns.
Import redis props dispatch testdouble samples.

Lemma sample_first_claimable :
  firstClaimable handlers.matchingConfig fleet 12.9716 77.5946
    (matching.searchRadii handlers.matchingConfig) = Some nearest.
Proof. vm_compute. reflexivity. Qed.

Lemma sample_second_claimable :
  firstClaimable handlers.matchingConfig (claimed_db fleet d1 (Reply tt))
    12.9716 77.5946 (matching.searchRadii handlers.matchingConfig)
  = Some farther.
Proof. vm_compute. reflexivity. Qed.

Lemma sample_first_dispatch :
  let run := matching.FindNearestDriver handlers.matchingConfig fresh_uuid
               12.9716 77.5946 "economy" (store fleet []) in
  run.1 = Return driver_one
  /\ outages run.2 = []
  /\ db run.2 = claimed_db fleet d1 (Reply tt).
Proof.
  cbv zeta. unfold matching.FindNearestDriver.
  destruct (tryRadii_up fresh_uuid "economy" handlers.matchingConfig
              12.9716 77.5946 (matching.searchRadii handlers.matchingConfig)
              (store fleet []) eq_refl) as (s' & -> & Hup & Hdb).
  cbn [fst snd]. rewrite Hdb. unfold dispatch_result.
  change (db (store fleet [])) with fleet. rewrite sample_first_claimable.
  cbn [fst snd]. now repeat split.
Qed.

Lemma sample_second_dispatch :
  (matching.FindNearestDriver handlers.matchingConfig fresh_uuid
     12.9716 77.5946 "premium"
     (matching.FindNearestDriver handlers.matchingConfig fresh_uuid
        12.9716 77.5946 "economy" (store fleet [])).2).1 = Return driver_two.
Proof.
  destruct sample_first_dispatch as (_ & Hup & Hdb).
  unfold matching.FindNearestDriver at 1.
  destruct (tryRadii_up fresh_uuid "premium" handlers.matchingConfig
              12.9716 77.5946 (matching.searchRadii handlers.matchingConfig)
              _ Hup) as (s' & -> & _).
  cbn [fst]. rewrite Hdb. unfold dispatch_result.
  rewrite sample_second_claimable. reflexivity.
Qed.

Lemma sample_failed_insert :
  (handlers.CreateRide "ride-1" fresh_uuid false (Some request)
     (store fleet [])).1
  = Return (handlers.InternalServerError "Failed to create ride").
Proof. vm_compute. reflexivity. Qed.

End SampleRuns.

Section MoreExamples.
Import redis props dispatch testdouble samples binary64.

Lemma dispatch_fault_free_witness :
  outages (store fleet []) = []
  /\ (matching.FindNearestDriver handlers.matchingConfig fresh_uuid
        12.9716 77.5946 "economy" (store fleet [])).1
     = matching.foundDriver fresh_uuid "economy" nearest.
Proof.
  destruct (dispatch_fault_free fresh_uuid "economy" handlers.matchingConfig
              12.9716 77.5946 (store fleet []) eq_refl) as (Hres & _).
  split; [reflexivity |]. rewrite Hres.
  change (db (store fleet [])) with fleet. now rewrite sample_first_claimable.
Defined.

Lemma unreachable_store_reads_as_no_driver_witness :
  outages (store fleet [true; true; true; true])
  = repeat true (length (matching.searchRadii handlers.matchingConfig)) ++ []
  /\ matching.FindNearestDriver handlers.matchingConfig fresh_uuid
       12.9716 77.5946 "economy" (store fleet [true; true; true; true])
     = (Fail ErrDriverNotAvailable,
        {| db := fleet; outages := [];
           log := List.map (fun radius =>
                              GEORADIUS "drivers:locations" 77.5946 12.9716
                                (matching.geoRadiusQuery handlers.matchingConfig radius)
                                Failure)
                           (matching.searchRadii handlers.matchingConfig) |}).
Proof.
  split; [reflexivity |].
  exact (proj1 (unreachable_store_reads_as_no_driver handlers.matchingConfig
                  fresh_uuid 12.9716 77.5946 "economy"
                  (store fleet [true; true; true; true]) [] eq_refl)).
Defined.

Lemma failed_marker_read_claims_witness :
  outages (store busy_fleet [true]) = [true]
  /\ (d1 ∈ smembers busy_fleet "drivers:available")
  /\ busy_fleet !! matching.currentRideKey d1 = Some (VString "ride-7" 0%Z)
  /\ (matching.claimCandidates fresh_uuid "economy" candidates
        (store busy_fleet [true])).1
     = matching.foundDriver fresh_uuid "economy" (located d1 77.60 12.98 1.5).
Proof.
  assert (Hin : d1 ∈ smembers busy_fleet "drivers:available").
  { match goal with |- ?P => apply (@bool_decide_unpack P _) end.
    vm_compute. exact I. }
  split; [reflexivity |]. split; [exact Hin |]. split; [reflexivity |].
  exact (proj1 (failed_marker_read_claims fresh_uuid "economy"
                  (located d1 77.60 12.98 1.5) [located d2 77.70 13.10 25.9]
                  (store busy_fleet [true]) eq_refl Hin)).
Defined.

Lemma accepted_driver_is_skipped_witness :
  outages (store fleet []) = []
  /\ handlers_ext.RideID accept <> ""
  /\ (handlers_ext.AcceptRide d1 (Some accept) (store fleet [])).1
     = handlers_ext.Accepted "ride-9"
  /\ db (handlers_ext.AcceptRide d1 (Some accept) (store fleet [])).2
     = <[matching.currentRideKey d1
         := VString "ride-9" (24 * handlers_ext.Hour)%Z]> fleet.
Proof.
  assert (Hride : handlers_ext.RideID accept <> "") by discriminate.
  destruct (accepted_driver_is_skipped d1 accept (store fleet []) eq_refl Hride)
    as (Hresp & Hdb & _).
  split; [reflexivity |]. split; [exact Hride |]. split; [exact Hresp |].
  exact Hdb.
Defined.

Lemma create_ride_outcomes_witness :
  dto.binds request = true
  /\ (handlers.CreateRide "ride-1" fresh_uuid false (Some request)
        (store fleet [])).1
     = Return (handlers.InternalServerError "Failed to create ride")
  /\ exists (c : GeoLocation) (marker : reply unit),
       (Name c ∈ smembers fleet "drivers:available")
       /\ (Name c ∉ smembers
                      (db (handlers.CreateRide "ride-1" fresh_uuid false
                             (Some request) (store fleet [])).2)
                      "drivers:available")
       /\ db (handlers.CreateRide "ride-1" fresh_uuid false (Some request)
                (store fleet [])).2
          = claimed_db fleet (Name c) marker.
Proof.
  assert (Hbinds : dto.binds request = true) by reflexivity.
  split; [exact Hbinds |]. split; [exact sample_failed_insert |].
  pose proof sample_failed_insert as Hresp.
  destruct (create_ride_outcomes "ride-1" fresh_uuid false request
              (store fleet []) _ _ Hbinds (surjective_pairing _))
    as [[Hreq _] | (c & marker & Hin & Hgone & Hcase)];
    [rewrite Hresp in Hreq; discriminate |].
  exists c, marker. split; [exact Hin |]. split; [exact Hgone |].
  destruct Hcase as [(Hpanic & _) | [(_ & _ & Hdb) | (Hok & _)]];
    [rewrite Hresp in Hpanic; discriminate | exact Hdb | discriminate].
Defined.

Lemma surge_set_then_get_witness :
  outages (store fleet []) = []
  /\ (MinSurgeMultiplier getTestConfig <=? MaxSurgeMultiplier getTestConfig)%float
     = true
  /\ is_nan 7.5 = false
  /\ format64 7.5 = "7.50"
  /\ (GetSurgeMultiplier getTestConfig "bengaluru"
        (SetSurgeMultiplier format64 getTestConfig "bengaluru" 7.5
           (store fleet [])).2).1 = 3.0%float.
Proof.
  assert (Hround : forall v : float,
             In v [7.5%float; MinSurgeMultiplier getTestConfig;
                   MaxSurgeMultiplier getTestConfig] ->
             strconv_ParseFloat (format64 v) = Some v).
  { intros v [<- | [<- | [<- | []]]]; vm_compute; reflexivity. }
  destruct (surge_set_then_get (H := platform) format64 getTestConfig "bengaluru"
              7.5 (store fleet []) eq_refl eq_refl eq_refl Hround)
    as (_ & _ & _ & _ & Hhigh & _).
  split; [reflexivity |]. split; [reflexivity |]. split; [reflexivity |].
  split; [reflexivity |]. now apply Hhigh.
Defined.

Lemma matched_driver_is_not_valid_witness :
  (matching.FindNearestDriver handlers.matchingConfig fresh_uuid
     12.9716 77.5946 "economy" (store fleet [])).1 = Return driver_one
  /\ driver_ext.IsValid driver_one = Some driver_ext.ErrInvalidDriverEmail
  /\ driver_ext.CanAcceptRides driver_one = true.
Proof.
  pose proof (proj1 sample_first_dispatch) as Hrun.
  destruct (matched_driver_is_not_valid handlers.matchingConfig fresh_uuid
              12.9716 77.5946 "economy" (store fleet []) driver_one Hrun)
    as (Hvalid & Hcan & _).
  split; [exact Hrun |]. split; [exact Hvalid | exact Hcan].
Defined.

Lemma no_double_claim_witness :
  (matching.FindNearestDriver handlers.matchingConfig fresh_uuid
     12.9716 77.5946 "economy" (store fleet [])).1 = Return driver_one
  /\ (matching.FindNearestDriver handlers.matchingConfig fresh_uuid
        12.9716 77.5946 "premium"
        (matching.FindNearestDriver handlers.matchingConfig fresh_uuid
           12.9716 77.5946 "economy" (store fleet [])).2).1 = Return driver_two
  /\ exists c1 c2 : GeoLocation,
       matching.foundDriver fresh_uuid "economy" c1 = Return driver_one
       /\ matching.foundDriver fresh_uuid "premium" c2 = Return driver_two
       /\ Name c1 <> Name c2.
Proof.
  pose proof (proj1 sample_first_dispatch) as Hfirst.
  pose proof sample_second_dispatch as Hsecond.
  destruct (no_double_claim handlers.matchingConfig handlers.matchingConfig
              fresh_uuid fresh_uuid 12.9716 77.5946 12.9716 77.5946
              "economy" "premium" (store fleet []) driver_one driver_two
              Hfirst Hsecond)
    as (c1 & c2 & Hc1 & Hc2 & Hne & _).
  split; [exact Hfirst |]. split; [exact Hsecond |].
  exists c1, c2. split; [exact Hc1 |]. split; [exact Hc2 | exact Hne].
Defined.

End MoreExamples.

(** * Where the code breaks its own promises (C8, C9) *)

Section Defects.
Import redis props dispatch testdouble samples binary64.

Lemma short_first_claimable :
  firstClaimable handlers.matchingConfig short_fleet 12.9716 77.5946
    (matching.searchRadii handlers.matchingConfig) = Some short_candidate.
Proof. vm_compute. reflexivity. Qed.

(** C8 fails on the code.  A driver announced under the id "bob" is the
    nearest candidate: the SREM removes it from the available set, the
    marker is written, then [driverID[:8]] panics.  No driver is
    returned, and the removal and the marker stay. *)
Lemma short_id_leaves_claim_dangling :
  let run := matching.FindNearestDriver handlers.matchingConfig fresh_uuid
               12.9716 77.5946 "economy" (store short_fleet []) in
  run.1 = Panic
  /\ (shorty ∈ smembers short_fleet "drivers:available")
  /\ (shorty ∉ smembers (db run.2) "drivers:available")
  /\ db run.2 !! matching.currentRideKey shorty
     = Some (VString "claiming" (30 * Second)%Z).
Proof.
  cbv zeta. unfold matching.FindNearestDriver.
  destruct (tryRadii_up fresh_uuid "economy" handlers.matchingConfig
              12.9716 77.5946 (matching.searchRadii handlers.matchingConfig)
              (store short_fleet []) eq_refl) as (s' & -> & _ & Hdb).
  cbn [fst snd]. rewrite Hdb. unfold dispatch_result.
  change (db (store short_fleet [])) with short_fleet.
  rewrite short_first_claimable. cbn [fst snd].
  assert (Hin : shorty ∈ smembers short_fleet "drivers:available").
  { match goal with |- ?P => apply (@bool_decide_unpack P _) end.
    vm_compute. exact I. }
  split; [reflexivity |]. split; [exact Hin |]. split.
  - change (Name short_candidate) with shorty.
    rewrite claimed_db_members by exact Hin.
    intros [_ Hout]%elem_of_difference. apply Hout. now apply elem_of_singleton.
  - apply claimed_db_marker.
Qed.

(** C9 fails on the code.  With the maximum surge lowered to 1.2, 30
    active rides for 20 drivers give 2.0 but 40 give 1.2; and 2.0 is above
    the value for no driver at all. *)
Lemma surge_drops_at_low_cap :
  (30 <= 40)%Z /\ (0 < 20)%Z
  /\ CalculateSurgeBasedOnDemand tight_cap 30 20 = 2.0%float
  /\ CalculateSurgeBasedOnDemand tight_cap 40 20 = MaxSurgeMultiplier tight_cap
  /\ CalculateSurgeBasedOnDemand tight_cap 100 0 = MaxSurgeMultiplier tight_cap
  /\ (CalculateSurgeBasedOnDemand tight_cap 40 20
      <? CalculateSurgeBasedOnDemand tight_cap 30 20)%float = true
  /\ (CalculateSurgeBasedOnDemand tight_cap 100 0
      <? CalculateSurgeBasedOnDemand tight_cap 30 20)%float = true.
Proof. repeat split; try lia; vm_compute; reflexivity. Qed.

End Defects.
